(** * EukTrait curator: the schema-driven record engine

    A shallow embedding of [app8.py] (and of [app7.py] where the two
    differ) together with the properties of the record engine: spec
    normalisation, vocabulary resolution, the recursive field renderer,
    the entity save action and the assertion composer.

    Python values are an inductive type, mappings are association lists in
    insertion order, raised exceptions are the [Raise] branch of [result],
    the session store and the files on disk are threaded explicitly. *)

From stdpp Require Import base gmap strings list sorting pretty.

(** * Python values *)

(** A finite binary float [mantissa * 2 ^ exponent]; the program never
    computes with floats, it only tests them for truth and stores them. *)
Record pyfloat := PyFloat { mantissa : Z; exponent : Z }.

Definition float_zero : pyfloat := PyFloat 0 0.

Unset Elimination Schemes.
Inductive value :=
| VNone
| VBool (b : bool)
| VInt (z : Z)
| VFloat (f : pyfloat)
| VStr (s : string)
| VList (l : list value)
| VDict (d : list (string * value)).
Set Elimination Schemes.

(** Mappings keep insertion order, as Python's [dict] and PyYAML's loader do.
    Keys are strings: field names, attribute names, identifiers. *)
Abbreviation dict := (list (string * value)).

Section value_induction.
Variable P : value -> Prop.
Hypothesis HNone : P VNone.
Hypothesis HBool : forall b, P (VBool b).
Hypothesis HInt : forall z, P (VInt z).
Hypothesis HFloat : forall f, P (VFloat f).
Hypothesis HStr : forall s, P (VStr s).
Hypothesis HList : forall l, Forall P l -> P (VList l).
Hypothesis HDict : forall d : dict, Forall (fun kv => P kv.2) d -> P (VDict d).

Fixpoint value_ind (v : value) : P v :=
  match v with
  | VNone => HNone
  | VBool b => HBool b
  | VInt z => HInt z
  | VFloat f => HFloat f
  | VStr s => HStr s
  | VList l =>
      HList l ((fix elems (l : list value) : Forall P l :=
                  match l with
                  | [] => List.Forall_nil P
                  | x :: l' => List.Forall_cons _ x l' (value_ind x) (elems l')
                  end) l)
  | VDict d =>
      HDict d ((fix entries (d : dict) : Forall (fun kv => P kv.2) d :=
                  match d with
                  | [] => List.Forall_nil _
                  | kv :: d' => List.Forall_cons _ kv d' (value_ind kv.2) (entries d')
                  end) d)
  end.
End value_induction.

(** * Exceptions *)

Inductive exn :=
| AttributeError
| TypeError
| KeyError
| FileNotFoundError
| IsADirectoryError
| NotADirectoryError
| FileExistsError
| OSError
| YAMLError.
(** [OSError] stands for the error the system raises for a name it refuses
    (a component or a path that is too long); the more specific file errors
    have their own names. *)

Inductive result (A : Type) :=
| Ok (a : A)
| Raise (e : exn).
Arguments Ok {A} a.
Arguments Raise {A} e.

(** Sequencing: an exception raised by the first step ends the run. *)
Global Instance result_ret : MRet result := fun A a => Ok a.
Global Instance result_bind : MBind result := fun A B k m =>
  match m with
  | Ok a => k a
  | Raise e => Raise e
  end.

(** * Built-in operations *)

(** [bool(v)] *)
Definition truthy (v : value) : bool :=
  match v with
  | VNone => false
  | VBool b => b
  | VInt z => negb (z =? 0)%Z
  | VFloat f => negb (mantissa f =? 0)%Z
  | VStr s => negb (String.eqb s "")
  | VList l => match l with [] => false | _ => true end
  | VDict d => match d with [] => false | _ => true end
  end.

(** [a or b] *)
Definition py_or (a b : value) : value := if truthy a then a else b.

(** [v == s] for a string literal [s] *)
Definition is_str (v : value) (s : string) : bool :=
  match v with
  | VStr s' => String.eqb s' s
  | _ => false
  end.

(** [val in ("", None)] *)
Definition omitted (val : value) : bool :=
  match val with
  | VNone => true
  | VStr s => String.eqb s ""
  | _ => false
  end.

(** [k in d] and [d.get(k)] on a mapping *)
Fixpoint dict_get (d : dict) (k : string) : option value :=
  match d with
  | [] => None
  | (k', v) :: rest => if String.eqb k' k then Some v else dict_get rest k
  end.

Definition dict_has (d : dict) (k : string) : bool :=
  match dict_get d k with Some _ => true | None => false end.

(** [d.get(k, default)] *)
Definition get_default (d : dict) (k : string) (default : value) : value :=
  match dict_get d k with Some v => v | None => default end.

(** [d[k] = v]: an existing key keeps its place, a new one goes last *)
Fixpoint dict_set (d : dict) (k : string) (v : value) : dict :=
  match d with
  | [] => [(k, v)]
  | (k', v') :: rest =>
      if String.eqb k' k then (k', v) :: rest else (k', v') :: dict_set rest k v
  end.

(** ** Mappings keyed by any hashable value

    The trait index of the assertions tab is keyed by whatever the traits
    file gives as [trait_id]. Python finds a key by [==] (and by its hash,
    which agrees with [==]): [True], [1] and [1.0] are one key, a string is
    only equal to the same string, and [None] only to [None]. *)

(** The odd part of a positive number and the power of two taken out. *)
Fixpoint odd_part (p : positive) : positive * Z :=
  match p with
  | xO q => let '(r, k) := odd_part q in (r, (k + 1)%Z)
  | _ => (p, 0%Z)
  end.

Inductive key :=
| KNone
| KNum (m e : Z)      (* the number [m * 2 ^ e], [m] odd, or [0 * 2 ^ 0] *)
| KStr (s : string).

Global Instance key_eq_dec : EqDecision key.
Proof. solve_decision. Defined.

Definition number (m e : Z) : key :=
  match m with
  | Z0 => KNum 0 0
  | Zpos p => let '(r, k) := odd_part p in KNum (Zpos r) (e + k)
  | Zneg p => let '(r, k) := odd_part p in KNum (Zneg r) (e + k)
  end.

(** What a value is as a key; lists and mappings are unhashable. *)
Definition key_of (v : value) : option key :=
  match v with
  | VNone => Some KNone
  | VBool b => Some (number (if b then 1 else 0) 0)
  | VInt z => Some (number z 0)
  | VFloat f => Some (number (mantissa f) (exponent f))
  | VStr s => Some (KStr s)
  | VList _ | VDict _ => None
  end.

Definition hashable (v : value) : bool :=
  match v with
  | VList _ | VDict _ => false
  | _ => true
  end.

(** [a == b] on hashable values *)
Definition same_key (a b : value) : bool := bool_decide (key_of a = key_of b).

(** A mapping keyed by values, in insertion order; each key is kept as it
    was first written. *)
Abbreviation index := (list (value * value)).

Fixpoint index_get (d : index) (k : value) : option value :=
  match d with
  | [] => None
  | (k', v) :: rest => if same_key k' k then Some v else index_get rest k
  end.

(** [d[k] = v]: an existing key keeps its place and its spelling, a new one
    goes last *)
Fixpoint index_set (d : index) (k : value) (v : value) : index :=
  match d with
  | [] => [(k, v)]
  | (k', v') :: rest =>
      if same_key k' k then (k', v) :: rest else (k', v') :: index_set rest k v
  end.

(** [v.get(k, default)] on any value: only mappings have [get] *)
Definition py_get (v : value) (k : string) (default : value) : result value :=
  match v with
  | VDict d => Ok (get_default d k default)
  | _ => Raise AttributeError
  end.

(** [v.items()] *)
Definition py_items (v : value) : result dict :=
  match v with
  | VDict d => Ok d
  | _ => Raise AttributeError
  end.

(** [v[k]] with a string subscript *)
Definition py_getitem (v : value) (k : string) : result value :=
  match v with
  | VDict d => match dict_get d k with Some x => Ok x | None => Raise KeyError end
  | _ => Raise TypeError
  end.

(** Strings are byte sequences here; iterating one yields one-byte strings.
    The callers below subscript every element by a field name, which
    raises on any string, so only emptiness of an iterated string shows. *)
Fixpoint str_elems (s : string) : list value :=
  match s with
  | EmptyString => []
  | String a s' => VStr (String a EmptyString) :: str_elems s'
  end.

(** [for x in v] *)
Definition py_iter (v : value) : result (list value) :=
  match v with
  | VList l => Ok l
  | VDict d => Ok (map (fun kv => VStr kv.1) d)
  | VStr s => Ok (str_elems s)
  | _ => Raise TypeError
  end.

(** [sep.join(names)] *)
Fixpoint join (sep : string) (names : list string) : string :=
  match names with
  | [] => ""
  | [n] => n
  | n :: rest => n +:+ sep +:+ join sep rest
  end.

Definition lower_ascii (a : Ascii.ascii) : Ascii.ascii :=
  let n := Ascii.nat_of_ascii a in
  if (65 <=? n)%nat && (n <=? 90)%nat then Ascii.ascii_of_nat (n + 32) else a.

(** [s.lower()] on ASCII letters *)
Fixpoint lower (s : string) : string :=
  match s with
  | EmptyString => EmptyString
  | String a s' => String (lower_ascii a) (lower s')
  end.

(** [str(v)] as an f-string applies it. Strings and integers are rendered
    here; the renderings of the other values (floats, booleans, [None],
    lists, mappings) are left to [other], which the host supplies. *)
Definition py_str (other : value -> string) (v : value) : string :=
  match v with
  | VStr s => s
  | VInt z => pretty z
  | _ => other v
  end.

(** * The hosting shell (Streamlit) and PyYAML

    Neither is part of the repository. What the program relies on is
    modelled here: each input widget returns the user's current entry for
    its key, or the widget's initial value when the user has entered
    nothing; a button returns [True] in the run its click triggered. A
    widget created without [key=] is identified by its label. Of PyYAML the
    program uses [safe_load] and [dump]; what a dumped value reads back as
    is left to the host, since it is not always the value itself. *)

Inductive widget :=
| WText (s : string)
| WInt (z : Z)
| WFloat (f : pyfloat)
| WChoice (i : nat)
| WMulti (picks : list nat).

Record host := Host {
  inputs : gmap string widget;   (* what the user has entered, by widget key *)
  clicked : gset string;         (* the buttons pressed in this run *)
  str_other : value -> string;   (* [str] on values other than strings and integers *)
  yaml_reads : value -> option value
    (* PyYAML: what [yaml.safe_load] reads from the text that [yaml.dump]
       writes for a value, [None] when it rejects that text *)
}.

(** The documents of the scenarios below hold printable ASCII strings and
    integers only, which PyYAML reads back as they were dumped. *)
Definition plain_yaml : value -> option value := Some.

(** [st.session_state], as the program uses it: entry lists by path. *)
Abbreviation session := (gmap string (list value)).

(** [st.text_input(label, key=key)]: the text entered, initially empty *)
Definition text_input (H : host) (key : string) : value :=
  match inputs H !! key with
  | Some (WText s) => VStr s
  | _ => VStr ""
  end.

(** [st.number_input(label, step=1, key=key)]: an integer, initially 0 *)
Definition number_input_int (H : host) (key : string) : value :=
  match inputs H !! key with
  | Some (WInt z) => VInt z
  | _ => VInt 0
  end.

(** [st.number_input(label, key=key)]: a float, initially 0.0 *)
Definition number_input (H : host) (key : string) : value :=
  match inputs H !! key with
  | Some (WFloat f) => VFloat f
  | _ => VFloat float_zero
  end.

(** The options a choice widget offers for the value it is given: the
    elements of a list, the keys of a mapping, nothing for [None], and a
    lone scalar as the only option. *)
Definition options_of (v : value) : list value :=
  match v with
  | VList l => l
  | VDict d => map (fun kv => VStr kv.1) d
  | VNone => []
  | _ => [v]
  end.

(** [st.selectbox(label, options, key=key)]: the option chosen, initially
    the first one; [None] when there is no option *)
Definition selectbox (H : host) (options : value) (key : string) : value :=
  let opts := options_of options in
  let first := match opts with [] => VNone | v :: _ => v end in
  match inputs H !! key with
  | Some (WChoice i) => match opts !! i with Some v => v | None => first end
  | _ => first
  end.

(** [st.multiselect(label, options)]: the options chosen, initially none *)
Definition multiselect (H : host) (label : string) (options : value) : list value :=
  match inputs H !! label with
  | Some (WMulti picks) => omap (fun i => options_of options !! i) picks
  | _ => []
  end.

(** [st.button(label, key=key)] *)
Definition button (H : host) (key : string) : bool :=
  bool_decide (key ∈ clicked H).

(** * Files

    The working directory is a tree of named nodes. A file holds a YAML
    document: [File (Some v)] parses to [v], and [File None] is text that
    [yaml.safe_load] rejects. Paths are lists of components below the
    working directory ([BASE = Path(".")]); a leading slash and [..] are
    not given a meaning. *)

Unset Elimination Schemes.
Inductive node :=
| File (doc : option value)
| Dir (kids : list (string * node)).
Set Elimination Schemes.

Abbreviation tree := (list (string * node)).
Abbreviation path := (list string).

Fixpoint segments (s cur : string) : list string :=
  match s with
  | EmptyString => [cur]
  | String a s' =>
      if String.eqb (String a EmptyString) "/" then cur :: segments s' ""
      else segments s' (cur +:+ String a EmptyString)
  end.

(** [Path(s).parts]: empty and [.] components are dropped *)
Definition parts (s : string) : path :=
  List.filter (fun c => negb (String.eqb c "" || String.eqb c ".")) (segments s "").

(** [p / s] *)
Definition path_join (p : path) (s : string) : path := p ++ parts s.
Infix "//" := path_join (at level 40, left associativity).

Fixpoint kid (name : string) (kids : tree) : option node :=
  match kids with
  | [] => None
  | (n, x) :: rest => if String.eqb n name then Some x else kid name rest
  end.

Fixpoint set_kid (name : string) (x : node) (kids : tree) : tree :=
  match kids with
  | [] => [(name, x)]
  | (n, y) :: rest =>
      if String.eqb n name then (n, x) :: rest else (n, y) :: set_kid name x rest
  end.

Fixpoint lookup_path (fs : tree) (p : path) : option node :=
  match p with
  | [] => Some (Dir fs)
  | c :: p' =>
      match kid c fs with
      | None => None
      | Some (Dir kids) => lookup_path kids p'
      | Some (File doc) => match p' with [] => Some (File doc) | _ => None end
      end
  end.

(** ** What the system refuses

    The limits are those of Linux: a name of more than [NAME_MAX] bytes is
    refused where the walk along a path meets it, a path of [PATH_MAX]
    bytes or more is refused as a whole; both give [OSError]. *)

Definition NAME_MAX : nat := 255.
Definition PATH_MAX : nat := 4096.

Definition long_name (c : string) : bool := (NAME_MAX <? String.length c)%nat.

(** [len(str(p))]: the components and the separators between them; the
    empty path is written [.] *)
Fixpoint path_length (p : path) : nat :=
  match p with
  | [] => 1
  | c :: rest =>
      match rest with
      | [] => String.length c
      | _ => String.length c + 1 + path_length rest
      end
  end.

Definition long_path (p : path) : bool := (PATH_MAX <=? path_length p)%nat.

(** The walk of the system along [p], as [stat] and [open] make it: a
    component is looked up in the directory reached so far. *)
Fixpoint walk (fs : tree) (p : path) : result node :=
  match p with
  | [] => Ok (Dir fs)
  | c :: p' =>
      if long_name c then Raise OSError
      else match kid c fs with
           | None => Raise FileNotFoundError
           | Some (Dir kids) => walk kids p'
           | Some (File doc) =>
               match p' with [] => Ok (File doc) | _ => Raise NotADirectoryError end
           end
  end.

(** [os.stat(p)] *)
Definition stat (fs : tree) (p : path) : result node :=
  if long_path p then Raise OSError else walk fs p.

(** [p.exists()]: a missing component and a file on the way mean that the
    path does not exist, any other error is raised *)
Definition path_exists (fs : tree) (p : path) : result bool :=
  match stat fs p with
  | Ok _ => Ok true
  | Raise FileNotFoundError | Raise NotADirectoryError => Ok false
  | Raise e => Raise e
  end.

(** The directories [mkdir] makes along [p], from the first missing one on *)
Fixpoint mkdir_p (fs : tree) (p : path) : result tree :=
  match p with
  | [] => Ok fs
  | c :: p' =>
      if long_name c then Raise OSError
      else match kid c fs with
           | None => sub ← mkdir_p [] p'; Ok (set_kid c (Dir sub) fs)
           | Some (Dir kids) => sub ← mkdir_p kids p'; Ok (set_kid c (Dir sub) fs)
           | Some (File _) =>
               Raise (match p' with [] => FileExistsError | _ => NotADirectoryError end)
           end
  end.

(** [p.mkdir(parents=True, exist_ok=True)] *)
Definition mkdir (fs : tree) (p : path) : result tree :=
  if long_path p then Raise OSError else mkdir_p fs p.

(** The file [open(p, "w")] makes or empties, holding then the text that
    [yaml.dump(data, f)] writes: [reads data] is what that text reads back
    as. *)
Fixpoint write_file (reads : value -> option value) (fs : tree) (p : path) (data : value)
    : result tree :=
  match p with
  | [] => Raise IsADirectoryError
  | c :: p' =>
      if long_name c then Raise OSError
      else match p' with
           | [] =>
               match kid c fs with
               | Some (Dir _) => Raise IsADirectoryError
               | _ => Ok (set_kid c (File (reads data)) fs)
               end
           | _ =>
               match kid c fs with
               | Some (Dir kids) =>
                   sub ← write_file reads kids p' data; Ok (set_kid c (Dir sub) fs)
               | Some (File _) => Raise NotADirectoryError
               | None => Raise FileNotFoundError
               end
           end
  end.

(** [with open(p, "w") as f: yaml.dump(data, f)] *)
Definition dump_to (reads : value -> option value) (fs : tree) (p : path) (data : value)
    : result tree :=
  if long_path p then Raise OSError else write_file reads fs p data.

(** ** Paths of the application *)

Definition BASE : path := [].
Definition DATA : path := BASE // "data".
Definition ONTOLOGY : path := BASE // "ontology".

Definition DIRS : gmap string path :=
  list_to_map [ ("Taxon", DATA // "taxa");
                ("Source", DATA // "sources");
                ("Material", DATA // "materials");
                ("Assertions", DATA // "assertions") ].

(** ** YAML utilities *)

Definition load_yaml (fs : tree) (p : path) : result value :=
  found ← stat fs p;
  match found with
  | Dir _ => Raise IsADirectoryError
  | File None => Raise YAMLError
  | File (Some v) => Ok v
  end.

Definition save_yaml (reads : value -> option value) (fs : tree) (p : path) (data : value)
    : result tree :=
  fs1 ← mkdir fs (removelast p);
  dump_to reads fs1 p data.

Fixpoint ends_with (suffix s : string) : bool :=
  String.eqb s suffix ||
  match s with
  | EmptyString => false
  | String _ s' => ends_with suffix s'
  end.

(** The index of the last dot of a name, as [rfind] gives it *)
Fixpoint last_dot (s : string) (i : nat) (found : option nat) : option nat :=
  match s with
  | EmptyString => found
  | String a s' => last_dot s' (S i) (if String.eqb (String a EmptyString) "." then Some i else found)
  end.

(** [p.stem]: the name without its last suffix; a leading or a trailing dot
    starts no suffix *)
Definition stem (name : string) : string :=
  match last_dot name 0 None with
  | Some i =>
      if (0 <? i)%nat && (i <? String.length name - 1)%nat
      then String.substring 0 i name else name
  | None => name
  end.

(** [sorted] on strings *)
Definition sorted (names : list string) : list string := merge_sort String.le names.

(** The names in [directory] that match [*.yaml] *)
Definition glob_yaml (fs : tree) (directory : path) : list string :=
  match lookup_path fs directory with
  | Some (Dir kids) => List.filter (ends_with ".yaml") (map fst kids)
  | _ => []
  end.

Definition list_yaml_ids (fs : tree) (directory : path) : result (list string) :=
  found ← path_exists fs directory;
  if negb found then Ok []
  else Ok (sorted (map stem (glob_yaml fs directory))).

Definition load_vocab (fs : tree) (source : value) : result value :=
  match source with
  | VList l => Ok (VList l)
  | VStr s =>
      let p := parts s in
      path_exists fs p ≫= fun found : bool =>
      if found then load_yaml fs p else Ok (VList [])
  | _ => Ok (VList [])
  end.

(** * Schema loaders

    [st.cache_data] is modelled by its first call: every load reads the
    files as they are. *)

Definition load_schema (fs : tree) (schema_path : path) : result value :=
  load_yaml fs schema_path.

(** [ONTOLOGY / domain / name]: joining a path with [None] is a [TypeError] *)
Definition domain_file (domain : value) (name : string) : result path :=
  match domain with
  | VStr d => Ok (ONTOLOGY // d // name)
  | _ => Raise TypeError
  end.

Definition load_traits (fs : tree) (domain : value) : result value :=
  p ← domain_file domain "traits.yaml";
  load_yaml fs p.

(** [[f(x) for x in l]] *)
Fixpoint comprehension {A B} (f : A -> result B) (l : list A) : result (list B) :=
  match l with
  | [] => Ok []
  | x :: rest => y ← f x; ys ← comprehension f rest; Ok (y :: ys)
  end.

Definition load_features (fs : tree) (domain : value) : result value :=
  p ← domain_file domain "features.yaml";
  doc ← load_yaml fs p;
  fl ← py_iter doc;
  ids ← comprehension (fun f => py_getitem f "feature_id") fl;
  Ok (VList ids).

Fixpoint load_each (fs : tree) (qdir : path) (names : list string) (acc : dict) : result dict :=
  match names with
  | [] => Ok acc
  | n :: rest =>
      doc ← load_yaml fs (qdir ++ [n]);
      load_each fs qdir rest (dict_set acc (stem n) doc)
  end.

Definition load_qualifiers (fs : tree) : result dict :=
  let qdir := ONTOLOGY // "qualifiers" in
  load_each fs qdir (glob_yaml fs qdir) [].

(** * Generic field renderer *)

Definition normalize_spec (spec : value) : value :=
  match spec with
  | VStr s => VDict [("value_type", VStr s)]
  | _ => spec
  end.

(** The title [field_header] displays; [spec] is a mapping here, the caller
    has met the [AttributeError] of [spec.get] on anything else. *)
Definition field_header (name : string) (spec : dict) : string :=
  name +:+ (if truthy (get_default spec "required" VNone) then " *" else "").

(** [target in DIRS]: lists and mappings are unhashable *)
Definition in_DIRS (target : value) : result (option path) :=
  match target with
  | VStr t => Ok (DIRS !! t)
  | VList _ | VDict _ => Raise TypeError
  | _ => Ok None
  end.

Definition none_choice : string := "— none —".

(** [spec.get("vocabulary_source") or spec.get("vocabulary")] *)
Definition vocabulary_source (spec : dict) : value :=
  py_or (get_default spec "vocabulary_source" VNone) (get_default spec "vocabulary" VNone).

Section renderer.
Variable H : host.
Variable fs : tree.

(** The loop both containers and the entity form run over their fields:
<<
    for fname, fspec in items:
        val = render_field(fname, fspec, key_prefix)
        if val not in ("", None):
            entry[fname] = val
>> *)
Definition render_items
    (render : string -> value -> string -> session -> result (value * session))
    (key_prefix : string) : dict -> dict -> session -> result (dict * session) :=
  fix loop items entry ss :=
    match items with
    | [] => Ok (entry, ss)
    | (fname, fspec) :: rest =>
        '(val, ss1) ← render fname fspec key_prefix ss;
        loop rest (if omitted val then entry else dict_set entry fname val) ss1
    end.

(** [for i in range(len(entries))]: one entry per index, kept when it has
    at least one field *)
Definition render_entries
    (children : string -> session -> result (dict * session))
    (key : string) : list nat -> list value -> session -> result (list value * session) :=
  fix loop idxs results ss :=
    match idxs with
    | [] => Ok (results, ss)
    | i :: rest =>
        '(entry, ss1) ← children (key +:+ "_" +:+ pretty i) ss;
        loop rest (match entry with [] => results | _ => results ++ [VDict entry] end) ss1
    end.

(** The entries tracked for a list path, after
<<
    entries = st.session_state.setdefault(key, [])
    if st.button(f"+ Add {name}", key=f"{key}_add"):
        entries.append({})
>> *)
Definition tracked_entries (ss : session) (key : string) : list value :=
  let stored := default [] (ss !! key) in
  if button H (key +:+ "_add") then stored ++ [VDict []] else stored.

(** The body of [render_field] on a normalised spec. [children prefix ss]
    runs the loop over [spec.get("fields", {}).items()] under [prefix]. *)
Definition render_node (name : string) (spec : dict) (key_prefix : string) (ss : session)
    (children : string -> session -> result (dict * session)) : result (value * session) :=
  let key := key_prefix +:+ "_" +:+ name in
  let title := field_header name spec in
  let vtype := get_default spec "value_type" (VStr "string") in
  if is_str vtype "string" then Ok (text_input H key, ss)
  else if is_str vtype "integer" then Ok (number_input_int H key, ss)
  else if is_str vtype "float" then Ok (number_input H key, ss)
  else if is_str vtype "controlled_vocab" then
    vocab ← load_vocab fs (vocabulary_source spec);
    Ok (selectbox H vocab key, ss)
  else if is_str vtype "reference" then
    known ← in_DIRS (get_default spec "target" VNone);
    match known with
    | Some directory =>
        ids ← list_yaml_ids fs directory;
        let opts := VStr none_choice :: map VStr ids in
        Ok (selectbox H (VList opts) key, ss)
    | None => Ok (text_input H key, ss)
    end
  else if is_str vtype "object" then
    '(obj, ss') ← children key ss;
    Ok (match obj with [] => VNone | _ => VDict obj end, ss')
  else if is_str vtype "list_of_objects" then
    let entries := tracked_entries ss key in
    '(results, ss') ← render_entries children key (seq 0 (length entries)) []
                                      (<[key := entries]> ss);
    Ok (match results with [] => VNone | _ => VList results end, ss')
  else Ok (VNone, ss).

(** [spec.get("fields", {}).items()], then [k] on the items: a spec
    without [fields] has none, a [fields] that is no mapping has no
    [items]. Written as a search through the spec so that [k] receives a
    part of it. *)
Definition over_fields {A} (absent : result A) (k : dict -> result A) : dict -> result A :=
  fix find spec :=
    match spec with
    | [] => absent
    | (attr, v) :: rest =>
        if String.eqb attr "fields"
        then match v with VDict items => k items | _ => Raise AttributeError end
        else find rest
    end.

Fixpoint render_field (name : string) (spec : value) (key_prefix : string) (ss : session)
    {struct spec} : result (value * session) :=
  match spec with
  | VStr s =>
      render_node name [("value_type", VStr s)] key_prefix ss
        (fun _ ss' => Ok ([], ss'))
  | VDict d =>
      render_node name d key_prefix ss
        (fun prefix ss' =>
           over_fields (Ok ([], ss'))
             (fun items => render_items render_field prefix items [] ss') d)
  | _ => Raise AttributeError
  end.

(** The same loop, read off the source: the fields of [spec], rendered
    under [prefix] into a fresh mapping. *)
Definition children_of (spec : dict) (prefix : string) (ss : session)
    : result (dict * session) :=
  items ← py_items (get_default spec "fields" (VDict []));
  render_items render_field prefix items [] ss.
End renderer.

(** * Entity tabs *)

Inductive outcome :=
| Shown (doc : value)       (* [show_yaml] of an existing record *)
| Form (payload : dict)     (* the entry form, nothing saved *)
| Idle                      (* the assertion form, nothing saved *)
| Error (msg : string)      (* [st.error] *)
| Success (msg : string).   (* [st.success] *)

(** [[f for f, s in items if s.get("required") and f not in payload]] *)
Fixpoint required_missing (items : dict) (payload : dict) : result (list string) :=
  match items with
  | [] => Ok []
  | (f, s) :: rest =>
      req ← py_get s "required" VNone;
      others ← required_missing rest payload;
      Ok (if truthy req && negb (dict_has payload f) then f :: others else others)
  end.

Definition new_choice : string := "— new —".

(** [DIRS[name]] *)
Definition dirs_at (name : string) : result path :=
  match DIRS !! name with
  | Some d => Ok d
  | None => Raise KeyError
  end.

Definition entity_tab (H : host) (entity_name : string) (schema_path : path)
    (fs : tree) (ss : session) : result (outcome * tree * session) :=
  directory ← dirs_at entity_name;
  loaded ← load_schema fs schema_path;
  schema ← py_getitem loaded entity_name;
  ids ← list_yaml_ids fs directory;
  let selected := selectbox H (VList (VStr new_choice :: map VStr ids))
                            (entity_name +:+ "_select") in
  if negb (is_str selected new_choice) then
    doc ← load_yaml fs (directory // (py_str (str_other H) selected +:+ ".yaml"));
    Ok (Shown doc, fs, ss)
  else
    fields ← py_getitem schema "fields";
    items ← py_items fields;
    '(payload, ss') ← render_items (render_field H fs) entity_name items [] ss;
    if button H ("Save " +:+ entity_name) then
      missing ← required_missing items payload;
      match missing with
      | _ :: _ => Ok (Error ("Missing required fields: " +:+ join ", " missing), fs, ss')
      | [] =>
          let file_id := get_default payload (lower entity_name +:+ "_id") VNone in
          if negb (truthy file_id) then Ok (Error "Missing identifier field", fs, ss')
          else
            fs' ← save_yaml (yaml_reads H) fs
                            (directory // (py_str (str_other H) file_id +:+ ".yaml"))
                            (VDict payload);
            Ok (Success (entity_name +:+ " saved"), fs', ss')
      end
    else Ok (Form payload, fs, ss').

(** * Assertions tab *)

(** The two versions of the application differ in the assertions tab:
    [app7.py] also loads the domain's assertion schema, and labels the
    value input with the empty string. *)
Inductive version := App7 | App8.

(** [p.name for p in directory.iterdir() if p.is_dir()] *)
Definition iterdir_dirs (fs : tree) (directory : path) : result (list string) :=
  found ← stat fs directory;
  match found with
  | File _ => Raise NotADirectoryError
  | Dir kids =>
      Ok (omap (fun kv : string * node =>
                  match kv.2 with Dir _ => Some kv.1 | File _ => None end) kids)
  end.

(** [{t["trait_id"]: t for t in ts}] *)
Fixpoint index_traits (ts : list value) (acc : index) : result index :=
  match ts with
  | [] => Ok acc
  | t :: rest =>
      id ← py_getitem t "trait_id";
      if hashable id then index_traits rest (index_set acc id t)
      else Raise TypeError
  end.

(** [traits[trait_id]] *)
Definition trait_at (traits : index) (trait_id : value) : result value :=
  if hashable trait_id then
    match index_get traits trait_id with Some x => Ok x | None => Raise KeyError end
  else Raise TypeError.

(** The input for the single value, chosen by the trait's own value type *)
Definition value_input (v : version) (H : host) (fs : tree) (trait : value) : result value :=
  let label := match v with App7 => "" | App8 => " " end in
  vtype ← py_get trait "value_type" (VStr "string");
  if is_str vtype "categorical" then
    source ← py_get trait "vocabulary" VNone;
    vocab ← load_vocab fs source;
    Ok (selectbox H vocab label)
  else if is_str vtype "integer" then Ok (number_input_int H label)
  else if is_str vtype "float" then Ok (number_input H label)
  else Ok (text_input H label).

(** The loop over [QUALIFIERS.items()] *)
Fixpoint collect_qualifiers (H : host) (quals : dict) (qualifiers : dict) : dict :=
  match quals with
  | [] => qualifiers
  | (q, vocab) :: rest =>
      let sel := multiselect H q vocab in
      collect_qualifiers H rest
        (match sel with [] => qualifiers | _ => dict_set qualifiers q (VList sel) end)
  end.

(** What the tab has collected when it reaches the save button *)
Record selection := Selection {
  sel_domain : value;
  sel_taxon_id : value;
  sel_source_id : value;
  sel_material_id : value;
  sel_feature : value;
  sel_trait_id : value;
  sel_value : value;
  sel_qualifiers : dict
}.

Definition id_choice (H : host) (fs : tree) (collection label : string) : result value :=
  directory ← dirs_at collection;
  ids ← list_yaml_ids fs directory;
  Ok (selectbox H (VList (VStr none_choice :: map VStr ids)) label).

(** [assertions_tab] up to the save button *)
Definition gather (v : version) (H : host) (QUALIFIERS : dict) (fs : tree) : result selection :=
  directory ← dirs_at "Assertions";
  names ← iterdir_dirs fs directory;
  let domain := selectbox H (VList (map VStr (sorted names))) "Domain" in
  _ ← match v with
      | App7 => load_schema fs (ONTOLOGY // "core" //
                  (py_str (str_other H) domain +:+ "_assertion_schema.yaml"))
      | App8 => Ok VNone
      end;
  tdoc ← load_traits fs domain;
  ts ← py_iter tdoc;
  traits ← index_traits ts [];
  features ← load_features fs domain;
  taxon_id ← id_choice H fs "Taxon" "taxon_id *";
  source_id ← id_choice H fs "Source" "source_id *";
  material_id ← id_choice H fs "Material" "material_id (optional)";
  let feature := selectbox H features "feature *" in
  let trait_id := selectbox H (VList (map fst traits)) "trait *" in
  trait ← trait_at traits trait_id;
  value ← value_input v H fs trait;
  let qualifiers := collect_qualifiers H QUALIFIERS [] in
  Ok (Selection domain taxon_id source_id material_id feature trait_id value qualifiers).

(** The assertion mapping of the saved record *)
Definition assertion_of (sel : selection) : dict :=
  [ ("feature", sel_feature sel);
    ("trait", sel_trait_id sel);
    ("value", sel_value sel);
    ("qualifiers", match sel_qualifiers sel with [] => VNone | q => VDict q end) ].

Definition assertion_set_of (sel : selection) : dict :=
  let aset := [ ("source_id", sel_source_id sel);
                ("assertions", VList [VDict (assertion_of sel)]) ] in
  if negb (is_str (sel_material_id sel) none_choice)
  then dict_set aset "material_id" (sel_material_id sel)
  else aset.

Definition assertion_payload (sel : selection) : value :=
  VDict [ ("taxon_id", sel_taxon_id sel);
          ("assertion_sets", VList [VDict (assertion_set_of sel)]) ].

(** [DIRS["Assertions"] / domain / f"{taxon_id}.yaml"] *)
Definition assertion_path (H : host) (sel : selection) : result path :=
  directory ← dirs_at "Assertions";
  match sel_domain sel with
  | VStr d => Ok (directory // d // (py_str (str_other H) (sel_taxon_id sel) +:+ ".yaml"))
  | _ => Raise TypeError
  end.

(** The body of [if st.button("Save assertion file")] *)
Definition save_assertion (H : host) (fs : tree) (sel : selection) : result (outcome * tree) :=
  if is_str (sel_taxon_id sel) none_choice || is_str (sel_source_id sel) none_choice
  then Ok (Error "taxon_id and source_id required", fs)
  else
    p ← assertion_path H sel;
    fs' ← save_yaml (yaml_reads H) fs p (assertion_payload sel);
    Ok (Success "Assertion file saved", fs').

Definition assertions_tab (v : version) (H : host) (QUALIFIERS : dict) (fs : tree)
    : result (outcome * tree) :=
  sel ← gather v H QUALIFIERS fs;
  if button H "Save assertion file" then save_assertion H fs sel
  else Ok (Idle, fs).

(** * Router *)

Definition main (v : version) (H : host) (fs : tree) (ss : session)
    : result (outcome * tree * session) :=
  QUALIFIERS ← load_qualifiers fs;
  let PAGE := selectbox H (VList [VStr "Taxa"; VStr "Sources"; VStr "Materials";
                                  VStr "Assertions"]) "Navigate" in
  if is_str PAGE "Taxa" then
    entity_tab H "Taxon" (ONTOLOGY // "core" // "taxonomy_assertion_schema.yaml") fs ss
  else if is_str PAGE "Sources" then
    entity_tab H "Source" (ONTOLOGY // "core" // "source_schema.yaml") fs ss
  else if is_str PAGE "Materials" then
    entity_tab H "Material" (ONTOLOGY // "core" // "material_schema.yaml") fs ss
  else
    '(o, fs') ← assertions_tab v H QUALIFIERS fs;
    Ok (o, fs', ss).

(** * Vocabulary of the properties *)

(** What each field of [items] yields, in the declared order, each one
    rendered in the session the one before it has left. *)
Fixpoint child_values
    (render : string -> value -> string -> session -> result (value * session))
    (prefix : string) (items : dict) (ss : session) : result (dict * session) :=
  match items with
  | [] => Ok ([], ss)
  | (fname, fspec) :: rest =>
      '(val, ss1) ← render fname fspec prefix ss;
      '(vals, ss2) ← child_values render prefix rest ss1;
      Ok ((fname, val) :: vals, ss2)
  end.

(** What the fields of each entry yield, entry by entry. *)
Fixpoint entry_values
    (render : string -> value -> string -> session -> result (value * session))
    (key : string) (items : dict) (idxs : list nat) (ss : session)
    : result (list dict * session) :=
  match idxs with
  | [] => Ok ([], ss)
  | i :: rest =>
      '(vals, ss1) ← child_values render (key +:+ "_" +:+ pretty i) items ss;
      '(more, ss2) ← entry_values render key items rest ss1;
      Ok (vals :: more, ss2)
  end.

(** The mapping that holds the values of [vals] that are not omitted. *)
Definition store (entry vals : dict) : dict :=
  fold_left (fun e kv => if omitted kv.2 then e else dict_set e kv.1 kv.2) vals entry.

Definition kept (vals : dict) : dict :=
  List.filter (fun kv => negb (omitted kv.2)) vals.

Definition all_omitted (vals : dict) : bool :=
  forallb (fun kv => omitted kv.2) vals.

Definition nonempty (entry : dict) : bool :=
  match entry with [] => false | _ => true end.

(** The schema file of the Taxon tab, holding the given top-level fields. *)
Definition taxon_schema_file (fields : dict) : tree :=
  [("ontology",
    Dir [("core",
      Dir [("taxonomy_assertion_schema.yaml",
            File (Some (VDict [("Taxon", VDict [("fields", VDict fields)])])))])])].

Definition taxon_schema_path : path :=
  ONTOLOGY // "core" // "taxonomy_assertion_schema.yaml".

(** A stored value as a record should hold it: not [None], not the empty
    string, and, at every depth, no empty mapping and no empty sequence. *)
Fixpoint clean (v : value) : bool :=
  match v with
  | VNone => false
  | VStr s => negb (String.eqb s "")
  | VList l => match l with [] => false | _ => true end && forallb clean l
  | VDict d => nonempty d && forallb (fun kv => clean kv.2) d
  | _ => true
  end.

Definition scalar (v : value) : bool :=
  match v with
  | VList _ | VDict _ => false
  | _ => true
  end.

(** The vocabularies of a schema are flat: every controlled-vocabulary
    spec in it, at any depth, resolves to options that are scalars. *)
Unset Elimination Schemes.
Inductive flat_vocabularies (fs : tree) : value -> Prop :=
| flat_shorthand (s : string) : flat_vocabularies fs (VStr s)
| flat_mapping (d : dict) :
    (get_default d "value_type" (VStr "string") = VStr "controlled_vocab" ->
     forall vocab, load_vocab fs (vocabulary_source d) = Ok vocab ->
                   Forall (fun o => scalar o = true) (options_of vocab)) ->
    (forall items, dict_get d "fields" = Some (VDict items) ->
                   Forall (fun kv => flat_vocabularies fs kv.2) items) ->
    flat_vocabularies fs (VDict d).
Set Elimination Schemes.

(** ** Records that fit their schema *)

Definition value_type_of (spec : dict) : value :=
  get_default spec "value_type" (VStr "string").

Definition fields_of (spec : dict) : dict :=
  match dict_get spec "fields" with
  | Some (VDict items) => items
  | _ => []
  end.

(** Every entry of [obj] is a field of [items], holding a value that is
    related to the spec of that field. *)
Definition fields_stored (stored_as : value -> value -> Prop) (items obj : dict) : Prop :=
  Forall (fun kv => exists fspec, (kv.1, fspec) ∈ items /\ stored_as fspec kv.2) obj.

(** [well_stored spec v]: [v] is a value a record may hold for a field of
    spec [spec]. It is never [None] nor the empty string; for an object
    field it is a non-empty mapping of well-stored fields, and for a
    list-of-objects field a non-empty sequence of such mappings. *)
Unset Elimination Schemes.
Inductive well_stored : value -> value -> Prop :=
| stored_plain spec (d : dict) v :
    normalize_spec spec = VDict d ->
    is_str (value_type_of d) "object" = false ->
    is_str (value_type_of d) "list_of_objects" = false ->
    omitted v = false ->
    well_stored spec v
| stored_object spec (d obj : dict) :
    normalize_spec spec = VDict d ->
    value_type_of d = VStr "object" ->
    obj <> [] ->
    fields_stored well_stored (fields_of d) obj ->
    well_stored spec (VDict obj)
| stored_list spec (d : dict) (entries : list value) :
    normalize_spec spec = VDict d ->
    value_type_of d = VStr "list_of_objects" ->
    entries <> [] ->
    Forall (fun e => exists obj : dict,
                e = VDict obj /\ obj <> [] /\
                fields_stored well_stored (fields_of d) obj) entries ->
    well_stored spec (VList entries).
Set Elimination Schemes.

(** The top-level fields of an entity, as [entity_tab] reads them. *)
Definition entity_fields (fs : tree) (schema_path : path) (entity_name : string)
    : result dict :=
  loaded ← load_schema fs schema_path;
  schema ← py_getitem loaded entity_name;
  fields ← py_getitem schema "fields";
  py_items fields.

(** What a field may yield: nothing, or a clean value. *)
Definition storable (v : value) : Prop := omitted v = true \/ clean v = true.

Definition clean_values (d : dict) : Prop := Forall (fun kv => clean kv.2 = true) d.

(** The fields marked required that [payload] lacks. *)
Definition marked_required (spec : value) : bool :=
  match spec with
  | VDict d => truthy (get_default d "required" VNone)
  | _ => false
  end.

Definition missing_required (items payload : dict) : list string :=
  map fst (List.filter (fun kv => marked_required kv.2 && negb (dict_has payload kv.1)) items).

(** The file at [p] holds [doc]. *)
Definition file_at (fs : tree) (p : path) (doc : option value) : Prop :=
  lookup_path fs p = Some (File doc).

(** The trait of the scenarios, and the same followed by a trait whose
    identifier is a number. *)
Definition demo_traits : list value :=
  [VDict [("trait_id", VStr "cell_length"); ("value_type", VStr "integer")]].

Definition numbered_traits : list value :=
  demo_traits ++ [VDict [("trait_id", VInt 2024); ("value_type", VStr "string")]].

(** A small installation: one taxon, one source, the domain [morphology]
    with its traits and one feature, and one qualifier vocabulary;
    [records] is what the directory of the domain's assertions holds. *)
Definition installation (traits : list value) (records : tree) : tree :=
  [ ("data",
     Dir [ ("taxa", Dir [("T1.yaml", File (Some (VDict [("taxon_id", VStr "T1")])))]);
           ("sources", Dir [("S1.yaml", File (Some (VDict [("source_id", VStr "S1")])))]);
           ("assertions", Dir [("morphology", Dir records)]) ]);
    ("ontology",
     Dir [ ("morphology",
            Dir [ ("traits.yaml", File (Some (VList traits)));
                  ("features.yaml",
                   File (Some (VList [VDict [("feature_id", VStr "cell")]]))) ]);
           ("qualifiers",
            Dir [("life_stage.yaml", File (Some (VList [VStr "adult"; VStr "cyst"])))]) ]) ].

Definition demo_files : tree := installation demo_traits [].

(** The same installation, with a directory where the record of [T1]
    would go. *)
Definition demo_files_blocked : tree := installation demo_traits [("T1.yaml", Dir [])].

(** The same installation with the numbered trait, which the user has
    chosen. *)
Definition demo_files_numbered : tree := installation numbered_traits [].

Definition demo_host_numbered : host :=
  Host {[ "taxon_id *" := WChoice 1; "source_id *" := WChoice 1; "trait *" := WChoice 1 ]}
       {[ "Save assertion file" ]} (fun _ => "") plain_yaml.

Definition demo_qualifiers : dict := [("life_stage", VList [VStr "adult"; VStr "cyst"])].

(** The user has chosen taxon [T1] and source [S1] and presses save. *)
Definition demo_host : host :=
  Host {[ "taxon_id *" := WChoice 1; "source_id *" := WChoice 1 ]}
       {[ "Save assertion file" ]} (fun _ => "") plain_yaml.

(** The same, with the first life stage selected as a qualifier. *)
Definition demo_host_staged : host :=
  Host {[ "taxon_id *" := WChoice 1; "source_id *" := WChoice 1;
          "life_stage" := WMulti [0] ]}
       {[ "Save assertion file" ]} (fun _ => "") plain_yaml.

(** The same, with the taxon left at the sentinel. *)
Definition demo_host_no_taxon : host :=
  Host {[ "source_id *" := WChoice 1 ]} {[ "Save assertion file" ]} (fun _ => "") plain_yaml.

(** What the tab collects from [demo_host] on [demo_files]. *)
Definition demo_selection : selection :=
  Selection (VStr "morphology") (VStr "T1") (VStr "S1") (VStr none_choice)
            (VStr "cell") (VStr "cell_length") (VInt 0) [].

(** The Taxon form of the scenario: an identifier and a note. *)
Definition taxon_fields : dict :=
  [ ("taxon_id", VDict [("value_type", VStr "string"); ("required", VBool true)]);
    ("notes", VDict [("value_type", VStr "string"); ("required", VBool false)]) ].

(** The user has typed the identifier, left the note empty, and saves. *)
Definition taxon_host : host :=
  Host {[ "Taxon_taxon_id" := WText "Taxon_001" ]} {[ "Save Taxon" ]} (fun _ => "") plain_yaml.

(** A host where nothing is entered and nothing is pressed. *)
Definition idle_host : host := Host ∅ ∅ (fun _ => "") plain_yaml.

(** A collection with one taxon, for a reference field. *)
Definition one_taxon : tree := [("data", Dir [("taxa", Dir [("T1.yaml", File None)])])].

(** The user has chosen the first identifier offered for the parent. *)
Definition parent_host : host :=
  Host {[ "Taxon_parent" := WChoice 1 ]} ∅ (fun _ => "") plain_yaml.

Definition parent_spec : dict :=
  [("value_type", VStr "reference"); ("target", VStr "Taxon")].

(** An object field with two text fields, one of them filled in. *)
Definition location_fields : dict := [("lat", VStr "string"); ("lon", VStr "string")].

Definition location_spec : dict :=
  [("value_type", VStr "object"); ("fields", VDict location_fields)].

Definition location_host : host :=
  Host {[ "Taxon_location_lat" := WText "12" ]} ∅ (fun _ => "") plain_yaml.

(** The scenario of the synonyms list: two entries tracked, the first one
    named, the second one left empty. *)
Definition synonym_fields : dict := [("name", VStr "string")].

Definition synonyms_spec : dict :=
  [("value_type", VStr "list_of_objects"); ("fields", VDict synonym_fields)].

Definition synonyms_host : host :=
  Host {[ "Taxon_synonyms_0_name" := WText "A" ]} ∅ (fun _ => "") plain_yaml.

Definition synonyms_session : session := {[ "Taxon_synonyms" := [VDict []; VDict []] ]}.

(** The Taxon schema with its required identifier, and a note given in the
    shorthand form or as a mapping. *)
Definition required_id : value :=
  VDict [("value_type", VStr "string"); ("required", VBool true)].

Definition fields_with_shorthand : dict :=
  [("taxon_id", required_id); ("notes", VStr "string")].

Definition fields_with_mappings : dict :=
  [("taxon_id", required_id); ("notes", VDict [("value_type", VStr "string")])].

(** Nothing is entered and the save button of the Taxon tab is pressed. *)
Definition save_host : host := Host ∅ {[ "Save Taxon" ]} (fun _ => "") plain_yaml.

(** The files after the Taxon form of the scenario has been saved. *)
Definition taxon_saved : tree :=
  taxon_schema_file taxon_fields ++
  [("data", Dir [("taxa", Dir [("Taxon_001.yaml",
                                File (Some (VDict [("taxon_id", VStr "Taxon_001")])))])])].

(** A Taxon schema with two controlled vocabularies whose options are
    mappings. *)
Definition fields_with_mapping_options : dict :=
  [ ("taxon_id", required_id);
    ("stage", VDict [ ("value_type", VStr "controlled_vocab");
                      ("vocabulary", VList [VDict []]) ]);
    ("habitat", VDict [ ("value_type", VStr "controlled_vocab");
                        ("vocabulary",
                         VList [VDict [("label", VStr ""); ("parent", VNone)]]) ]) ].

(** A Taxon schema whose identifier is an integer field. *)
Definition fields_with_integer_id : dict :=
  [("taxon_id", VDict [("value_type", VStr "integer"); ("required", VBool true)])].

(** A Taxon schema with an identifier and the synonyms list. *)
Definition fields_with_synonyms : dict :=
  [("taxon_id", required_id); ("synonyms", VDict synonyms_spec)].

(** The trait [t] is declared under an identifier that is the key [k]. *)
Definition has_trait_id (k : value) (t : value) : Prop :=
  exists id, py_getitem t "trait_id" = Ok id /\ same_key id k = true.

(** The choice [id] of a cross-reference: the sentinel, or an identifier of
    the collection kept in [directory]. *)
Definition chosen_from (fs : tree) (directory : path) (id : value) : Prop :=
  id = VStr none_choice \/
  exists ids x, list_yaml_ids fs directory = Ok ids /\ id = VStr x /\ x ∈ ids.

(** The identifiers [list_yaml_ids] returns for a directory, none where it
    raises. *)
Definition ids_of (fs : tree) (directory : path) : list string :=
  match list_yaml_ids fs directory with
  | Ok ids => ids
  | Raise _ => []
  end.

(** What [save_yaml] does along a path, the limit on the path as a whole
    set aside: the directories made, then the file written. *)
Definition save_along (reads : value -> option value) (fs : tree) (p : path) (data : value)
    : result tree :=
  fs1 ← mkdir_p fs (removelast p);
  write_file reads fs1 p data.

(** The system refuses nothing along [p]: the path is shorter than
    [PATH_MAX] and none of its names is longer than [NAME_MAX]. *)
Definition accepted (p : path) : bool :=
  negb (long_path p) && forallb (fun c => negb (long_name c)) p.

(** A name as a directory entry can have it: not empty, not [.] or [..],
    without a slash and without a NUL byte. *)
Fixpoint marks_no_path (c : string) : bool :=
  match c with
  | EmptyString => true
  | String a rest => negb (String.eqb (String a EmptyString) "/" || Ascii.eqb a Ascii.zero) &&
      marks_no_path rest
  end.

Definition ordinary_name (c : string) : bool :=
  negb (String.eqb c "" || String.eqb c "." || String.eqb c "..") && marks_no_path c.

Definition ordinary (p : path) : bool := forallb ordinary_name p.

(** The value types [render_field] knows. *)
Definition value_types : list string :=
  ["string"; "integer"; "float"; "controlled_vocab"; "reference"; "object"; "list_of_objects"].

Definition unknown_type (d : dict) : Prop :=
  forall t, t ∈ value_types -> value_type_of d <> VStr t.

(** A Taxon schema with a required field of a type the renderer does not
    know. *)
Definition fields_with_boolean : dict :=
  [("taxon_id", required_id);
   ("alive", VDict [("value_type", VStr "boolean"); ("required", VBool true)])].

(** The chooser of the Taxon tab is set to its second option. *)
Definition view_host : host := Host {[ "Taxon_select" := WChoice 1 ]} ∅ (fun _ => "") plain_yaml.

(** From [ss] to [ss'] every list of entries is still tracked, with the
    entries it had and possibly more after them. *)
Definition grows (ss ss' : session) : Prop :=
  forall k e, ss !! k = Some e -> exists more, ss' !! k = Some (e ++ more).

(** A step is settled when it only adds to the session, and gives the same
    result, changing nothing, on every session that holds what it left. *)
Definition settled {A} (run : session -> result (A * session)) : Prop :=
  forall ss a ss',
    run ss = Ok (a, ss') ->
    ss ⊆ ss' /\ forall t, ss' ⊆ t -> run t = Ok (a, t).

(** * Properties *)

(** ** Runs that return *)

(** A sequence that returns has returned from its first step. *)
Lemma bind_Ok {A B} (m : result A) (k : A -> result B) (b : B) :
  m ≫= k = Ok b -> exists a, m = Ok a /\ k a = Ok b.
Proof. destruct m as [a|e]; simpl; [eauto | discriminate]. Qed.

(** [step H as x Hx]: name the result [x] of the first step of the run [H],
    keep [Hx] for that step and leave the rest of the run in [H]. *)
Tactic Notation "step" hyp(H) "as" simple_intropattern(x) simple_intropattern(Hx) :=
  apply bind_Ok in H as (x & Hx & H); cbv zeta in H.

(** ** C7: normalisation *)

(** C7. [normalize_spec] is idempotent on every value a schema can hold,
    shorthand string or mapping, and a shorthand string [s] becomes the
    mapping [{value_type: s}]. *)
Theorem normalize_spec_idempotent :
  (forall spec, normalize_spec (normalize_spec spec) = normalize_spec spec) /\
  (forall s, normalize_spec (VStr s) = VDict [("value_type", VStr s)]).
Proof.
  split.
  - intros spec. destruct spec; reflexivity.
  - intros s. reflexivity.
Qed.

(** ** The renderer, unfolded *)

Lemma over_fields_eq {A} (absent : result A) (k : dict -> result A) (d : dict) :
  over_fields absent k d =
  match dict_get d "fields" with
  | None => absent
  | Some (VDict items) => k items
  | Some _ => Raise AttributeError
  end.
Proof.
  induction d as [|[attr v] rest IH]; simpl; [reflexivity|].
  destruct (String.eqb attr "fields"); [reflexivity | exact IH].
Qed.

Lemma children_of_eq H fs (d : dict) prefix ss :
  over_fields (Ok ([], ss))
    (fun items => render_items (render_field H fs) prefix items [] ss) d
  = children_of H fs d prefix ss.
Proof.
  rewrite over_fields_eq. unfold children_of, get_default.
  destruct (dict_get d "fields") as [v|]; [|reflexivity].
  destruct v; reflexivity.
Qed.

Lemma render_entries_ext c1 c2 key idxs results ss :
  (forall p s, c1 p s = c2 p s) ->
  render_entries c1 key idxs results ss = render_entries c2 key idxs results ss.
Proof.
  intros Hc. revert results ss.
  induction idxs as [|i rest IH]; intros results ss; simpl; [reflexivity|].
  rewrite Hc. destruct (c2 _ ss) as [[entry ss1]|e]; simpl; [apply IH | reflexivity].
Qed.

Lemma render_node_ext H fs name d prefix ss c1 c2 :
  (forall p s, c1 p s = c2 p s) ->
  render_node H fs name d prefix ss c1 = render_node H fs name d prefix ss c2.
Proof.
  intros Hc. unfold render_node.
  rewrite Hc. rewrite (render_entries_ext c1 c2) by exact Hc. reflexivity.
Qed.

(** [render_field] as the source reads: normalise, then dispatch. *)
Lemma render_field_eq H fs name spec prefix ss :
  render_field H fs name spec prefix ss =
  match normalize_spec spec with
  | VDict d => render_node H fs name d prefix ss (children_of H fs d)
  | _ => Raise AttributeError
  end.
Proof.
  destruct spec; try reflexivity.
  simpl. apply render_node_ext. intros p s. apply children_of_eq.
Qed.

(** ** Widgets *)

Lemma selectbox_elem H (opts : list value) key :
  opts <> [] -> selectbox H (VList opts) key ∈ opts.
Proof.
  intros Hne. unfold selectbox. simpl.
  assert (Hfirst : match opts with [] => VNone | v :: _ => v end ∈ opts).
  { destruct opts as [|v rest]; [congruence | left]. }
  destruct (inputs H !! key) as [[]|]; try exact Hfirst.
  destruct (opts !! i) as [v|] eqn:Hi; [|exact Hfirst].
  eapply list_elem_of_lookup_2, Hi.
Qed.

Lemma selectbox_none_or_elem H options key :
  selectbox H options key = VNone \/ selectbox H options key ∈ options_of options.
Proof.
  unfold selectbox.
  assert (Hfirst : match options_of options with [] => VNone | v :: _ => v end = VNone \/
                   match options_of options with [] => VNone | v :: _ => v end
                     ∈ options_of options).
  { destruct (options_of options) as [|v rest]; [left; reflexivity | right; left]. }
  destruct (inputs H !! key) as [[]|]; try exact Hfirst.
  destruct (options_of options !! i) as [v|] eqn:Hi; [|exact Hfirst].
  right. eapply list_elem_of_lookup_2, Hi.
Qed.

Lemma selectbox_empty H key : selectbox H (VList []) key = VNone.
Proof.
  unfold selectbox. simpl. destruct (inputs H !! key) as [[]|]; reflexivity.
Qed.

(** What the reference branch of the renderer yields when it returns. *)
Lemma reference_branch H fs (known : option path) key (ss ss' : session) v :
  match known with
  | Some directory =>
      ids ← list_yaml_ids fs directory;
      Ok (selectbox H (VList (VStr none_choice :: map VStr ids)) key, ss)
  | None => Ok (text_input H key, ss)
  end = Ok (v, ss') ->
  ss' = ss /\
  ((exists ids, v = selectbox H (VList (VStr none_choice :: map VStr ids)) key) \/
   v = text_input H key).
Proof.
  destruct known as [directory|].
  - intros Hrun. apply bind_Ok in Hrun as (ids & _ & Hok). injection Hok as <- <-. eauto.
  - intros [= <- <-]. auto.
Qed.

(** ** C1: numeric fields *)




(** ** Files: the walk of the system *)

Lemma walk_lookup (fs : tree) p n : walk fs p = Ok n -> lookup_path fs p = Some n.
Proof.
  revert fs. induction p as [|c p IH]; intros fs; simpl.
  - intros [= <-]. reflexivity.
  - destruct (long_name c); [discriminate|].
    destruct (kid c fs) as [[doc|kids]|]; [|apply IH|discriminate].
    destruct p; [intros [= <-]; reflexivity | discriminate].
Qed.

Lemma walk_short (fs : tree) p n :
  walk fs p = Ok n -> forallb (fun c => negb (long_name c)) p = true.
Proof.
  revert fs. induction p as [|c p IH]; intros fs; simpl; [reflexivity|].
  destruct (long_name c); [discriminate|]. simpl.
  destruct (kid c fs) as [[doc|kids]|]; [|apply IH|discriminate].
  destruct p; [reflexivity | discriminate].
Qed.

Lemma lookup_walk (fs : tree) p n :
  forallb (fun c => negb (long_name c)) p = true ->
  lookup_path fs p = Some n -> walk fs p = Ok n.
Proof.
  revert fs. induction p as [|c p IH]; intros fs; simpl.
  - intros _ [= <-]. reflexivity.
  - destruct (long_name c); [discriminate|]. simpl. intros Hshort.
    destruct (kid c fs) as [[doc|kids]|]; [|apply IH, Hshort|discriminate].
    destruct p; [intros [= <-]; reflexivity | discriminate].
Qed.

(** On names the system accepts, a walk that finds nothing ends at a
    missing component or at a file on the way. *)
Lemma walk_nothing (fs : tree) p :
  forallb (fun c => negb (long_name c)) p = true ->
  lookup_path fs p = None ->
  walk fs p = Raise FileNotFoundError \/ walk fs p = Raise NotADirectoryError.
Proof.
  revert fs. induction p as [|c p IH]; intros fs; simpl; [discriminate|].
  destruct (long_name c); [discriminate|]. simpl. intros Hshort.
  destruct (kid c fs) as [[doc|kids]|]; [|apply IH, Hshort|auto].
  destruct p; [discriminate | auto].
Qed.

(** A walk ends in one of three errors, and finds nothing when it does. *)
Lemma walk_raises (fs : tree) p e :
  walk fs p = Raise e ->
  e = OSError /\ forallb (fun c => negb (long_name c)) p = false \/
  (e = FileNotFoundError \/ e = NotADirectoryError) /\ lookup_path fs p = None.
Proof.
  revert fs. induction p as [|c p IH]; intros fs; simpl; [discriminate|].
  destruct (long_name c); simpl; [intros [= <-]; auto|].
  destruct (kid c fs) as [[doc|kids]|]; [|apply IH|intros [= <-]; auto].
  destruct p; [discriminate | intros [= <-]; auto].
Qed.

Lemma stat_Ok (fs : tree) p n :
  stat fs p = Ok n <-> lookup_path fs p = Some n /\ accepted p = true.
Proof.
  unfold stat, accepted. destruct (long_path p); simpl.
  - split; [discriminate | intros [_ [=]]].
  - split.
    + intros Hwalk. split; [eapply walk_lookup, Hwalk | eapply walk_short, Hwalk].
    + intros [Hlook Hshort]. apply lookup_walk; assumption.
Qed.

Lemma stat_raises (fs : tree) p e :
  stat fs p = Raise e ->
  e = OSError /\ accepted p = false \/
  (e = FileNotFoundError \/ e = NotADirectoryError) /\ lookup_path fs p = None.
Proof.
  unfold stat, accepted. destruct (long_path p); simpl.
  - intros [= <-]. auto.
  - intros Hwalk. apply walk_raises in Hwalk as [[-> Hlong]|Hnothing]; auto.
Qed.

(** What [exists] answers is whether the tree holds the path; it raises
    only where the system refuses the path. *)
Lemma path_exists_Ok (fs : tree) p b :
  path_exists fs p = Ok b -> b = bool_decide (is_Some (lookup_path fs p)).
Proof.
  unfold path_exists. destruct (stat fs p) as [n|e] eqn:Hstat.
  - intros [= <-]. apply stat_Ok in Hstat as [-> _]. reflexivity.
  - apply stat_raises in Hstat as [[-> _]|[[->| ->] ->]]; try discriminate;
      intros [= <-]; reflexivity.
Qed.

Lemma path_exists_true (fs : tree) p :
  path_exists fs p = Ok true <-> (exists n, stat fs p = Ok n).
Proof.
  unfold path_exists. destruct (stat fs p) as [n|e]; [split; eauto|].
  split; [|intros [n [=]]]. destruct e; discriminate.
Qed.

Lemma path_exists_accepted (fs : tree) p :
  accepted p = true -> path_exists fs p = Ok (bool_decide (is_Some (lookup_path fs p))).
Proof.
  intros Hacc. unfold path_exists. destruct (stat fs p) as [n|e] eqn:Hstat.
  - apply stat_Ok in Hstat as [-> _]. reflexivity.
  - apply stat_raises in Hstat as [[_ Hno]|[[->| ->] ->]]; [congruence | reflexivity..].
Qed.

Lemma path_exists_raises (fs : tree) p e :
  path_exists fs p = Raise e -> e = OSError /\ stat fs p = Raise OSError.
Proof.
  unfold path_exists. destruct (stat fs p) as [n|e'] eqn:Hstat; [discriminate|].
  apply stat_raises in Hstat as [[-> _]|[[->| ->] _]]; try discriminate.
  intros [= <-]. auto.
Qed.

Lemma load_yaml_Ok fs p v :
  load_yaml fs p = Ok v <-> file_at fs p (Some v) /\ accepted p = true.
Proof.
  unfold load_yaml, file_at. split.
  - intros Hload. apply bind_Ok in Hload as (n & Hstat & Hdoc).
    apply stat_Ok in Hstat as [Hlook Hacc].
    destruct n as [[doc|]|kids]; try discriminate. injection Hdoc as <-. auto.
  - intros [Hlook Hacc]. rewrite (proj2 (stat_Ok fs p _) (conj Hlook Hacc)). reflexivity.
Qed.

(** ** Identifiers of a collection *)

Lemma append_cons a (x s : string) : String a x +:+ s = String a (x +:+ s).
Proof. reflexivity. Qed.

Lemma append_empty (s : string) : "" +:+ s = s.
Proof. reflexivity. Qed.

Lemma length_append (x s : string) :
  String.length (x +:+ s) = String.length x + String.length s.
Proof. induction x as [|a x IH]; [reflexivity|]. rewrite append_cons. simpl. rewrite IH. reflexivity. Qed.

Lemma ends_with_spec (suffix s : string) :
  ends_with suffix s = true <-> exists x, s = x +:+ suffix.
Proof.
  induction s as [|a s IH]; cbn [ends_with].
  - rewrite orb_false_r, String.eqb_eq. split.
    + intros <-. exists "". reflexivity.
    + intros [[|b x] Hx]; [exact Hx | discriminate].
  - rewrite orb_true_iff, String.eqb_eq, IH. split.
    + intros [<-|[x ->]]; [exists ""; reflexivity | exists (String a x); reflexivity].
    + intros [[|b x] Hx]; [left; exact Hx|].
      rewrite append_cons in Hx. injection Hx as <- ->. right. eauto.
Qed.

Lemma last_dot_yaml (x : string) i found :
  last_dot (x +:+ ".yaml") i found = Some (i + String.length x).
Proof.
  revert i found. induction x as [|a x IH]; intros i found.
  - simpl. rewrite Nat.add_0_r. reflexivity.
  - rewrite append_cons. cbn [last_dot]. rewrite IH. simpl. f_equal. lia.
Qed.

Lemma substring_append (x s : string) : String.substring 0 (String.length x) (x +:+ s) = x.
Proof.
  induction x as [|a x IH].
  - destruct s; reflexivity.
  - rewrite append_cons. cbn [String.length String.substring]. rewrite IH. reflexivity.
Qed.

(** The stem of [x.yaml] is [x]; the name [.yaml] alone has no suffix. *)
Lemma stem_yaml (x : string) :
  stem (x +:+ ".yaml") = if String.eqb x "" then ".yaml" else x.
Proof.
  unfold stem. rewrite last_dot_yaml, length_append. simpl.
  destruct x as [|a x]; [reflexivity|].
  cbn [String.length String.eqb]. 
  replace (0 <? S (String.length x))%nat with true by (symmetry; apply Nat.ltb_lt; lia).
  replace (S (String.length x) <? S (String.length x) + 5 - 1)%nat with true
    by (symmetry; apply Nat.ltb_lt; lia).
  simpl. exact (substring_append (String a x) ".yaml").
Qed.

(** The identifiers are the sorted stems of the entries [x.yaml]. *)
Lemma list_yaml_ids_Ok (fs : tree) directory ids :
  list_yaml_ids fs directory = Ok ids ->
  ids = sorted (map stem (glob_yaml fs directory)) /\
  Sorted String.le ids /\
  forall id,
    id ∈ ids <->
    exists kids x,
      lookup_path fs directory = Some (Dir kids) /\
      (x +:+ ".yaml") ∈ map fst kids /\
      id = if String.eqb x "" then ".yaml" else x.
Proof.
  unfold list_yaml_ids. intros Hids.
  apply bind_Ok in Hids as (found & Hfound & Hids).
  apply path_exists_Ok in Hfound.
  assert (Heq : ids = sorted (map stem (glob_yaml fs directory))).
  { destruct found; simpl in Hids; injection Hids as <-; [reflexivity|].
    unfold glob_yaml. destruct (lookup_path fs directory) as [[doc|kids]|]; try reflexivity.
    discriminate Hfound. }
  split; [exact Heq|]. subst ids. split; [apply Sorted_merge_sort, _|].
  intros id. unfold sorted, glob_yaml.
  destruct (lookup_path fs directory) as [[doc|kids]|]; simpl.
  - split; [intros Hin; inversion Hin | intros (kids & x & [=] & _)].
  - rewrite merge_sort_Permutation, list_elem_of_fmap. split.
    + intros (name & -> & Hin). apply list_elem_of_In, filter_In in Hin as [Hin Hyaml].
      apply ends_with_spec in Hyaml as [x ->].
      exists kids, x. split; [reflexivity|]. split; [apply list_elem_of_In, Hin|].
      apply stem_yaml.
    + intros (kids' & x & [= <-] & Hin & ->). exists (x +:+ ".yaml").
      split; [symmetry; apply stem_yaml|].
      apply list_elem_of_In, filter_In. split; [apply list_elem_of_In, Hin|].
      apply ends_with_spec. eauto.
  - split; [intros Hin; inversion Hin | intros (kids & x & [=] & _)].
Qed.

Lemma list_yaml_ids_accepted (fs : tree) directory :
  accepted directory = true ->
  list_yaml_ids fs directory = Ok (sorted (map stem (glob_yaml fs directory))).
Proof.
  intros Hacc. unfold list_yaml_ids. rewrite (path_exists_accepted _ _ Hacc). simpl.
  unfold glob_yaml. destruct (lookup_path fs directory) as [[doc|kids]|]; reflexivity.
Qed.

Lemma list_yaml_ids_raises (fs : tree) directory e :
  list_yaml_ids fs directory = Raise e -> e = OSError /\ accepted directory = false.
Proof.
  unfold list_yaml_ids. destruct (path_exists fs directory) as [found|e'] eqn:Hfound; simpl.
  - destruct found; discriminate.
  - intros [= <-]. apply path_exists_raises in Hfound as [-> Hstat].
    apply stat_raises in Hstat as [[_ Hno]|[[[=]|[=]] _]]. auto.
Qed.

(** The directories of the collections are paths the system accepts. *)
Lemma DIRS_accepted n directory : DIRS !! n = Some directory -> accepted directory = true.
Proof.
  unfold DIRS. intros Hdir. apply elem_of_list_to_map_2 in Hdir.
  repeat (apply elem_of_cons in Hdir as [[= _ ->]|Hdir]; [vm_compute; reflexivity|]).
  inversion Hdir.
Qed.

Lemma list_yaml_ids_DIRS (fs : tree) n directory :
  DIRS !! n = Some directory ->
  list_yaml_ids fs directory = Ok (ids_of fs directory).
Proof.
  intros Hdir. unfold ids_of.
  rewrite (list_yaml_ids_accepted fs directory (DIRS_accepted _ _ Hdir)). reflexivity.
Qed.

(** ** C9: reference fields *)



(** ** C8: vocabulary resolution *)




(** ** C4: the required-field check *)

(** What the check computes when every field spec is a mapping. *)
Lemma required_missing_mappings (items payload : dict) :
  Forall (fun kv => exists d, kv.2 = VDict d) items ->
  required_missing items payload = Ok (missing_required items payload).
Proof.
  induction 1 as [|[f s] rest [d Hd] _ IH]; simpl; [reflexivity|].
  simpl in Hd. subst s. simpl. rewrite IH. simpl.
  unfold missing_required. simpl.
  destruct (truthy (get_default d "required" VNone) && negb (dict_has payload f));
    reflexivity.
Qed.

(** On a schema whose top-level specs are all mappings, saving a new record
    with a required field absent reports every such field and writes
    nothing. *)
Lemma missing_required_fields_reported
    H entity_name schema_path fs ss directory (items payload : dict) ss1 :
  DIRS !! entity_name = Some directory ->
  entity_fields fs schema_path entity_name = Ok items ->
  selectbox H (VList (VStr new_choice :: map VStr (ids_of fs directory)))
            (entity_name +:+ "_select") = VStr new_choice ->
  render_items (render_field H fs) entity_name items [] ss = Ok (payload, ss1) ->
  button H ("Save " +:+ entity_name) = true ->
  Forall (fun kv => exists d, kv.2 = VDict d) items ->
  missing_required items payload <> [] ->
  entity_tab H entity_name schema_path fs ss
  = Ok (Error ("Missing required fields: " +:+ join ", " (missing_required items payload)),
        fs, ss1).
Proof.
  unfold entity_fields, entity_tab, dirs_at.
  intros Hdir Hfields Hnew Hpayload Hclick Hmappings Hmissing.
  rewrite Hdir. simpl.
  destruct (load_schema fs schema_path) as [loaded|e]; [simpl in *|discriminate].
  destruct (py_getitem loaded entity_name) as [schema|e]; [simpl in *|discriminate].
  rewrite (list_yaml_ids_DIRS fs _ _ Hdir). simpl.
  rewrite Hnew. cbn [is_str]. unfold new_choice at 1. rewrite String.eqb_refl.
  cbn [negb].
  destruct (py_getitem schema "fields") as [fields|e]; [simpl in *|discriminate].
  rewrite Hfields. simpl. rewrite Hpayload. simpl. rewrite Hclick.
  rewrite (required_missing_mappings _ _ Hmappings). simpl.
  destruct (missing_required items payload); [congruence | reflexivity].
Qed.

(** A shorthand spec stops the check: a string has no [get]. *)
Lemma required_missing_shorthand (items payload : dict) f s :
  (f, VStr s) ∈ items -> required_missing items payload = Raise AttributeError.
Proof.
  induction items as [|[f' s'] rest IH]; intros Hin; [inversion Hin|].
  apply elem_of_cons in Hin as [Heq|Hin].
  - inversion Heq; subst. reflexivity.
  - simpl. destruct (py_get s' "required" VNone) as [req|e] eqn:Hg; simpl.
    + rewrite (IH Hin). reflexivity.
    + destruct s'; simpl in Hg; congruence.
Qed.

(** Saving a new record raises as soon as the schema has a shorthand field
    at its top level, whatever has been entered. *)
Lemma save_raises_on_shorthand
    H entity_name schema_path fs ss directory (items payload : dict) ss1 f s :
  DIRS !! entity_name = Some directory ->
  entity_fields fs schema_path entity_name = Ok items ->
  selectbox H (VList (VStr new_choice :: map VStr (ids_of fs directory)))
            (entity_name +:+ "_select") = VStr new_choice ->
  render_items (render_field H fs) entity_name items [] ss = Ok (payload, ss1) ->
  button H ("Save " +:+ entity_name) = true ->
  (f, VStr s) ∈ items ->
  entity_tab H entity_name schema_path fs ss = Raise AttributeError.
Proof.
  unfold entity_fields, entity_tab, dirs_at.
  intros Hdir Hfields Hnew Hpayload Hclick Hshort.
  rewrite Hdir. simpl.
  destruct (load_schema fs schema_path) as [loaded|e]; [simpl in *|discriminate].
  destruct (py_getitem loaded entity_name) as [schema|e]; [simpl in *|discriminate].
  rewrite (list_yaml_ids_DIRS fs _ _ Hdir). simpl.
  rewrite Hnew. cbn [is_str]. unfold new_choice at 1. rewrite String.eqb_refl.
  cbn [negb].
  destruct (py_getitem schema "fields") as [fields|e]; [simpl in *|discriminate].
  rewrite Hfields. simpl. rewrite Hpayload. simpl. rewrite Hclick.
  rewrite (required_missing_shorthand _ _ _ _ Hshort). reflexivity.
Qed.

(** C4: the save action on a schema that has a shorthand field. With the
    required field [taxon_id] left empty, saving raises [AttributeError]
    where the claim has the error naming [taxon_id]; the same schema with
    [notes] written as a mapping gives that error, with the files as they
    were. With [taxon_id] entered, saving on the shorthand schema raises
    just the same. *)
Theorem save_with_shorthand_field_raises :
  entity_tab save_host "Taxon" taxon_schema_path (taxon_schema_file fields_with_shorthand) ∅
  = Raise AttributeError /\
  entity_tab save_host "Taxon" taxon_schema_path (taxon_schema_file fields_with_mappings) ∅
  = Ok (Error "Missing required fields: taxon_id",
        taxon_schema_file fields_with_mappings, ∅) /\
  entity_tab taxon_host "Taxon" taxon_schema_path (taxon_schema_file fields_with_shorthand) ∅
  = Raise AttributeError.
Proof.
  split; [|split].
  - eapply (save_raises_on_shorthand save_host "Taxon" _ _ _ (DATA // "taxa")
              fields_with_shorthand [] ∅ "notes" "string");
      try reflexivity.
    right. left.
  - vm_compute. reflexivity.
  - eapply (save_raises_on_shorthand taxon_host "Taxon" _ _ _ (DATA // "taxa")
              fields_with_shorthand [("taxon_id", VStr "Taxon_001")] ∅ "notes" "string");
      try reflexivity.
    right. left.
Qed.

(** ** Mappings built by the field loops *)

Lemma dict_set_nonempty (e : dict) k v : dict_set e k v <> [].
Proof. destruct e as [|[k' v'] rest]; simpl; [|destruct (String.eqb k' k)]; discriminate. Qed.

Lemma dict_set_fresh (e : dict) k v :
  k ∉ map fst e -> dict_set e k v = e ++ [(k, v)].
Proof.
  induction e as [|[k' v'] rest IH]; simpl; intros Hk; [reflexivity|].
  apply not_elem_of_cons in Hk as [Hne Hk].
  destruct (String.eqb_spec k' k); [congruence|].
  rewrite IH by exact Hk. reflexivity.
Qed.

Lemma store_from_nonempty (entry vals : dict) : entry <> [] -> store entry vals <> [].
Proof.
  revert entry. induction vals as [|[k v] rest IH]; intros entry Hne; simpl; [exact Hne|].
  apply IH. destruct (omitted v); [exact Hne | apply dict_set_nonempty].
Qed.

Lemma store_empty_iff (vals : dict) : store [] vals = [] <-> all_omitted vals = true.
Proof.
  induction vals as [|[k v] rest IH]; simpl; [tauto|].
  unfold store in *. simpl. destruct (omitted v) eqn:Hv; simpl.
  - exact IH.
  - split; [|discriminate]. intros Hs. exfalso.
    eapply (store_from_nonempty [(k, v)] rest); [discriminate | exact Hs].
Qed.

Lemma store_kept (entry vals : dict) :
  NoDup (map fst vals) ->
  (forall k, k ∈ map fst vals -> k ∉ map fst entry) ->
  store entry vals = entry ++ kept vals.
Proof.
  revert entry. induction vals as [|[k v] rest IH]; intros entry Hnd Hfresh; simpl.
  - rewrite app_nil_r. reflexivity.
  - apply NoDup_cons in Hnd as [Hk Hnd]. unfold store, kept in *. simpl.
    destruct (omitted v); simpl.
    + apply IH; [exact Hnd|]. intros k' Hk'. apply Hfresh. right. exact Hk'.
    + rewrite dict_set_fresh by (apply Hfresh; left).
      rewrite IH; [rewrite <- app_assoc; reflexivity | exact Hnd |].
      intros k' Hk'. rewrite map_app. simpl. intros Hin.
      apply elem_of_app in Hin as [Hin|Hin].
      * exact (Hfresh k' (list_elem_of_further _ _ _ Hk') Hin).
      * apply list_elem_of_singleton in Hin. subst k'. exact (Hk Hk').
Qed.

Lemma kept_empty_iff (vals : dict) : kept vals = [] <-> all_omitted vals = true.
Proof.
  induction vals as [|[k v] rest IH]; simpl; [tauto|].
  unfold kept in *. simpl. destruct (omitted v); simpl; [exact IH|].
  split; discriminate.
Qed.

Lemma child_values_names render prefix (items vals : dict) ss ss' :
  child_values render prefix items ss = Ok (vals, ss') -> map fst vals = map fst items.
Proof.
  revert vals ss ss'. induction items as [|[fname fspec] rest IH]; intros vals ss ss'; simpl.
  - intros [= <- _]. reflexivity.
  - destruct (render fname fspec prefix ss) as [[val ss1]|e]; simpl; [|discriminate].
    destruct (child_values render prefix rest ss1) as [[vs ss2]|e] eqn:Hrest; simpl;
      [|discriminate].
    intros [= <- _]. simpl. f_equal. eapply IH, Hrest.
Qed.

(** The field loop stores exactly what the fields yield. *)
Lemma render_items_values render prefix (items entry : dict) ss :
  render_items render prefix items entry ss =
  '(vals, ss') ← child_values render prefix items ss; Ok (store entry vals, ss').
Proof.
  revert entry ss. induction items as [|[fname fspec] rest IH]; intros entry ss; simpl.
  - reflexivity.
  - destruct (render fname fspec prefix ss) as [[val ss1]|e]; simpl; [|reflexivity].
    rewrite IH. destruct (child_values render prefix rest ss1) as [[vs ss2]|e]; reflexivity.
Qed.

(** ** C3: object fields *)

(** C3. An object field whose children all yield omitted is itself omitted,
    never an empty mapping; otherwise it is the mapping of exactly the
    children that are not omitted, in the declared order. *)
Theorem object_field H fs name spec (d items vals : dict) prefix ss ss' :
  normalize_spec spec = VDict d ->
  get_default d "value_type" (VStr "string") = VStr "object" ->
  py_items (get_default d "fields" (VDict [])) = Ok items ->
  NoDup (map fst items) ->
  child_values (render_field H fs) (prefix +:+ "_" +:+ name) items ss = Ok (vals, ss') ->
  (all_omitted vals = true ->
     render_field H fs name spec prefix ss = Ok (VNone, ss')) /\
  (all_omitted vals = false ->
     render_field H fs name spec prefix ss = Ok (VDict (kept vals), ss') /\
     kept vals <> []) /\
  render_field H fs name spec prefix ss <> Ok (VDict [], ss').
Proof.
  intros Hnorm Hvt Hitems Hnd Hvals.
  assert (Hrun : render_field H fs name spec prefix ss
                 = Ok (match kept vals with [] => VNone | _ => VDict (kept vals) end, ss')).
  { rewrite render_field_eq, Hnorm. unfold render_node. rewrite Hvt. simpl.
    unfold children_of. rewrite Hitems. simpl.
    rewrite render_items_values, Hvals. simpl.
    rewrite store_kept; [reflexivity| |intros k _ Hk; inversion Hk].
    rewrite (child_values_names _ _ _ _ _ _ Hvals). exact Hnd. }
  pose proof (kept_empty_iff vals) as Hk.
  split; [|split].
  - intros Hall. rewrite Hrun. apply Hk in Hall. rewrite Hall. reflexivity.
  - intros Hsome.
    assert (Hne : kept vals <> []).
    { intros Hempty. apply Hk in Hempty. congruence. }
    split; [|exact Hne].
    rewrite Hrun. destruct (kept vals); [congruence | reflexivity].
  - rewrite Hrun. destruct (kept vals); discriminate.
Qed.

Lemma object_field_witness :
  render_field location_host [] "location" (VDict location_spec) "Taxon" ∅
  = Ok (VDict [("lat", VStr "12")], ∅).
Proof.
  assert (Hnd : NoDup (map fst location_fields)).
  { simpl. repeat constructor.
    - intros Hin%list_elem_of_singleton. discriminate.
    - intros Hin. inversion Hin. }
  destruct (object_field location_host [] "location" (VDict location_spec) location_spec
              location_fields [("lat", VStr "12"); ("lon", VStr "")] "Taxon" ∅ ∅
              eq_refl eq_refl eq_refl Hnd eq_refl)
    as (_ & Hsome & _).
  exact (proj1 (Hsome eq_refl)).
Defined.

(** ** C2: list-of-objects fields *)

Lemma entry_values_length render key (items : dict) idxs ss traces ss' :
  entry_values render key items idxs ss = Ok (traces, ss') -> length traces = length idxs.
Proof.
  revert ss traces ss'. induction idxs as [|i rest IH]; intros ss traces ss'; simpl.
  - intros [= <- _]. reflexivity.
  - destruct (child_values render _ items ss) as [[vals ss1]|e]; simpl; [|discriminate].
    destruct (entry_values render key items rest ss1) as [[more ss2]|e] eqn:Hrest; simpl;
      [|discriminate].
    intros [= <- _]. simpl. f_equal. eapply IH, Hrest.
Qed.

Lemma nonempty_store (vals : dict) : nonempty (store [] vals) = negb (all_omitted vals).
Proof.
  pose proof (store_empty_iff vals) as Hs.
  destruct (store [] vals) eqn:He, (all_omitted vals) eqn:Ha; simpl; try reflexivity.
  - destruct Hs as [Hs _]. specialize (Hs eq_refl). discriminate.
  - destruct Hs as [_ Hs]. specialize (Hs eq_refl). discriminate.
Qed.

(** Every entry is either emitted or has all its fields omitted. *)
Lemma emitted_and_dropped (traces : list dict) :
  length (List.filter nonempty (map (store []) traces))
  + length (List.filter all_omitted traces) = length traces.
Proof.
  induction traces as [|vals rest IH]; simpl; [reflexivity|].
  rewrite nonempty_store. destruct (all_omitted vals); simpl; lia.
Qed.

Lemma children_of_values H fs (d items : dict) prefix ss :
  py_items (get_default d "fields" (VDict [])) = Ok items ->
  children_of H fs d prefix ss =
  '(vals, ss') ← child_values (render_field H fs) prefix items ss; Ok (store [] vals, ss').
Proof.
  intros Hi. unfold children_of. rewrite Hi.
  change (render_items (render_field H fs) prefix items [] ss = 
          '(vals, ss') ← child_values (render_field H fs) prefix items ss;
          Ok (store [] vals, ss')).
  apply render_items_values.
Qed.

(** The loop over the entries emits the stores that are not empty. *)
Lemma render_entries_values H fs (d items : dict) key idxs results ss :
  (idxs <> [] -> py_items (get_default d "fields" (VDict [])) = Ok items) ->
  render_entries (children_of H fs d) key idxs results ss =
  '(traces, ss') ← entry_values (render_field H fs) key items idxs ss;
  Ok (results ++ map VDict (List.filter nonempty (map (store []) traces)), ss').
Proof.
  revert results ss. induction idxs as [|i rest IH]; intros results ss Hitems; simpl.
  - rewrite app_nil_r. reflexivity.
  - assert (Hi : py_items (get_default d "fields" (VDict [])) = Ok items)
      by (apply Hitems; discriminate).
    rewrite (children_of_values H fs d items) by exact Hi.
    destruct (child_values (render_field H fs) _ items ss) as [[vals ss1]|e]; simpl;
      [|reflexivity].
    rewrite IH by (intros _; exact Hi).
    destruct (entry_values (render_field H fs) key items rest ss1) as [[more ss2]|e];
      simpl; [|reflexivity].
    destruct (store [] vals) as [|kv entry]; simpl; [reflexivity|].
    rewrite <- app_assoc. reflexivity.
Qed.

(** C2. A list-of-objects field emits one entry for each tracked entry
    whose fields are not all omitted: the number emitted is at most the
    tracked count (which includes an entry added in this run) and equals it
    minus the number of entries with every field omitted; with nothing to
    emit the field is omitted. *)
Theorem list_of_objects_entries H fs name spec (d items : dict) prefix ss traces ss' :
  normalize_spec spec = VDict d ->
  get_default d "value_type" (VStr "string") = VStr "list_of_objects" ->
  let key := prefix +:+ "_" +:+ name in
  let entries := tracked_entries H ss key in
  let count := length entries in
  (0 < count -> py_items (get_default d "fields" (VDict [])) = Ok items) ->
  entry_values (render_field H fs) key items (seq 0 count) (<[key := entries]> ss)
    = Ok (traces, ss') ->
  exists emitted,
    render_field H fs name spec prefix ss
      = Ok (match emitted with [] => VNone | _ => VList emitted end, ss') /\
    emitted = map VDict (List.filter nonempty (map (store []) traces)) /\
    length emitted <= count /\
    length emitted = count - length (List.filter all_omitted traces).
Proof.
  intros Hnorm Hvt key entries count Hitems Htraces.
  exists (map VDict (List.filter nonempty (map (store []) traces))).
  pose proof (entry_values_length _ _ _ _ _ _ _ Htraces) as Hlen.
  rewrite length_seq in Hlen.
  pose proof (emitted_and_dropped traces) as Hsum.
  rewrite length_map.
  split; [|split; [reflexivity | lia]].
  rewrite render_field_eq, Hnorm. unfold render_node. rewrite Hvt. simpl.
  fold key. fold entries. fold count.
  rewrite (render_entries_values H fs d items).
  - rewrite Htraces. reflexivity.
  - intros Hne. apply Hitems. destruct count; [destruct Hne; reflexivity | lia].
Qed.

Lemma list_of_objects_entries_witness :
  exists emitted,
    render_field synonyms_host [] "synonyms" (VDict synonyms_spec) "Taxon" synonyms_session
    = Ok (VList emitted, synonyms_session) /\
    emitted = [VDict [("name", VStr "A")]] /\ length emitted = 2 - 1.
Proof.
  destruct (list_of_objects_entries synonyms_host [] "synonyms" (VDict synonyms_spec)
              synonyms_spec synonym_fields "Taxon" synonyms_session
              [[("name", VStr "A")]; [("name", VStr "")]] synonyms_session
              eq_refl eq_refl (fun _ => eq_refl)) as (emitted & Hrun & Hem & _ & Hcount).
  - vm_compute. reflexivity.
  - exists emitted. subst emitted. split; [|split].
    + exact Hrun.
    + reflexivity.
    + exact Hcount.
Defined.

(** ** Files: what a save changes *)

Lemma kid_set_kid_eq c x (fs : tree) : kid c (set_kid c x fs) = Some x.
Proof.
  induction fs as [|[n y] rest IH]; simpl.
  - rewrite String.eqb_refl. reflexivity.
  - destruct (String.eqb_spec n c) as [->|Hne]; simpl.
    + rewrite String.eqb_refl. reflexivity.
    + destruct (String.eqb_spec n c); [congruence | exact IH].
Qed.

Lemma kid_set_kid_ne c c' x (fs : tree) : c <> c' -> kid c' (set_kid c x fs) = kid c' fs.
Proof.
  intros Hne. induction fs as [|[n y] rest IH]; simpl.
  - destruct (String.eqb_spec c c'); [congruence | reflexivity].
  - destruct (String.eqb_spec n c) as [->|Hn]; simpl.
    + destruct (String.eqb_spec c c'); [congruence | reflexivity].
    + destruct (String.eqb_spec n c'); [reflexivity | exact IH].
Qed.

Lemma set_kid_same c x (fs : tree) : kid c fs = Some x -> set_kid c x fs = fs.
Proof.
  induction fs as [|[n y] rest IH]; simpl; [discriminate|].
  destruct (String.eqb_spec n c) as [->|Hn].
  - intros [= ->]. reflexivity.
  - intros Hk. rewrite (IH Hk). reflexivity.
Qed.

Lemma lookup_cons_dir (fs kids : tree) c p :
  kid c fs = Some (Dir kids) -> lookup_path fs (c :: p) = lookup_path kids p.
Proof. intros Hk. simpl. rewrite Hk. reflexivity. Qed.

Lemma short_removelast (p : path) :
  forallb (fun c => negb (long_name c)) p = true ->
  forallb (fun c => negb (long_name c)) (removelast p) = true.
Proof.
  induction p as [|c p IH]; [reflexivity|].
  destruct p as [|c2 p]; [reflexivity|].
  change (removelast (c :: c2 :: p)) with (c :: removelast (c2 :: p)).
  intros Hshort.
  change (negb (long_name c) && forallb (fun c => negb (long_name c)) (c2 :: p) = true)
    in Hshort.
  change (negb (long_name c)
          && forallb (fun c => negb (long_name c)) (removelast (c2 :: p)) = true).
  apply andb_true_iff in Hshort as [Hc Hrest].
  apply andb_true_iff. split; [exact Hc | exact (IH Hrest)].
Qed.

Lemma path_length_cons c c2 (p : path) :
  path_length (c :: c2 :: p) = String.length c + 1 + path_length (c2 :: p).
Proof. reflexivity. Qed.

Lemma path_length_removelast (p : path) :
  path_length (removelast p) <= Nat.max 1 (path_length p).
Proof.
  assert (Hlonger : forall q c c2,
            path_length (removelast (c :: c2 :: q)) <= path_length (c :: c2 :: q)).
  { induction q as [|c3 q IH]; intros c c2.
    - simpl. lia.
    - change (removelast (c :: c2 :: c3 :: q))
        with (c :: c2 :: removelast (c3 :: q)).
      rewrite !(path_length_cons c).
      pose proof (IH c2 c3) as Hrest.
      change (removelast (c2 :: c3 :: q)) with (c2 :: removelast (c3 :: q)) in Hrest.
      lia. }
  destruct p as [|c [|c2 q]]; [simpl; lia | simpl; lia |].
  pose proof (Hlonger q c c2). lia.
Qed.

Lemma accepted_parent (p : path) : accepted p = true -> accepted (removelast p) = true.
Proof.
  unfold accepted, long_path, PATH_MAX. rewrite !andb_true_iff, !negb_true_iff.
  intros [Hlen Hshort]. split; [|apply short_removelast, Hshort].
  apply Nat.leb_gt. apply Nat.leb_gt in Hlen.
  pose proof (path_length_removelast p). lia.
Qed.

Lemma accepted_short (p : path) :
  accepted p = true -> forallb (fun c => negb (long_name c)) p = true.
Proof. unfold accepted. rewrite andb_true_iff. tauto. Qed.

Lemma mkdir_p_existing (fs kids : tree) p :
  forallb (fun c => negb (long_name c)) p = true ->
  lookup_path fs p = Some (Dir kids) -> mkdir_p fs p = Ok fs.
Proof.
  revert fs. induction p as [|c p IH]; intros fs; simpl; [reflexivity|].
  destruct (long_name c); [discriminate|]. simpl. intros Hshort.
  destruct (kid c fs) as [[doc|sub]|] eqn:Hk; try discriminate.
  - destruct p; discriminate.
  - intros Hp. rewrite (IH _ Hshort Hp). simpl. rewrite (set_kid_same _ _ _ Hk). reflexivity.
Qed.

Lemma mkdir_p_short (fs fs' : tree) p :
  mkdir_p fs p = Ok fs' -> forallb (fun c => negb (long_name c)) p = true.
Proof.
  revert fs fs'. induction p as [|c p IH]; intros fs fs'; simpl; [reflexivity|].
  destruct (long_name c); [discriminate|]. simpl.
  destruct (kid c fs) as [[doc0|kids]|]; [destruct p; discriminate| |].
  - destruct (mkdir_p kids p) as [sub|e] eqn:Hsub; [|discriminate]. intros _. eapply IH, Hsub.
  - destruct (mkdir_p [] p) as [sub|e] eqn:Hsub; [|discriminate]. intros _. eapply IH, Hsub.
Qed.

Lemma mkdir_p_files (fs fs' : tree) p :
  mkdir_p fs p = Ok fs' -> forall q doc, file_at fs' q doc <-> file_at fs q doc.
Proof.
  unfold file_at. revert fs fs'. induction p as [|c p IH]; intros fs fs'; simpl.
  - intros [= <-]. tauto.
  - destruct (long_name c); [discriminate|].
    destruct (kid c fs) as [[doc0|kids]|] eqn:Hk; [destruct p; discriminate| |].
    + destruct (mkdir_p kids p) as [sub|e] eqn:Hsub; simpl; [|discriminate].
      intros [= <-] [|c' q] doc; simpl; [split; discriminate|].
      destruct (String.eqb_spec c c') as [<-|Hne].
      * rewrite kid_set_kid_eq, Hk. apply (IH _ _ Hsub).
      * rewrite kid_set_kid_ne by exact Hne. tauto.
    + destruct (mkdir_p [] p) as [sub|e] eqn:Hsub; simpl; [|discriminate].
      intros [= <-] [|c' q] doc; simpl; [split; discriminate|].
      destruct (String.eqb_spec c c') as [<-|Hne].
      * rewrite kid_set_kid_eq, Hk. rewrite (IH _ _ Hsub q doc).
        destruct q; simpl; split; discriminate.
      * rewrite kid_set_kid_ne by exact Hne. tauto.
Qed.

Lemma mkdir_files (fs fs' : tree) p :
  mkdir fs p = Ok fs' -> forall q doc, file_at fs' q doc <-> file_at fs q doc.
Proof.
  unfold mkdir. destruct (long_path p); [discriminate | apply mkdir_p_files].
Qed.

Lemma write_file_below reads (fs : tree) c c2 p data :
  write_file reads fs (c :: c2 :: p) data =
  if long_name c then Raise OSError
  else match kid c fs with
       | Some (Dir kids) =>
           sub ← write_file reads kids (c2 :: p) data; Ok (set_kid c (Dir sub) fs)
       | Some (File _) => Raise NotADirectoryError
       | None => Raise FileNotFoundError
       end.
Proof. reflexivity. Qed.

Lemma write_file_last reads (fs : tree) c data :
  write_file reads fs [c] data =
  if long_name c then Raise OSError
  else match kid c fs with
       | Some (Dir _) => Raise IsADirectoryError
       | _ => Ok (set_kid c (File (reads data)) fs)
       end.
Proof. reflexivity. Qed.

Lemma write_file_written reads (fs fs' : tree) p data :
  write_file reads fs p data = Ok fs' -> file_at fs' p (reads data).
Proof.
  unfold file_at. revert fs fs'. induction p as [|c p IH]; intros fs fs';
    [discriminate|].
  destruct p as [|c2 p].
  - rewrite write_file_last. destruct (long_name c); [discriminate|]. simpl.
    destruct (kid c fs) as [[doc|kids]|]; try discriminate;
      intros [= <-]; rewrite kid_set_kid_eq; reflexivity.
  - rewrite write_file_below. destruct (long_name c); [discriminate|].
    destruct (kid c fs) as [[doc|kids]|]; try discriminate.
    destruct (write_file reads kids (c2 :: p) data) as [sub|e] eqn:Hsub; simpl;
      [|discriminate].
    intros [= <-]. cbn [lookup_path]. rewrite kid_set_kid_eq. apply (IH _ _ Hsub).
Qed.

Lemma write_file_short reads (fs fs' : tree) p data :
  write_file reads fs p data = Ok fs' -> forallb (fun c => negb (long_name c)) p = true.
Proof.
  revert fs fs'. induction p as [|c p IH]; intros fs fs'; [reflexivity|].
  destruct p as [|c2 p].
  - rewrite write_file_last. simpl. destruct (long_name c); [discriminate | reflexivity].
  - rewrite write_file_below. cbn [forallb]. destruct (long_name c); [discriminate|].
    destruct (kid c fs) as [[doc|kids]|]; try discriminate.
    destruct (write_file reads kids (c2 :: p) data) as [sub|e] eqn:Hsub; [|discriminate].
    intros _. exact (IH _ _ Hsub).
Qed.

Lemma write_file_others reads (fs fs' : tree) p data :
  write_file reads fs p data = Ok fs' ->
  forall q doc, q <> p -> file_at fs' q doc <-> file_at fs q doc.
Proof.
  unfold file_at. revert fs fs'. induction p as [|c p IH]; intros fs fs';
    [discriminate|].
  destruct p as [|c2 p].
  - rewrite write_file_last. destruct (long_name c); [discriminate|].
    destruct (kid c fs) as [[doc0|kids]|] eqn:Hk; try discriminate;
      intros [= <-] [|c' q] doc Hq; simpl; try (split; discriminate);
      (destruct (String.eqb_spec c c') as [<-|Hne];
       [rewrite kid_set_kid_eq, Hk; destruct q; [congruence | split; discriminate]
       |rewrite kid_set_kid_ne by exact Hne; tauto]).
  - rewrite write_file_below. destruct (long_name c); [discriminate|].
    destruct (kid c fs) as [[doc0|kids]|] eqn:Hk; try discriminate.
    destruct (write_file reads kids (c2 :: p) data) as [sub|e] eqn:Hsub; simpl;
      [|discriminate].
    intros [= <-] [|c' q] doc Hq; simpl; [split; discriminate|].
    destruct (String.eqb_spec c c') as [<-|Hne].
    + rewrite kid_set_kid_eq, Hk. apply (IH _ _ Hsub). congruence.
    + rewrite kid_set_kid_ne by exact Hne. tauto.
Qed.

Lemma write_file_ok reads (fs kids : tree) p data :
  p <> [] ->
  forallb (fun c => negb (long_name c)) p = true ->
  lookup_path fs (removelast p) = Some (Dir kids) ->
  (forall sub, lookup_path fs p <> Some (Dir sub)) ->
  exists fs', write_file reads fs p data = Ok fs'.
Proof.
  revert fs. induction p as [|c p IH]; intros fs Hne Hshort Hparent Hfree; [congruence|].
  cbn [forallb] in Hshort. apply andb_true_iff in Hshort as [Hc Hshort].
  apply negb_true_iff in Hc.
  destruct p as [|c2 p].
  - rewrite write_file_last, Hc. simpl in *. destruct (kid c fs) as [[doc|sub]|]; eauto.
    destruct (Hfree sub). reflexivity.
  - change (removelast (c :: c2 :: p)) with (c :: removelast (c2 :: p)) in Hparent.
    cbn [lookup_path] in Hparent. rewrite write_file_below, Hc.
    destruct (kid c fs) as [[doc|sub]|] eqn:Hk.
    + destruct (removelast (c2 :: p)); discriminate.
    + destruct (IH sub) as [sub' Hsub']; [discriminate | exact Hshort | exact Hparent | |].
      * intros s Hs. apply (Hfree s). rewrite (lookup_cons_dir _ _ _ _ Hk). exact Hs.
      * rewrite Hsub'. simpl. eauto.
    + discriminate.
Qed.

(** A save leaves at its path the file that holds the dumped record, and
    no other file changed; the system has accepted the path. *)
Lemma save_yaml_written reads (fs fs' : tree) p data :
  save_yaml reads fs p data = Ok fs' ->
  file_at fs' p (reads data) /\
  (forall q doc, q <> p -> file_at fs' q doc <-> file_at fs q doc) /\
  accepted p = true.
Proof.
  unfold save_yaml, dump_to.
  destruct (mkdir fs (removelast p)) as [fs1|e] eqn:Hmk; simpl; [|discriminate].
  destruct (long_path p) eqn:Hlen; [discriminate|].
  intros Hw. split; [|split].
  - eapply write_file_written, Hw.
  - intros q doc Hq. rewrite (write_file_others _ _ _ _ _ Hw q doc Hq).
    apply (mkdir_files _ _ _ Hmk).
  - unfold accepted. rewrite Hlen. simpl. eapply write_file_short, Hw.
Qed.

(** A save goes through when the system accepts the path, the directory of
    the record is there and no directory sits at the path of the record. *)
Lemma save_yaml_ok reads (fs kids : tree) p data :
  p <> [] ->
  accepted p = true ->
  lookup_path fs (removelast p) = Some (Dir kids) ->
  (forall sub, lookup_path fs p <> Some (Dir sub)) ->
  exists fs', save_yaml reads fs p data = Ok fs'.
Proof.
  intros Hne Hacc Hparent Hfree. unfold save_yaml, mkdir, dump_to.
  pose proof (accepted_parent _ Hacc) as Hacc'.
  unfold accepted in Hacc, Hacc'.
  apply andb_true_iff in Hacc as [Hlen Hshort].
  apply andb_true_iff in Hacc' as [Hlen' Hshort'].
  apply negb_true_iff in Hlen, Hlen'. rewrite Hlen'.
  rewrite (mkdir_p_existing _ _ _ Hshort' Hparent). simpl. rewrite Hlen.
  eapply write_file_ok; eassumption.
Qed.

Lemma set_kid_twice c x y (fs : tree) : set_kid c y (set_kid c x fs) = set_kid c y fs.
Proof.
  induction fs as [|[n z] rest IH]; simpl.
  - rewrite String.eqb_refl. reflexivity.
  - destruct (String.eqb_spec n c) as [->|Hne]; simpl.
    + rewrite String.eqb_refl. reflexivity.
    + destruct (String.eqb_spec n c); [congruence|]. rewrite IH. reflexivity.
Qed.

(** The walk of a save, one component at a time. *)
Lemma save_along_single reads (fs : tree) c data :
  save_along reads fs [c] data =
  if long_name c then Raise OSError
  else match kid c fs with
       | Some (Dir _) => Raise IsADirectoryError
       | _ => Ok (set_kid c (File (reads data)) fs)
       end.
Proof. reflexivity. Qed.

Lemma save_along_below reads (fs : tree) c c2 p data :
  save_along reads fs (c :: c2 :: p) data =
  if long_name c then Raise OSError
  else match kid c fs with
       | None => sub ← save_along reads [] (c2 :: p) data; Ok (set_kid c (Dir sub) fs)
       | Some (Dir kids) =>
           sub ← save_along reads kids (c2 :: p) data; Ok (set_kid c (Dir sub) fs)
       | Some (File _) =>
           Raise (match removelast (c2 :: p) with
                  | [] => FileExistsError
                  | _ => NotADirectoryError
                  end)
       end.
Proof.
  unfold save_along.
  change (removelast (c :: c2 :: p)) with (c :: removelast (c2 :: p)).
  cbn [mkdir_p]. destruct (long_name c) eqn:Hc; [reflexivity|].
  destruct (kid c fs) as [[doc|kids]|] eqn:Hk.
  - reflexivity.
  - destruct (mkdir_p kids (removelast (c2 :: p))) as [made|e]; [|reflexivity].
    cbn [mbind result_bind]. rewrite write_file_below, Hc, kid_set_kid_eq.
    destruct (write_file reads made (c2 :: p) data) as [sub|e]; [|reflexivity].
    cbn [mbind result_bind]. rewrite set_kid_twice. reflexivity.
  - destruct (mkdir_p [] (removelast (c2 :: p))) as [made|e]; [|reflexivity].
    cbn [mbind result_bind]. rewrite write_file_below, Hc, kid_set_kid_eq.
    destruct (write_file reads made (c2 :: p) data) as [sub|e]; [|reflexivity].
    cbn [mbind result_bind]. rewrite set_kid_twice. reflexivity.
Qed.

Lemma split_cons {A} (c : A) (p q r : list A) :
  c :: p = q ++ r -> q = [] \/ exists q', q = c :: q' /\ p = q' ++ r.
Proof.
  destruct q as [|c' q']; [left; reflexivity|].
  intros [= <- ->]. right. eauto.
Qed.

Lemma save_along_returns_iff reads (fs : tree) p data :
  (exists fs', save_along reads fs p data = Ok fs') <->
  p <> [] /\
  forallb (fun c => negb (long_name c)) p = true /\
  (forall sub, lookup_path fs p <> Some (Dir sub)) /\
  (forall q r doc, p = q ++ r -> r <> [] -> lookup_path fs q <> Some (File doc)).
Proof.
  revert fs. induction p as [|c p IH]; intros fs.
  { split; [intros [fs' Hs]; discriminate | intros [Hne _]; congruence]. }
  destruct p as [|c2 p].
  - rewrite save_along_single. cbn [lookup_path forallb]. rewrite andb_true_r.
    destruct (long_name c); simpl.
    { split; [intros [fs' Hs]; discriminate | intros (_ & [=] & _)]. }
    assert (Habove : forall q r doc,
               [c] = q ++ r -> r <> [] -> lookup_path fs q <> Some (File doc)).
    { intros q r doc Heq Hr.
      apply split_cons in Heq as [->|(q' & -> & Heq)]; [discriminate|].
      symmetry in Heq. apply app_eq_nil in Heq as [_ ->]. congruence. }
    destruct (kid c fs) as [[doc|kids]|] eqn:Hk.
    + split; [intros _|eauto]. split; [discriminate|]. split; [reflexivity|].
      split; [discriminate|exact Habove].
    + split; [intros [fs' Hs]; discriminate|]. intros (_ & _ & Hdir & _).
      destruct (Hdir kids). destruct kids; reflexivity.
    + split; [intros _|eauto]. split; [discriminate|]. split; [reflexivity|].
      split; [discriminate|exact Habove].
  - rewrite save_along_below.
    change (forallb (fun c => negb (long_name c)) (c :: c2 :: p))
      with (negb (long_name c) && forallb (fun c => negb (long_name c)) (c2 :: p)).
    destruct (long_name c); simpl negb; cbn [andb].
    { split; [intros [fs' Hs]; discriminate | intros (_ & [=] & _)]. }
    assert (Hbelow : forall kids : tree,
               (exists sub, save_along reads kids (c2 :: p) data = Ok sub) <->
               (exists fs', (sub ← save_along reads kids (c2 :: p) data;
                             Ok (set_kid c (Dir sub) fs)) = Ok fs')).
    { intros kids. split.
      - intros [sub ->]. simpl. eauto.
      - intros [fs' Hs]. apply bind_Ok in Hs as (sub & Hs & _). eauto. }
    destruct (kid c fs) as [[doc|kids]|] eqn:Hk.
    + split; [intros [fs' Hs]; discriminate|]. intros (_ & _ & _ & Hfile).
      destruct (Hfile [c] (c2 :: p) doc); [reflexivity | discriminate |].
      simpl. rewrite Hk. reflexivity.
    + rewrite <- Hbelow, IH. split.
      * intros (_ & Hshort & Hdir & Hfile). split; [discriminate|].
        split; [exact Hshort|]. split.
        -- intros sub. rewrite (lookup_cons_dir _ _ _ _ Hk). apply Hdir.
        -- intros q r doc' Heq Hr.
           apply split_cons in Heq as [->|(q' & -> & Heq)]; [discriminate|].
           rewrite (lookup_cons_dir _ _ _ _ Hk). eapply Hfile; eassumption.
      * intros (_ & Hshort & Hdir & Hfile). split; [discriminate|].
        split; [exact Hshort|]. split.
        -- intros sub. rewrite <- (lookup_cons_dir _ _ _ _ Hk). apply Hdir.
        -- intros q r doc' Heq Hr. rewrite <- (lookup_cons_dir fs kids c q Hk).
           apply (Hfile (c :: q) r doc'); [simpl; congruence | exact Hr].
    + rewrite <- Hbelow, IH. split.
      * intros (_ & Hshort & _). split; [discriminate|]. split; [exact Hshort|]. split.
        -- intros sub. cbn [lookup_path]. rewrite Hk. discriminate.
        -- intros q r doc' Heq Hr.
           apply split_cons in Heq as [->|(q' & -> & Heq)]; [discriminate|].
           cbn [lookup_path]. rewrite Hk. discriminate.
      * intros (_ & Hshort & _). split; [discriminate|]. split; [exact Hshort|]. split.
        -- intros sub. destruct p; discriminate.
        -- intros [|c' q] r doc' _ _; discriminate.
Qed.

Lemma long_parent (p : path) : long_path (removelast p) = true -> long_path p = true.
Proof.
  unfold long_path, PATH_MAX. rewrite !Nat.leb_le.
  pose proof (path_length_removelast p). lia.
Qed.

Lemma save_yaml_along reads (fs : tree) p data :
  long_path p = false -> save_yaml reads fs p data = save_along reads fs p data.
Proof.
  intros Hlen. unfold save_yaml, save_along, mkdir, dump_to.
  destruct (long_path (removelast p)) eqn:Hparent.
  - rewrite (long_parent _ Hparent) in Hlen. discriminate.
  - rewrite Hlen. reflexivity.
Qed.

Lemma save_yaml_long_path reads (fs fs' : tree) p data :
  long_path p = true -> save_yaml reads fs p data <> Ok fs'.
Proof.
  intros Hlen. unfold save_yaml, mkdir, dump_to. rewrite Hlen.
  destruct (long_path (removelast p)); [discriminate|].
  destruct (mkdir_p fs (removelast p)); discriminate.
Qed.

(** A save goes through exactly when the system accepts the path, no
    directory sits at the path, and no file sits at a place above it. *)
Lemma save_yaml_returns_iff reads (fs : tree) p data :
  (exists fs', save_yaml reads fs p data = Ok fs') <->
  p <> [] /\
  accepted p = true /\
  (forall sub, lookup_path fs p <> Some (Dir sub)) /\
  (forall q r doc, p = q ++ r -> r <> [] -> lookup_path fs q <> Some (File doc)).
Proof.
  unfold accepted. destruct (long_path p) eqn:Hlen; simpl.
  - split; [|intros (_ & [=] & _)].
    intros [fs' Hs]. destruct (save_yaml_long_path _ _ _ _ _ Hlen Hs).
  - rewrite (save_yaml_along _ _ _ _ Hlen). apply save_along_returns_iff.
Qed.

(** With a directory at a path the system accepts, the save raises. *)
Lemma save_yaml_on_directory reads (fs sub : tree) p data :
  accepted p = true -> lookup_path fs p = Some (Dir sub) ->
  save_yaml reads fs p data = Raise IsADirectoryError.
Proof.
  unfold accepted. destruct (long_path p) eqn:Hlen; [discriminate|]. simpl.
  rewrite (save_yaml_along _ _ _ _ Hlen). clear Hlen.
  revert fs. induction p as [|c p IH]; intros fs Hshort Hdir; [reflexivity|].
  cbn [forallb] in Hshort. apply andb_true_iff in Hshort as [Hc Hshort].
  apply negb_true_iff in Hc.
  destruct p as [|c2 p].
  - rewrite save_along_single, Hc. simpl in Hdir.
    destruct (kid c fs) as [[doc|kids]|]; try discriminate. reflexivity.
  - rewrite save_along_below, Hc. cbn [lookup_path] in Hdir.
    destruct (kid c fs) as [[doc|kids]|]; try discriminate.
    rewrite (IH kids Hshort Hdir). reflexivity.
Qed.

Lemma lookup_above (fs : tree) q r x :
  lookup_path fs (q ++ r) = Some x -> r <> [] ->
  exists kids, lookup_path fs q = Some (Dir kids).
Proof.
  revert fs. induction q as [|c q IH]; intros fs; simpl; [eauto|].
  destruct (kid c fs) as [[doc|kids]|]; [|apply IH|discriminate].
  destruct (q ++ r) eqn:Hqr; [|discriminate].
  apply app_eq_nil in Hqr as [_ ->]. congruence.
Qed.

(** ** The assertion composer *)

Lemma id_choice_str H fs collection label v :
  id_choice H fs collection label = Ok v -> exists s, v = VStr s.
Proof.
  unfold id_choice. intros Hc. step Hc as directory _. step Hc as ids _.
  injection Hc as <-.
  pose proof (selectbox_elem H (VStr none_choice :: map VStr ids) label) as Hin.
  specialize (Hin ltac:(discriminate)).
  apply elem_of_cons in Hin as [->|Hin]; [eauto|].
  apply list_elem_of_fmap in Hin as (s & -> & _). eauto.
Qed.

(** What a successful [gather] has established. *)
Lemma gather_selection v H Q fs sel :
  gather v H Q fs = Ok sel ->
  (exists d, sel_domain sel = VStr d) /\
  (exists t, sel_taxon_id sel = VStr t) /\
  (exists s, sel_source_id sel = VStr s) /\
  sel_qualifiers sel = collect_qualifiers H Q [].
Proof.
  unfold gather. intros Hg.
  step Hg as directory _.
  step Hg as names _.
  step Hg as _x _.
  step Hg as tdoc Htraits.
  step Hg as ts _.
  step Hg as traits _.
  step Hg as features _.
  step Hg as taxon_id Htaxon.
  step Hg as source_id Hsource.
  step Hg as material_id _.
  step Hg as trait _.
  step Hg as val _.
  injection Hg as <-. simpl.
  repeat split.
  - unfold load_traits in Htraits. apply bind_Ok in Htraits as (p & Hp & _).
    unfold domain_file in Hp.
    destruct (selectbox H (VList (map VStr (sorted names))) "Domain"); try discriminate.
    eauto.
  - eapply id_choice_str, Htaxon.
  - eapply id_choice_str, Hsource.
Qed.

Lemma is_str_false s s' : VStr s <> VStr s' -> is_str (VStr s) s' = false.
Proof. intros Hne. simpl. destruct (String.eqb_spec s s'); congruence. Qed.

(** The record the composer hands to [save_yaml], written out. *)
Lemma assertion_payload_eq sel taxon_id source_id :
  sel_taxon_id sel = VStr taxon_id -> sel_source_id sel = VStr source_id ->
  assertion_payload sel =
  VDict [ ("taxon_id", VStr taxon_id);
          ("assertion_sets",
           VList [VDict ([ ("source_id", VStr source_id);
                           ("assertions",
                            VList [VDict [ ("feature", sel_feature sel);
                                           ("trait", sel_trait_id sel);
                                           ("value", sel_value sel);
                                           ("qualifiers",
                                            match sel_qualifiers sel with
                                            | [] => VNone
                                            | q => VDict q
                                            end) ]]) ]
                         ++ (if is_str (sel_material_id sel) none_choice then []
                             else [("material_id", sel_material_id sel)]))]) ].
Proof.
  intros Ht Hs. unfold assertion_payload, assertion_set_of, assertion_of.
  rewrite Ht, Hs. destruct (is_str (sel_material_id sel) none_choice); reflexivity.
Qed.




(** ** C6: qualifiers *)

Lemma dict_get_set_eq (d : dict) k v : dict_get (dict_set d k v) k = Some v.
Proof.
  induction d as [|[k' v'] rest IH]; simpl.
  - rewrite String.eqb_refl. reflexivity.
  - destruct (String.eqb_spec k' k) as [->|Hne]; simpl.
    + rewrite String.eqb_refl. reflexivity.
    + destruct (String.eqb_spec k' k); [congruence | exact IH].
Qed.

Lemma dict_get_set_ne (d : dict) k k' v : k <> k' -> dict_get (dict_set d k v) k' = dict_get d k'.
Proof.
  intros Hne. induction d as [|[k0 v0] rest IH]; simpl.
  - destruct (String.eqb_spec k k'); [congruence | reflexivity].
  - destruct (String.eqb_spec k0 k) as [->|Hk]; simpl.
    + destruct (String.eqb_spec k k'); [congruence | reflexivity].
    + destruct (String.eqb_spec k0 k'); [reflexivity | exact IH].
Qed.

(** A qualifier is missing from the mapping exactly when nothing is
    selected for it. *)
Lemma collect_qualifiers_none H (Q acc : dict) q :
  dict_get (collect_qualifiers H Q acc) q = None <->
  dict_get acc q = None /\ forall vocab, (q, vocab) ∈ Q -> multiselect H q vocab = [].
Proof.
  revert acc. induction Q as [|[q' vocab'] rest IH]; intros acc; simpl.
  - split; [intros Hn; split; [exact Hn | intros vocab Hin; inversion Hin] | tauto].
  - rewrite IH. destruct (multiselect H q' vocab') as [|x sel] eqn:Hsel.
    + split; intros [Hacc Hall]; (split; [exact Hacc|]).
      * intros vocab Hin. apply elem_of_cons in Hin as [[= -> ->]|Hin]; auto.
      * intros vocab Hin. apply Hall. right. exact Hin.
    + destruct (String.eqb_spec q' q) as [->|Hne].
      * rewrite dict_get_set_eq. split; [intros [[=] _]|].
        intros [_ Hall]. specialize (Hall vocab' ltac:(left)). congruence.
      * rewrite dict_get_set_ne by exact Hne.
        split; intros [Hacc Hall]; (split; [exact Hacc|]).
        -- intros vocab Hin. apply elem_of_cons in Hin as [[= -> ->]|Hin]; [congruence|auto].
        -- intros vocab Hin. apply Hall. right. exact Hin.
Qed.

(** A qualifier in the mapping holds the non-empty selection made for it. *)
Lemma collect_qualifiers_some H (Q acc : dict) q v :
  dict_get (collect_qualifiers H Q acc) q = Some v ->
  dict_get acc q = Some v \/
  exists vocab, (q, vocab) ∈ Q /\ v = VList (multiselect H q vocab) /\
                multiselect H q vocab <> [].
Proof.
  revert acc. induction Q as [|[q' vocab'] rest IH]; intros acc; simpl; [auto|].
  intros Hget. apply IH in Hget as [Hget|(vocab & Hin & Hv & Hne)].
  - destruct (multiselect H q' vocab') as [|x sel] eqn:Hsel; [auto|].
    destruct (String.eqb_spec q' q) as [->|Hq].
    + rewrite dict_get_set_eq in Hget. injection Hget as <-.
      right. exists vocab'. rewrite Hsel. repeat split; [left | discriminate].
    + rewrite dict_get_set_ne in Hget by exact Hq. auto.
  - right. exists vocab. repeat split; [right; exact Hin | exact Hv | exact Hne].
Qed.

Lemma collect_qualifiers_grows H (Q acc : dict) :
  acc <> [] -> collect_qualifiers H Q acc <> [].
Proof.
  revert acc. induction Q as [|[q vocab] rest IH]; intros acc Hne; simpl; [exact Hne|].
  apply IH. destruct (multiselect H q vocab); [exact Hne | apply dict_set_nonempty].
Qed.

Lemma collect_qualifiers_empty H (Q : dict) :
  collect_qualifiers H Q [] = [] <->
  forall q vocab, (q, vocab) ∈ Q -> multiselect H q vocab = [].
Proof.
  induction Q as [|[q vocab] rest IH]; simpl.
  - split; [intros _ q vocab Hin; inversion Hin | reflexivity].
  - destruct (multiselect H q vocab) as [|x sel] eqn:Hsel.
    + rewrite IH. split.
      * intros Hall q' vocab' Hin.
        apply elem_of_cons in Hin as [[= -> ->]|Hin]; [exact Hsel | eauto].
      * intros Hall q' vocab' Hin. apply Hall. right. exact Hin.
    + split.
      * intros Hempty. exfalso.
        eapply (collect_qualifiers_grows H rest); [|exact Hempty]. discriminate.
      * intros Hall. specialize (Hall q vocab ltac:(left)). congruence.
Qed.

(** C6, as the claim states it, fails: with no qualifier selected the
    saved assertion still has its [qualifiers] entry, holding [None]. *)
Lemma unselected_qualifiers_are_stored_as_none :
  gather App8 demo_host demo_qualifiers demo_files = Ok demo_selection /\
  sel_qualifiers demo_selection = [] /\
  dict_has (assertion_of demo_selection) "qualifiers" = true /\
  dict_get (assertion_of demo_selection) "qualifiers" = Some VNone /\
  exists fs',
    assertions_tab App8 demo_host demo_qualifiers demo_files
    = Ok (Success "Assertion file saved", fs') /\
    file_at fs' (DATA // "assertions" // "morphology" // "T1.yaml")
      (Some (VDict [ ("taxon_id", VStr "T1");
                     ("assertion_sets",
                      VList [VDict [ ("source_id", VStr "S1");
                                     ("assertions",
                                      VList [VDict [ ("feature", VStr "cell");
                                                     ("trait", VStr "cell_length");
                                                     ("value", VInt 0);
                                                     ("qualifiers", VNone) ]]) ]]) ])).
Proof.
  split; [vm_compute; reflexivity|].
  split; [reflexivity|]. split; [reflexivity|]. split; [reflexivity|].
  eexists. split; vm_compute; reflexivity.
Qed.

(** C6, amended. In the record a successful save has written, the single
    assertion always has its [qualifiers] entry, after [feature], [trait]
    and [value]. The entry holds [None] when no qualifier has a selection;
    otherwise it holds a non-empty mapping, from which a qualifier is
    absent exactly when nothing is selected for it and in which a
    qualifier that is present holds its non-empty selection. *)
Theorem qualifiers_of_assertion v H Q fs msg fs' :
  assertions_tab v H Q fs = Ok (Success msg, fs') ->
  exists p taxon_id source_id feature trait val quals material,
    file_at fs' p
      (yaml_reads H
         (VDict [ ("taxon_id", taxon_id);
                  ("assertion_sets",
                   VList [VDict ([ ("source_id", source_id);
                                   ("assertions",
                                    VList [VDict [ ("feature", feature);
                                                   ("trait", trait);
                                                   ("value", val);
                                                   ("qualifiers", quals) ]]) ]
                                 ++ material)]) ])) /\
    ((forall q vocab, (q, vocab) ∈ Q -> multiselect H q vocab = []) -> quals = VNone) /\
    ((exists q vocab, (q, vocab) ∈ Q /\ multiselect H q vocab <> []) ->
       exists chosen : dict,
         quals = VDict chosen /\ chosen <> [] /\
         (forall q, dict_get chosen q = None <->
                    forall vocab, (q, vocab) ∈ Q -> multiselect H q vocab = []) /\
         (forall q picked, dict_get chosen q = Some picked ->
            exists vocab, (q, vocab) ∈ Q /\ picked = VList (multiselect H q vocab) /\
                          multiselect H q vocab <> [])).
Proof.
  unfold assertions_tab. intros Hrun.
  apply bind_Ok in Hrun as (sel & Hg & Hrun).
  destruct (gather_selection _ _ _ _ _ Hg) as (_ & (t & Ht) & (s & Hs) & Hq).
  destruct (button H "Save assertion file"); [|discriminate].
  unfold save_assertion in Hrun.
  destruct (_ || _); [discriminate|].
  apply bind_Ok in Hrun as (p & _ & Hrun).
  apply bind_Ok in Hrun as (fs1 & Hsave & Hok). injection Hok as _ <-.
  apply save_yaml_written in Hsave as (Hat & _ & _).
  rewrite (assertion_payload_eq sel t s Ht Hs) in Hat.
  eexists p, _, _, _, _, _, _, _. split; [exact Hat|].
  rewrite Hq. split.
  - intros Hall. apply collect_qualifiers_empty in Hall. rewrite Hall. reflexivity.
  - intros (q & vocab & Hin & Hsel).
    assert (Hne : collect_qualifiers H Q [] <> []).
    { intros Hempty. apply Hsel. eapply collect_qualifiers_empty; eassumption. }
    exists (collect_qualifiers H Q []). split; [|split; [exact Hne|split]].
    + destruct (collect_qualifiers H Q []); [congruence | reflexivity].
    + intros q'. rewrite collect_qualifiers_none. simpl. tauto.
    + intros q' picked Hget.
      apply collect_qualifiers_some in Hget as [Hget|Hget]; [discriminate | exact Hget].
Qed.

Lemma qualifiers_of_assertion_witness :
  (exists fs' p taxon_id source_id feature trait val material,
     assertions_tab App8 demo_host demo_qualifiers demo_files
     = Ok (Success "Assertion file saved", fs') /\
     file_at fs' p
       (Some (VDict [ ("taxon_id", taxon_id);
                      ("assertion_sets",
                       VList [VDict ([ ("source_id", source_id);
                                       ("assertions",
                                        VList [VDict [ ("feature", feature);
                                                       ("trait", trait);
                                                       ("value", val);
                                                       ("qualifiers", VNone) ]]) ]
                                     ++ material)]) ]))) /\
  (exists fs' p taxon_id source_id feature trait val chosen material,
     assertions_tab App8 demo_host_staged demo_qualifiers demo_files
     = Ok (Success "Assertion file saved", fs') /\
     file_at fs' p
       (Some (VDict [ ("taxon_id", taxon_id);
                      ("assertion_sets",
                       VList [VDict ([ ("source_id", source_id);
                                       ("assertions",
                                        VList [VDict [ ("feature", feature);
                                                       ("trait", trait);
                                                       ("value", val);
                                                       ("qualifiers", VDict chosen) ]]) ]
                                     ++ material)]) ])) /\
     dict_get chosen "life_stage" = Some (VList [VStr "adult"])).
Proof.
  assert (Hall : forall q vocab, (q, vocab) ∈ demo_qualifiers ->
                                 multiselect demo_host q vocab = []).
  { intros q vocab Hin. apply list_elem_of_singleton in Hin. injection Hin as -> ->.
    reflexivity. }
  assert (Hone : exists q vocab, (q, vocab) ∈ demo_qualifiers /\
                                 multiselect demo_host_staged q vocab <> []).
  { exists "life_stage", (VList [VStr "adult"; VStr "cyst"]).
    split; [left | discriminate]. }
  split.
  - eexists.
    destruct (qualifiers_of_assertion App8 demo_host demo_qualifiers demo_files
                "Assertion file saved" _ eq_refl)
      as (p & taxon_id & source_id & feature & trait & val & quals & material
          & Hat & Hnone & _).
    rewrite (Hnone Hall) in Hat.
    exists p, taxon_id, source_id, feature, trait, val, material.
    split; [reflexivity | exact Hat].
  - eexists.
    destruct (qualifiers_of_assertion App8 demo_host_staged demo_qualifiers demo_files
                "Assertion file saved" _ eq_refl)
      as (p & taxon_id & source_id & feature & trait & val & quals & material
          & Hat & _ & Hsome).
    destruct (Hsome Hone) as (chosen & -> & _ & Habsent & Hpresent).
    exists p, taxon_id, source_id, feature, trait, val, chosen, material.
    split; [reflexivity|]. split; [exact Hat|].
    destruct (dict_get chosen "life_stage") as [picked|] eqn:Hget.
    + destruct (Hpresent _ _ Hget) as (vocab & Hin & -> & _).
      apply list_elem_of_singleton in Hin. injection Hin as ->. reflexivity.
    + exfalso.
      pose proof (proj1 (Habsent "life_stage") Hget
                    (VList [VStr "adult"; VStr "cyst"]) ltac:(left)) as Hnothing.
      discriminate Hnothing.
Defined.

(** ** Induction along the fields, and clean records *)

Lemma dict_get_Forall (P : value -> Prop) (d : dict) k x :
  Forall (fun kv => P kv.2) d -> dict_get d k = Some x -> P x.
Proof.
  induction 1 as [|[k' v] rest Hv _ IH]; simpl; [discriminate|].
  destruct (String.eqb k' k); [intros [= <-]; exact Hv | exact IH].
Qed.

(** Induction on a spec along its [fields]. *)
Lemma spec_fields_ind (Q : value -> Prop) :
  (forall s, Q (VStr s)) ->
  (forall d : dict,
     (forall items, dict_get d "fields" = Some (VDict items) ->
                    Forall (fun kv => Q kv.2) items) ->
     Q (VDict d)) ->
  (forall v, (forall s, v <> VStr s) -> (forall d, v <> VDict d) -> Q v) ->
  forall spec, Q spec.
Proof.
  intros Hstr Hdict Hother spec.
  enough (Hboth : Q spec /\ forall items, spec = VDict items -> Forall (fun kv => Q kv.2) items)
    by exact (proj1 Hboth).
  induction spec as [| | | | |l _|d IH] using value_ind;
    try (split; [apply Hother; discriminate | discriminate]).
  - split; [apply Hstr | discriminate].
  - assert (Hitems : Forall (fun kv => Q kv.2) d).
    { eapply Forall_impl; [exact IH|]. intros kv [Hq _]. exact Hq. }
    split; [|intros items [= <-]; exact Hitems].
    apply Hdict. intros items Hget.
    pose proof (dict_get_Forall
                  (fun x => Q x /\ forall its, x = VDict its -> Forall (fun kv => Q kv.2) its)
                  d "fields" (VDict items) IH Hget) as [_ Hin].
    exact (Hin items eq_refl).
Qed.

Lemma is_str_true v s : is_str v s = true -> v = VStr s.
Proof.
  destruct v; simpl; try discriminate.
  intros Heq. apply String.eqb_eq in Heq. congruence.
Qed.

Lemma scalar_storable v : scalar v = true -> storable v.
Proof.
  unfold storable. destruct v; simpl; try discriminate; auto.
  intros _. destruct (String.eqb s ""); auto.
Qed.

Lemma text_input_storable H key : storable (text_input H key).
Proof.
  apply scalar_storable. unfold text_input. destruct (inputs H !! key) as [[]|]; reflexivity.
Qed.

Lemma number_input_int_storable H key : storable (number_input_int H key).
Proof.
  apply scalar_storable. unfold number_input_int.
  destruct (inputs H !! key) as [[]|]; reflexivity.
Qed.

Lemma number_input_storable H key : storable (number_input H key).
Proof.
  apply scalar_storable. unfold number_input.
  destruct (inputs H !! key) as [[]|]; reflexivity.
Qed.

Create HintDb storable.
#[local] Hint Resolve text_input_storable number_input_int_storable
  number_input_storable : storable.

Lemma selectbox_storable H options key :
  Forall (fun o => scalar o = true) (options_of options) ->
  storable (selectbox H options key).
Proof.
  intros Hflat. destruct (selectbox_none_or_elem H options key) as [->|Hin].
  - left. reflexivity.
  - apply scalar_storable. rewrite Forall_forall in Hflat. apply Hflat, Hin.
Qed.

Lemma clean_values_forallb (d : dict) :
  clean_values d -> forallb (fun kv => clean kv.2) d = true.
Proof. induction 1; simpl; [reflexivity|]. apply andb_true_intro. split; assumption. Qed.

Lemma dict_set_clean (d : dict) k v :
  clean_values d -> clean v = true -> clean_values (dict_set d k v).
Proof.
  unfold clean_values. induction 1 as [|[k' v'] rest Hv' Hrest IH]; simpl; intros Hv.
  - repeat constructor. exact Hv.
  - destruct (String.eqb k' k); constructor; auto.
Qed.

Lemma render_items_clean
    (render : string -> value -> string -> session -> result (value * session))
    prefix (items entry entry' : dict) ss ss' :
  Forall (fun kv => forall name pre s v s',
            render name kv.2 pre s = Ok (v, s') -> storable v) items ->
  clean_values entry ->
  render_items render prefix items entry ss = Ok (entry', ss') ->
  clean_values entry'.
Proof.
  intros Hitems. revert entry ss.
  induction Hitems as [|[fname fspec] rest Hspec _ IH]; intros entry ss Hentry; simpl.
  - intros [= <- _]. exact Hentry.
  - destruct (render fname fspec prefix ss) as [[val ss1]|e] eqn:Hval; simpl; [|discriminate].
    apply IH. destruct (omitted val) eqn:Hom; [exact Hentry|].
    apply dict_set_clean; [exact Hentry|].
    destruct (Hspec _ _ _ _ _ Hval) as [Ho|Hc]; [congruence | exact Hc].
Qed.

Lemma render_entries_clean
    (children : string -> session -> result (dict * session))
    key idxs (results results' : list value) ss ss' :
  (forall pre s entry s', children pre s = Ok (entry, s') -> clean_values entry) ->
  Forall (fun r => clean r = true) results ->
  render_entries children key idxs results ss = Ok (results', ss') ->
  Forall (fun r => clean r = true) results'.
Proof.
  intros Hchildren. revert results ss.
  induction idxs as [|i rest IH]; intros results ss Hresults; simpl.
  - intros [= <- _]. exact Hresults.
  - destruct (children _ ss) as [[entry ss1]|e] eqn:Hentry; simpl; [|discriminate].
    apply IH. destruct entry as [|kv entry]; [exact Hresults|].
    apply Forall_app. split; [exact Hresults|].
    repeat constructor. simpl.
    exact (clean_values_forallb _ (Hchildren _ _ _ _ Hentry)).
Qed.

Lemma clean_list_forallb (l : list value) :
  Forall (fun r => clean r = true) l -> forallb clean l = true.
Proof. induction 1; simpl; [reflexivity|]. apply andb_true_intro. split; assumption. Qed.

(** With flat vocabularies, a field yields nothing or a clean value. *)
Lemma render_field_storable H fs spec :
  forall name prefix ss v ss',
    flat_vocabularies fs spec ->
    render_field H fs name spec prefix ss = Ok (v, ss') -> storable v.
Proof.
  induction spec as [s|d IH|other Hs Hd] using spec_fields_ind;
    intros name prefix ss v ss' Hflat; rewrite render_field_eq.
  - (* shorthand: no fields, no vocabulary *)
    simpl. unfold render_node.
    destruct (is_str _ "string"); [intros [= <- _]; auto with storable|].
    destruct (is_str _ "integer"); [intros [= <- _]; auto with storable|].
    destruct (is_str _ "float"); [intros [= <- _]; auto with storable|].
    destruct (is_str _ "controlled_vocab").
    { simpl. intros [= <- _]. apply selectbox_storable. constructor. }
    destruct (is_str _ "reference").
    { simpl. intros [= <- _]. apply text_input_storable. }
    destruct (is_str _ "object"); [simpl; intros [= <- _]; left; reflexivity|].
    destruct (is_str _ "list_of_objects"); [|intros [= <- _]; left; reflexivity].
    assert (Hnone : forall pre st entry st',
               children_of H fs [("value_type", VStr s)] pre st = Ok (entry, st') ->
               clean_values entry).
    { intros pre st entry st' [= <- _]. constructor. }
    intros Hrun. apply bind_Ok in Hrun as ([results ss1] & Hloop & Hok).
    injection Hok as <- _.
    pose proof (render_entries_clean _ _ _ _ _ _ _ Hnone (Forall_nil_2 _) Hloop) as Hres.
    destruct results; [left; reflexivity|].
    right. simpl. apply andb_true_intro. inversion Hres; subst.
    split; [assumption | apply clean_list_forallb; assumption].
  - (* mapping *)
    inversion Hflat as [|d' Hvocab Hfields]; subst.
    assert (Hchildren : forall pre s entry s',
               children_of H fs d pre s = Ok (entry, s') -> clean_values entry).
    { intros pre s entry s'. unfold children_of, get_default.
      destruct (dict_get d "fields") as [fields|] eqn:Hget.
      - destruct fields; try discriminate. simpl.
        apply render_items_clean; [|constructor].
        specialize (IH _ eq_refl). specialize (Hfields _ eq_refl).
        rewrite Forall_forall in *. intros kv Hin name0 pre0 s0 v0 s0' Hrun.
        eapply (IH kv Hin); [apply (Hfields kv Hin) | exact Hrun].
      - simpl. intros [= <- _]. constructor. }
    simpl. unfold render_node.
    destruct (is_str _ "string"); [intros [= <- _]; auto with storable|].
    destruct (is_str _ "integer"); [intros [= <- _]; auto with storable|].
    destruct (is_str _ "float"); [intros [= <- _]; auto with storable|].
    destruct (is_str _ "controlled_vocab") eqn:Hcv.
    { apply is_str_true in Hcv. intros Hrun.
      apply bind_Ok in Hrun as (vocab & Hload & Hok). injection Hok as <- _.
      apply selectbox_storable. exact (Hvocab Hcv vocab Hload). }
    destruct (is_str _ "reference").
    { intros Hrun. apply bind_Ok in Hrun as (known & _ & Hok).
      apply reference_branch in Hok as [_ [[ids ->]| ->]];
        [|apply text_input_storable].
      apply selectbox_storable. simpl. constructor; [reflexivity|].
      apply Forall_forall. intros o Hin.
      apply list_elem_of_fmap in Hin as (id & -> & _). reflexivity. }
    destruct (is_str _ "object").
    { intros Hrun. apply bind_Ok in Hrun as ([obj ss1] & Hobj & Hok).
      injection Hok as <- _. apply Hchildren in Hobj.
      destruct obj as [|kv obj]; [left; reflexivity|].
      right. simpl. exact (clean_values_forallb _ Hobj). }
    destruct (is_str _ "list_of_objects"); [|intros [= <- _]; left; reflexivity].
    intros Hrun. apply bind_Ok in Hrun as ([results ss1] & Hloop & Hok).
    injection Hok as <- _.
    pose proof (render_entries_clean _ _ _ _ _ _ _ Hchildren (Forall_nil_2 _) Hloop) as Hres.
    destruct results; [left; reflexivity|].
    right. simpl. apply andb_true_intro. inversion Hres; subst.
    split; [assumption | apply clean_list_forallb; assumption].
  - (* anything else has no [get] *)
    destruct other; try discriminate.
    + destruct (Hs s eq_refl).
    + destruct (Hd d eq_refl).
Qed.

Lemma render_items_storable H fs prefix (items entry entry' : dict) ss ss' :
  Forall (fun kv => flat_vocabularies fs kv.2) items ->
  clean_values entry ->
  render_items (render_field H fs) prefix items entry ss = Ok (entry', ss') ->
  clean_values entry'.
Proof.
  intros Hflat. apply render_items_clean.
  eapply Forall_impl; [exact Hflat|].
  intros kv Hkv name pre s v s'. apply render_field_storable, Hkv.
Qed.

(** What a run of the entity tab that reports a save has gone through. *)
Lemma entity_save_inv H n sp fs ss msg fs' ss' :
  entity_tab H n sp fs ss = Ok (Success msg, fs', ss') ->
  exists directory (items payload : dict),
    DIRS !! n = Some directory /\
    entity_fields fs sp n = Ok items /\
    render_items (render_field H fs) n items [] ss = Ok (payload, ss') /\
    button H ("Save " +:+ n) = true /\
    required_missing items payload = Ok [] /\
    truthy (get_default payload (lower n +:+ "_id") VNone) = true /\
    save_yaml (yaml_reads H) fs
      (directory // (py_str (str_other H) (get_default payload (lower n +:+ "_id") VNone)
                     +:+ ".yaml"))
      (VDict payload) = Ok fs' /\
    msg = n +:+ " saved".
Proof.
  unfold entity_fields, entity_tab, dirs_at. intros Hrun.
  destruct (DIRS !! n) as [directory|]; [|discriminate]. simpl in Hrun.
  step Hrun as loaded Hloaded. rewrite Hloaded. simpl.
  step Hrun as schema Hschema. rewrite Hschema. simpl.
  step Hrun as ids Hids.
  destruct (negb (is_str _ new_choice)).
  { step Hrun as doc ?. discriminate. }
  step Hrun as fields Hget. rewrite Hget. simpl.
  step Hrun as items Hitems. rewrite Hitems.
  step Hrun as [payload ss1] Hpayload.
  destruct (button H _) eqn:Hclick; [|discriminate].
  step Hrun as missing Hmissing.
  destruct missing; [|discriminate].
  destruct (truthy (get_default payload _ VNone)) eqn:Hid; simpl in Hrun; [|discriminate].
  step Hrun as fs1 Hsave. injection Hrun as <- <- <-.
  exists directory, items, payload. repeat split; assumption.
Qed.

(** ** C10: what a saved record holds *)

Lemma dict_set_Forall (Q : string * value -> Prop) (d : dict) k v :
  Forall Q d -> Q (k, v) -> Forall Q (dict_set d k v).
Proof.
  induction 1 as [|[k' v'] rest Hv' Hrest IH]; simpl; intros Hv.
  - repeat constructor. exact Hv.
  - destruct (String.eqb_spec k' k) as [->|Hne]; constructor; auto.
Qed.

(** The field loop keeps a mapping of fields of [items], each with a value
    that fits its spec. *)
Lemma render_items_fields (P : value -> value -> Prop)
    (render : string -> value -> string -> session -> result (value * session))
    prefix (items todo entry entry' : dict) ss ss' :
  (forall kv, kv ∈ todo -> kv ∈ items) ->
  Forall (fun kv => forall name pre s v s',
            render name kv.2 pre s = Ok (v, s') -> omitted v = false -> P kv.2 v) todo ->
  fields_stored P items entry ->
  render_items render prefix todo entry ss = Ok (entry', ss') ->
  fields_stored P items entry'.
Proof.
  intros Hsub Htodo. revert entry ss.
  induction Htodo as [|[fname fspec] rest Hspec _ IH]; intros entry ss Hentry; simpl.
  - intros [= <- _]. exact Hentry.
  - destruct (render fname fspec prefix ss) as [[val ss1]|e] eqn:Hval; simpl; [|discriminate].
    apply IH.
    + intros kv Hin. apply Hsub. right. exact Hin.
    + destruct (omitted val) eqn:Hom; [exact Hentry|].
      apply dict_set_Forall; [exact Hentry|].
      exists fspec. split; [apply Hsub; left | exact (Hspec _ _ _ _ _ Hval Hom)].
Qed.

Lemma render_entries_fields (Q : dict -> Prop)
    (children : string -> session -> result (dict * session))
    key idxs (results results' : list value) ss ss' :
  (forall pre s entry s', children pre s = Ok (entry, s') -> Q entry) ->
  Forall (fun e => exists obj : dict, e = VDict obj /\ obj <> [] /\ Q obj) results ->
  render_entries children key idxs results ss = Ok (results', ss') ->
  Forall (fun e => exists obj : dict, e = VDict obj /\ obj <> [] /\ Q obj) results'.
Proof.
  intros Hchildren. revert results ss.
  induction idxs as [|i rest IH]; intros results ss Hresults; simpl.
  - intros [= <- _]. exact Hresults.
  - destruct (children _ ss) as [[entry ss1]|e] eqn:Hentry; simpl; [|discriminate].
    apply IH. destruct entry as [|kv entry]; [exact Hresults|].
    apply Forall_app. split; [exact Hresults|].
    repeat constructor. exists (kv :: entry).
    split; [reflexivity|]. split; [discriminate|]. exact (Hchildren _ _ _ _ Hentry).
Qed.

(** The dispatch, given children that keep well-stored fields. *)
Lemma render_node_well_stored H fs name spec (d : dict) prefix ss children v ss' :
  normalize_spec spec = VDict d ->
  (forall pre s entry s',
     children pre s = Ok (entry, s') -> fields_stored well_stored (fields_of d) entry) ->
  render_node H fs name d prefix ss children = Ok (v, ss') ->
  omitted v = false ->
  well_stored spec v.
Proof.
  intros Hnorm Hchildren Hrun Hv. unfold render_node in Hrun.
  fold (value_type_of d) in Hrun.
  destruct (is_str (value_type_of d) "object") eqn:Hobject.
  { apply is_str_true in Hobject. rewrite Hobject in Hrun. simpl in Hrun.
    apply bind_Ok in Hrun as ([obj ss1] & Hobj & Hok). injection Hok as <- _.
    destruct obj as [|kv obj]; [discriminate Hv|].
    eapply stored_object; [exact Hnorm | exact Hobject | discriminate |].
    exact (Hchildren _ _ _ _ Hobj). }
  destruct (is_str (value_type_of d) "list_of_objects") eqn:Hlist.
  { apply is_str_true in Hlist. rewrite Hlist in Hrun. simpl in Hrun.
    apply bind_Ok in Hrun as ([results ss1] & Hloop & Hok). injection Hok as <- _.
    destruct results as [|e results]; [discriminate Hv|].
    eapply stored_list; [exact Hnorm | exact Hlist | discriminate |].
    exact (render_entries_fields _ _ _ _ _ _ _ _ Hchildren (Forall_nil_2 _) Hloop). }
  eapply stored_plain; eassumption.
Qed.

(** What a field yields, when it is not omitted, fits its spec. *)
Lemma render_field_well_stored H fs spec :
  forall name prefix ss v ss',
    render_field H fs name spec prefix ss = Ok (v, ss') ->
    omitted v = false ->
    well_stored spec v.
Proof.
  induction spec as [s|d IH|other Hs Hd] using spec_fields_ind;
    intros name prefix ss v ss'; rewrite render_field_eq.
  - apply render_node_well_stored; [reflexivity|].
    intros pre st entry st' [= <- _]. constructor.
  - apply render_node_well_stored; [reflexivity|].
    intros pre st entry st'. unfold children_of, fields_of, get_default.
    destruct (dict_get d "fields") as [fields|] eqn:Hget.
    + destruct fields; try discriminate. simpl.
      apply render_items_fields; [tauto | | constructor].
      eapply Forall_impl; [exact (IH _ eq_refl)|].
      intros kv Hkv name0 pre0 s0 v0 s0'. apply Hkv.
    + simpl. intros [= <- _]. constructor.
  - destruct other; try discriminate.
    + destruct (Hs s eq_refl).
    + destruct (Hd d eq_refl).
Qed.




(** * Further properties *)

(** ** Saving and loading *)


Lemma load_after_save reads (fs fs' : tree) p data :
  save_yaml reads fs p data = Ok fs' ->
  load_yaml fs' p = match reads data with Some v => Ok v | None => Raise YAMLError end.
Proof.
  intros Hsave. apply save_yaml_written in Hsave as (Hat & _ & Hacc).
  unfold load_yaml. rewrite (proj2 (stat_Ok fs' p _) (conj Hat Hacc)). simpl.
  destruct (reads data); reflexivity.
Qed.

(** X1. After a save, loading the path returns what PyYAML reads back from
    the text it has dumped for the record, which is the record itself
    whenever it reads back as dumped; every other path loads what it
    loaded before. *)
Theorem save_then_load reads fs fs' p data :
  save_yaml reads fs p data = Ok fs' ->
  load_yaml fs' p = match reads data with Some v => Ok v | None => Raise YAMLError end /\
  (reads data = Some data -> load_yaml fs' p = Ok data) /\
  forall q v, q <> p -> load_yaml fs' q = Ok v <-> load_yaml fs q = Ok v.
Proof.
  intros Hsave. pose proof (load_after_save _ _ _ _ _ Hsave) as Hload.
  apply save_yaml_written in Hsave as (Hat & Hothers & Hacc).
  split; [exact Hload|]. split.
  - intros Hsame. rewrite Hload, Hsame. reflexivity.
  - intros q v Hq. rewrite !load_yaml_Ok, (Hothers q (Some v) Hq). reflexivity.
Qed.

Lemma save_then_load_witness :
  exists fs',
    save_yaml plain_yaml one_taxon (DATA // "taxa" // "T2.yaml")
      (VDict [("taxon_id", VStr "T2")]) = Ok fs' /\
    load_yaml fs' (DATA // "taxa" // "T2.yaml") = Ok (VDict [("taxon_id", VStr "T2")]).
Proof.
  eexists. split; [reflexivity|].
  exact (proj1 (proj2 (save_then_load plain_yaml one_taxon _ (DATA // "taxa" // "T2.yaml")
                         (VDict [("taxon_id", VStr "T2")]) eq_refl)) eq_refl).
Defined.



(** X3. A save over a record that was saved before goes through and
    replaces it: the path then holds what was dumped for the later record,
    nothing of the earlier one is kept, and the other paths load as they
    did at first. *)
Theorem last_save_wins reads fs fs1 p earlier later :
  save_yaml reads fs p earlier = Ok fs1 ->
  exists fs2,
    save_yaml reads fs1 p later = Ok fs2 /\
    file_at fs2 p (reads later) /\
    load_yaml fs2 p = match reads later with Some v => Ok v | None => Raise YAMLError end /\
    forall q v, q <> p -> load_yaml fs2 q = Ok v <-> load_yaml fs q = Ok v.
Proof.
  intros Hfirst.
  assert (Hne : p <> []).
  { intros ->. discriminate Hfirst. }
  apply save_yaml_written in Hfirst as (Hat & Hothers1 & Hacc).
  destruct (lookup_above fs1 (removelast p) [List.last p ""] (File (reads earlier)))
    as [kids Hparent]; [|discriminate|].
  { rewrite <- (List.app_removelast_last "" Hne). exact Hat. }
  destruct (save_yaml_ok reads fs1 kids p later Hne Hacc Hparent) as [fs2 Hsecond].
  { intros sub. unfold file_at in Hat. rewrite Hat. discriminate. }
  exists fs2. split; [exact Hsecond|].
  pose proof (load_after_save _ _ _ _ _ Hsecond) as Hload.
  apply save_yaml_written in Hsecond as (Hat2 & Hothers2 & _).
  split; [exact Hat2|]. split; [exact Hload|].
  intros q v Hq.
  rewrite !load_yaml_Ok, (Hothers2 q (Some v) Hq), (Hothers1 q (Some v) Hq). reflexivity.
Qed.

Lemma last_save_wins_witness :
  exists fs2, load_yaml fs2 (DATA // "taxa" // "T2.yaml") = Ok (VStr "later").
Proof.
  destruct (last_save_wins plain_yaml one_taxon _ (DATA // "taxa" // "T2.yaml")
              (VStr "earlier") (VStr "later") eq_refl) as (fs2 & _ & _ & Hload & _).
  exists fs2. exact Hload.
Defined.

(** ** Identifiers of a collection *)



(** ** The entity tab *)

(** What a successful save has gone through. *)
Lemma required_missing_nil (items payload : dict) :
  required_missing items payload = Ok [] ->
  forall f s, (f, s) ∈ items -> marked_required s = true -> dict_has payload f = true.
Proof.
  induction items as [|[f0 s0] rest IH]; intros Hnil f s Hin Hreq; [inversion Hin|].
  simpl in Hnil.
  apply bind_Ok in Hnil as (req & Hget & Hnil).
  apply bind_Ok in Hnil as (others & Hrest & Hnil).
  destruct s0 as [| | | | | |d0]; try discriminate. injection Hget as <-.
  apply elem_of_cons in Hin as [[= -> ->]|Hin].
  - simpl in Hreq. rewrite Hreq in Hnil. simpl in Hnil.
    destruct (dict_has payload f0); [reflexivity | discriminate].
  - destruct (truthy (get_default d0 "required" VNone) && negb (dict_has payload f0));
      [discriminate|].
    injection Hnil as ->. exact (IH Hrest f s Hin Hreq).
Qed.

(** X5. A record that has been saved holds every field its schema marks as
    required, has a truthy identifier, and lies in the directory of its
    entity under the name [<identifier>.yaml]: the file there holds what
    was dumped for the record, and loads as the record whenever PyYAML
    reads the record back as dumped. *)
Theorem saved_record_has_required_fields H n sp fs ss msg fs' ss' :
  entity_tab H n sp fs ss = Ok (Success msg, fs', ss') ->
  exists directory (items payload : dict) id,
    DIRS !! n = Some directory /\
    entity_fields fs sp n = Ok items /\
    render_items (render_field H fs) n items [] ss = Ok (payload, ss') /\
    (forall f s, (f, s) ∈ items -> marked_required s = true -> dict_has payload f = true) /\
    dict_get payload (lower n +:+ "_id") = Some id /\ truthy id = true /\
    file_at fs' (directory // (py_str (str_other H) id +:+ ".yaml"))
      (yaml_reads H (VDict payload)) /\
    (yaml_reads H (VDict payload) = Some (VDict payload) ->
     load_yaml fs' (directory // (py_str (str_other H) id +:+ ".yaml"))
     = Ok (VDict payload)).
Proof.
  intros Hrun.
  apply entity_save_inv in Hrun
    as (directory & items & payload & Hdir & Hitems & Hform & _ & Hmissing & Hid & Hsave & _).
  unfold get_default in Hid, Hsave.
  destruct (dict_get payload (lower n +:+ "_id")) as [id|] eqn:Hget; [|discriminate].
  exists directory, items, payload, id.
  split; [exact Hdir|]. split; [exact Hitems|]. split; [exact Hform|].
  split; [exact (required_missing_nil _ _ Hmissing)|].
  split; [exact Hget|]. split; [exact Hid|].
  pose proof (load_after_save _ _ _ _ _ Hsave) as Hload.
  apply save_yaml_written in Hsave as (Hat & _ & _).
  split; [exact Hat|]. intros Hsame. rewrite Hload, Hsame. reflexivity.
Qed.

Lemma saved_record_has_required_fields_witness :
  exists directory (items payload : dict) id,
    DIRS !! "Taxon" = Some directory /\
    entity_fields (taxon_schema_file taxon_fields) taxon_schema_path "Taxon" = Ok items /\
    render_items (render_field taxon_host (taxon_schema_file taxon_fields)) "Taxon"
      items [] ∅ = Ok (payload, ∅) /\
    (forall f s, (f, s) ∈ items -> marked_required s = true -> dict_has payload f = true) /\
    dict_get payload (lower "Taxon" +:+ "_id") = Some id /\ truthy id = true /\
    file_at taxon_saved (directory // (py_str (str_other taxon_host) id +:+ ".yaml"))
      (yaml_reads taxon_host (VDict payload)) /\
    (yaml_reads taxon_host (VDict payload) = Some (VDict payload) ->
     load_yaml taxon_saved (directory // (py_str (str_other taxon_host) id +:+ ".yaml"))
     = Ok (VDict payload)).
Proof.
  assert (Hrun : entity_tab taxon_host "Taxon" taxon_schema_path
                   (taxon_schema_file taxon_fields) ∅
                 = Ok (Success "Taxon saved", taxon_saved, ∅))
    by (vm_compute; reflexivity).
  exact (saved_record_has_required_fields _ _ _ _ _ _ _ _ Hrun).
Defined.

Lemma kid_name c (kids : tree) x : kid c kids = Some x -> c ∈ map fst kids.
Proof.
  induction kids as [|[n y] rest IH]; simpl; [discriminate|].
  destruct (String.eqb_spec n c) as [->|Hne]; [intros _; left | intros Hk; right; auto].
Qed.

Lemma lookup_entry (fs : tree) q c x :
  lookup_path fs (q ++ [c]) = Some x ->
  exists kids, lookup_path fs q = Some (Dir kids) /\ c ∈ map fst kids.
Proof.
  revert fs. induction q as [|c' q IH]; intros fs; simpl.
  - destruct (kid c fs) as [y|] eqn:Hk; [|discriminate].
    intros _. exists fs. split; [reflexivity | eapply kid_name, Hk].
  - destruct (kid c' fs) as [[doc|kids]|]; [|apply IH|discriminate].
    destruct (q ++ [c]) eqn:Hq; [|discriminate]. destruct q; discriminate.
Qed.

(** X6. A record saved under a string identifier that is a plain file name
    is among the identifiers of its collection afterwards: the next run
    offers it for viewing, and reference fields offer it as a choice. *)
Theorem saved_record_is_listed
    H n sp fs ss directory (items payload : dict) ss1 msg fs' x :
  DIRS !! n = Some directory ->
  entity_fields fs sp n = Ok items ->
  render_items (render_field H fs) n items [] ss = Ok (payload, ss1) ->
  entity_tab H n sp fs ss = Ok (Success msg, fs', ss1) ->
  dict_get payload (lower n +:+ "_id") = Some (VStr x) ->
  parts (x +:+ ".yaml") = [x +:+ ".yaml"] ->
  exists ids, list_yaml_ids fs' directory = Ok ids /\ x ∈ ids.
Proof.
  intros Hdir Hfields Hform Hrun Hget Hname.
  apply entity_save_inv in Hrun
    as (directory' & items' & payload' & Hdir' & Hfields' & Hform' & _ & _ & Hid & Hsave & _).
  rewrite Hdir in Hdir'. injection Hdir' as <-.
  rewrite Hfields in Hfields'. injection Hfields' as <-.
  rewrite Hform in Hform'. injection Hform' as <-.
  unfold get_default in Hid, Hsave. rewrite Hget in Hid, Hsave.
  simpl in Hid, Hsave. unfold path_join in Hsave. rewrite Hname in Hsave.
  apply save_yaml_written in Hsave as (Hat & _ & _).
  apply lookup_entry in Hat as (kids & Hkids & Hin).
  pose proof (list_yaml_ids_DIRS fs' n directory Hdir) as Hids.
  eexists. split; [exact Hids|].
  apply (list_yaml_ids_Ok _ _ _ Hids). exists kids, x.
  split; [exact Hkids|]. split; [exact Hin|].
  destruct x; [discriminate Hid | reflexivity].
Qed.

Lemma saved_record_is_listed_witness :
  exists ids, list_yaml_ids taxon_saved (DATA // "taxa") = Ok ids /\ "Taxon_001" ∈ ids.
Proof.
  apply (saved_record_is_listed taxon_host "Taxon" taxon_schema_path
           (taxon_schema_file taxon_fields) ∅ (DATA // "taxa") taxon_fields
           [("taxon_id", VStr "Taxon_001")] ∅ "Taxon saved" taxon_saved "Taxon_001").
  - reflexivity.
  - reflexivity.
  - reflexivity.
  - vm_compute. reflexivity.
  - reflexivity.
  - reflexivity.
Defined.

(** X7. The entity tab changes the files only by a save that succeeds, and
    a save needs the save button: whatever else it returns, the files are
    the ones it was given; and viewing a record leaves the session as it
    was. *)
Theorem entity_tab_keeps_files H n sp fs ss o fs' ss' :
  entity_tab H n sp fs ss = Ok (o, fs', ss') ->
  ((exists msg, o = Success msg) -> button H ("Save " +:+ n) = true) /\
  ((forall msg, o <> Success msg) -> fs' = fs) /\
  (forall doc, o = Shown doc -> ss' = ss).
Proof.
  unfold entity_tab. intros Hrun.
  step Hrun as directory ?.
  step Hrun as loaded ?.
  step Hrun as schema ?.
  step Hrun as ids ?.
  destruct (negb (is_str _ new_choice)).
  { step Hrun as doc ?. injection Hrun as <- <- <-.
    split; [intros [msg [=]]|]. split; reflexivity. }
  step Hrun as fields ?.
  step Hrun as items ?.
  step Hrun as [payload ss1] ?.
  destruct (button H _).
  - split; [reflexivity|].
    step Hrun as missing ?.
    destruct missing.
    + destruct (negb (truthy _)).
      * injection Hrun as <- <- <-. split; [reflexivity | discriminate].
      * step Hrun as fs1 ?. injection Hrun as <- <- <-.
        split; [|discriminate]. intros Hno. destruct (Hno _ eq_refl).
    + injection Hrun as <- <- <-. split; [reflexivity | discriminate].
  - injection Hrun as <- <- <-.
    split; [intros [msg [=]]|]. split; [reflexivity | discriminate].
Qed.

Lemma entity_tab_keeps_files_witness :
  button taxon_host "Save Taxon" = true /\
  taxon_schema_file fields_with_mappings = taxon_schema_file fields_with_mappings.
Proof.
  assert (Hsaved : entity_tab taxon_host "Taxon" taxon_schema_path
                     (taxon_schema_file taxon_fields) ∅
                   = Ok (Success "Taxon saved", taxon_saved, ∅))
    by (vm_compute; reflexivity).
  assert (Hmissing : entity_tab save_host "Taxon" taxon_schema_path
                       (taxon_schema_file fields_with_mappings) ∅
                     = Ok (Error "Missing required fields: taxon_id",
                           taxon_schema_file fields_with_mappings, ∅))
    by (vm_compute; reflexivity).
  split.
  - apply (entity_tab_keeps_files _ _ _ _ _ _ _ _ Hsaved). eauto.
  - apply (entity_tab_keeps_files _ _ _ _ _ _ _ _ Hmissing). discriminate.
Defined.

(** X8. With every required field present, a save still needs an
    identifier that is truthy: when the identifier field is absent from
    the payload, or holds the empty string, or the integer 0 that an
    untouched integer input yields, the tab reports the missing identifier
    and writes nothing. *)
Theorem save_needs_identifier
    H n sp fs ss directory (items payload : dict) ss1 :
  DIRS !! n = Some directory ->
  entity_fields fs sp n = Ok items ->
  selectbox H (VList (VStr new_choice :: map VStr (ids_of fs directory)))
            (n +:+ "_select") = VStr new_choice ->
  render_items (render_field H fs) n items [] ss = Ok (payload, ss1) ->
  button H ("Save " +:+ n) = true ->
  required_missing items payload = Ok [] ->
  truthy (get_default payload (lower n +:+ "_id") VNone) = false ->
  entity_tab H n sp fs ss = Ok (Error "Missing identifier field", fs, ss1).
Proof.
  unfold entity_fields, entity_tab, dirs_at.
  intros Hdir Hfields Hnew Hpayload Hclick Hmissing Hid.
  rewrite Hdir. simpl.
  destruct (load_schema fs sp) as [loaded|e]; [simpl in *|discriminate].
  destruct (py_getitem loaded n) as [schema|e]; [simpl in *|discriminate].
  rewrite (list_yaml_ids_DIRS fs _ _ Hdir). simpl.
  rewrite Hnew. cbn [is_str]. unfold new_choice at 1. rewrite String.eqb_refl.
  cbn [negb].
  destruct (py_getitem schema "fields") as [fields|e]; [simpl in *|discriminate].
  rewrite Hfields. simpl. rewrite Hpayload. simpl. rewrite Hclick, Hmissing. simpl.
  rewrite Hid. reflexivity.
Qed.

Lemma save_needs_identifier_witness :
  render_items (render_field save_host (taxon_schema_file fields_with_integer_id))
    "Taxon" fields_with_integer_id [] ∅ = Ok ([("taxon_id", VInt 0)], ∅) /\
  entity_tab save_host "Taxon" taxon_schema_path (taxon_schema_file fields_with_integer_id) ∅
  = Ok (Error "Missing identifier field", taxon_schema_file fields_with_integer_id, ∅).
Proof.
  split; [reflexivity|].
  apply (save_needs_identifier save_host "Taxon" taxon_schema_path _ ∅ (DATA // "taxa")
           fields_with_integer_id [("taxon_id", VInt 0)] ∅); reflexivity.
Defined.

(** X9. On a schema whose top-level specs are all mappings, a save with
    required fields absent from the payload reports them and writes
    nothing: the message names, in the order of the schema, exactly the
    fields that are marked required and are not in the payload. *)
Theorem required_fields_are_reported
    H n sp fs ss directory (items payload : dict) ss1 :
  DIRS !! n = Some directory ->
  entity_fields fs sp n = Ok items ->
  selectbox H (VList (VStr new_choice :: map VStr (ids_of fs directory)))
            (n +:+ "_select") = VStr new_choice ->
  render_items (render_field H fs) n items [] ss = Ok (payload, ss1) ->
  button H ("Save " +:+ n) = true ->
  Forall (fun kv => exists d, kv.2 = VDict d) items ->
  missing_required items payload <> [] ->
  entity_tab H n sp fs ss
  = Ok (Error ("Missing required fields: " +:+ join ", " (missing_required items payload)),
        fs, ss1) /\
  forall f, f ∈ missing_required items payload <->
            exists s, (f, s) ∈ items /\ marked_required s = true /\
                      dict_has payload f = false.
Proof.
  intros Hdir Hfields Hnew Hpayload Hclick Hmappings Hmissing. split.
  - eapply missing_required_fields_reported; eassumption.
  - intros f. unfold missing_required. rewrite list_elem_of_fmap. split.
    + intros ([f' s] & -> & Hin). apply list_elem_of_In, filter_In in Hin as [Hin Hkeep].
      apply andb_true_iff in Hkeep as [Hreq Hno]. apply negb_true_iff in Hno.
      exists s. split; [apply list_elem_of_In, Hin | split; assumption].
    + intros (s & Hin & Hreq & Hno). exists (f, s). split; [reflexivity|].
      apply list_elem_of_In, filter_In. split; [apply list_elem_of_In, Hin|].
      simpl. rewrite Hreq, Hno. reflexivity.
Qed.

Lemma required_fields_are_reported_witness :
  entity_tab save_host "Taxon" taxon_schema_path (taxon_schema_file fields_with_mappings) ∅
  = Ok (Error ("Missing required fields: " +:+ join ", " ["taxon_id"]),
        taxon_schema_file fields_with_mappings, ∅).
Proof.
  refine (proj1 (required_fields_are_reported save_host "Taxon" taxon_schema_path
                   (taxon_schema_file fields_with_mappings) ∅
                   (DATA // "taxa") fields_with_mappings [] ∅
                   eq_refl eq_refl eq_refl eq_refl eq_refl _ _)).
  - repeat constructor; simpl; eauto.
  - discriminate.
Defined.

(** ** The renderer and the session *)

Lemma key_longer (prefix name : string) :
  String.length prefix < String.length (prefix +:+ "_" +:+ name).
Proof. rewrite !length_append. simpl. lia. Qed.

Lemma render_items_frame
    (render : string -> value -> string -> session -> result (value * session))
    prefix (items entry entry' : dict) ss ss' :
  Forall (fun kv => forall name pre s v s',
            render name kv.2 pre s = Ok (v, s') ->
            forall k, String.length k <= String.length pre -> s' !! k = s !! k) items ->
  render_items render prefix items entry ss = Ok (entry', ss') ->
  forall k, String.length k <= String.length prefix -> ss' !! k = ss !! k.
Proof.
  intros Hitems. revert entry ss.
  induction Hitems as [|[fname fspec] rest Hspec _ IH]; intros entry ss; simpl.
  - intros [= _ <-]. reflexivity.
  - destruct (render fname fspec prefix ss) as [[val ss1]|e] eqn:Hval; simpl; [|discriminate].
    intros Hrest k Hk. rewrite (IH _ _ Hrest k Hk). exact (Hspec _ _ _ _ _ Hval k Hk).
Qed.

Lemma render_entries_frame
    (children : string -> session -> result (dict * session))
    key idxs (results results' : list value) ss ss' :
  (forall pre s entry s',
     children pre s = Ok (entry, s') ->
     forall k, String.length k <= String.length pre -> s' !! k = s !! k) ->
  render_entries children key idxs results ss = Ok (results', ss') ->
  forall k, String.length k <= String.length key -> ss' !! k = ss !! k.
Proof.
  intros Hchildren. revert results ss.
  induction idxs as [|i rest IH]; intros results ss; simpl.
  - intros [= _ <-]. reflexivity.
  - destruct (children _ ss) as [[entry ss1]|e] eqn:Hentry; simpl; [|discriminate].
    intros Hrest k Hk. rewrite (IH _ _ Hrest k Hk).
    apply (Hchildren _ _ _ _ Hentry). pose proof (key_longer key (pretty i)). lia.
Qed.

Lemma render_node_frame H fs name (d : dict) prefix ss children v ss' :
  (forall pre s entry s',
     children pre s = Ok (entry, s') ->
     forall k, String.length k <= String.length pre -> s' !! k = s !! k) ->
  render_node H fs name d prefix ss children = Ok (v, ss') ->
  forall k, String.length k <= String.length prefix -> ss' !! k = ss !! k.
Proof.
  intros Hchildren Hrun k Hk. unfold render_node in Hrun.
  pose proof (key_longer prefix name) as Hkey.
  destruct (is_str _ "string"); [injection Hrun as _ <-; reflexivity|].
  destruct (is_str _ "integer"); [injection Hrun as _ <-; reflexivity|].
  destruct (is_str _ "float"); [injection Hrun as _ <-; reflexivity|].
  destruct (is_str _ "controlled_vocab").
  { apply bind_Ok in Hrun as (vocab & _ & Hok). injection Hok as _ <-. reflexivity. }
  destruct (is_str _ "reference").
  { apply bind_Ok in Hrun as (known & _ & Hok).
    apply reference_branch in Hok as [-> _]. reflexivity. }
  destruct (is_str _ "object").
  { apply bind_Ok in Hrun as ([obj ss1] & Hobj & Hok). injection Hok as _ <-.
    apply (Hchildren _ _ _ _ Hobj). lia. }
  destruct (is_str _ "list_of_objects"); [|injection Hrun as _ <-; reflexivity].
  apply bind_Ok in Hrun as ([results ss1] & Hloop & Hok). injection Hok as _ <-.
  rewrite (render_entries_frame _ _ _ _ _ _ _ Hchildren Hloop k) by lia.
  apply lookup_insert_ne. intros <-. lia.
Qed.

(** Rendering under a prefix leaves alone the entries of the session whose
    key is no longer than the prefix. *)
Lemma render_field_frame H fs spec :
  forall name prefix ss v ss',
    render_field H fs name spec prefix ss = Ok (v, ss') ->
    forall k, String.length k <= String.length prefix -> ss' !! k = ss !! k.
Proof.
  induction spec as [s|d IH|other Hs Hd] using spec_fields_ind;
    intros name prefix ss v ss'; rewrite render_field_eq.
  - apply render_node_frame. intros pre st entry st' [= _ <-]. reflexivity.
  - apply render_node_frame. intros pre st entry st'.
    unfold children_of, get_default.
    destruct (dict_get d "fields") as [fields|] eqn:Hget.
    + destruct fields; try discriminate. simpl.
      apply render_items_frame. exact (IH _ eq_refl).
    + simpl. intros [= _ <-]. reflexivity.
  - destruct other; try discriminate.
    + destruct (Hs s eq_refl).
    + destruct (Hd d eq_refl).
Qed.

Lemma children_of_frame H fs (d : dict) pre s entry s' :
  children_of H fs d pre s = Ok (entry, s') ->
  forall k, String.length k <= String.length pre -> s' !! k = s !! k.
Proof.
  unfold children_of. intros Hrun. apply bind_Ok in Hrun as (items & _ & Hrun).
  revert Hrun. apply render_items_frame.
  apply Forall_forall. intros kv _ name pre0 s0 v s0'. apply render_field_frame.
Qed.

(** X10. A list-of-objects field keeps its entries in the session under
    its own key: after rendering, the session holds there the entries that
    were tracked, one more than before when the add button of the field was
    pressed in this run and the same as before when not; whatever is nested
    in the field does not touch them. *)
Theorem add_entry_is_tracked H fs name spec (d : dict) prefix ss v ss' :
  normalize_spec spec = VDict d ->
  get_default d "value_type" (VStr "string") = VStr "list_of_objects" ->
  render_field H fs name spec prefix ss = Ok (v, ss') ->
  let key := prefix +:+ "_" +:+ name in
  let before := default [] (ss !! key) in
  ss' !! key = Some (tracked_entries H ss key) /\
  (button H (key +:+ "_add") = true ->
   tracked_entries H ss key = before ++ [VDict []] /\
   length (tracked_entries H ss key) = S (length before)) /\
  (button H (key +:+ "_add") = false -> tracked_entries H ss key = before).
Proof.
  intros Hnorm Hvt Hrun key before.
  rewrite render_field_eq, Hnorm in Hrun. unfold render_node in Hrun.
  rewrite Hvt in Hrun. simpl in Hrun.
  apply bind_Ok in Hrun as ([results ss1] & Hloop & Hok). injection Hok as _ <-.
  split; [|split].
  - rewrite (render_entries_frame _ _ _ _ _ _ _ (children_of_frame H fs d) Hloop key)
      by (fold key; lia).
    apply lookup_insert_eq.
  - intros Hclick. unfold tracked_entries. fold key. rewrite Hclick.
    split; [reflexivity|]. rewrite length_app. simpl. fold before. lia.
  - intros Hclick. unfold tracked_entries. fold key. rewrite Hclick. reflexivity.
Qed.

Lemma add_entry_is_tracked_witness :
  exists v ss',
    render_field (Host ∅ {[ "Taxon_synonyms_add" ]} (fun _ => "") plain_yaml) [] "synonyms"
      (VDict synonyms_spec) "Taxon" ∅ = Ok (v, ss') /\
    ss' !! "Taxon_synonyms" = Some [VDict []].
Proof.
  eexists _, _. split; [vm_compute; reflexivity|].
  exact (proj1 (add_entry_is_tracked (Host ∅ {[ "Taxon_synonyms_add" ]} (fun _ => "") plain_yaml) []
                  "synonyms" (VDict synonyms_spec) synonyms_spec "Taxon" ∅ VNone _
                  eq_refl eq_refl eq_refl)).
Defined.

(** ** Runs without a click *)

Lemma no_click H key : clicked H = ∅ -> button H key = false.
Proof. intros Hnone. unfold button. rewrite Hnone. reflexivity. Qed.

Lemma setdefault_grows (ss : session) key :
  ss ⊆ <[key := default [] (ss !! key)]> ss.
Proof.
  destruct (ss !! key) as [e|] eqn:Hk; simpl.
  - rewrite insert_id by exact Hk. reflexivity.
  - apply insert_subseteq, Hk.
Qed.

Lemma render_items_settled
    (render : string -> value -> string -> session -> result (value * session))
    prefix (items : dict) :
  Forall (fun kv => forall name pre, settled (render name kv.2 pre)) items ->
  forall entry, settled (render_items render prefix items entry).
Proof.
  induction 1 as [|[fname fspec] rest Hspec _ IH]; intros entry ss entry' ss'; simpl.
  - intros [= <- <-]. split; [reflexivity|]. intros t _. reflexivity.
  - destruct (render fname fspec prefix ss) as [[val ss1]|e] eqn:Hval; simpl; [|discriminate].
    intros Hrest.
    destruct (Hspec _ _ _ _ _ Hval) as [Hgrow1 Hagain1].
    destruct (IH _ _ _ _ Hrest) as [Hgrow2 Hagain2].
    split; [etrans; eassumption|].
    intros t Ht. rewrite Hagain1 by (etrans; eassumption). simpl. apply Hagain2, Ht.
Qed.

Lemma render_entries_settled
    (children : string -> session -> result (dict * session)) key idxs :
  (forall pre, settled (children pre)) ->
  forall results, settled (render_entries children key idxs results).
Proof.
  intros Hchildren.
  induction idxs as [|i rest IH]; intros results ss results' ss'; simpl.
  - intros [= <- <-]. split; [reflexivity|]. intros t _. reflexivity.
  - destruct (children _ ss) as [[entry ss1]|e] eqn:Hentry; simpl; [|discriminate].
    intros Hrest.
    destruct (Hchildren _ _ _ _ Hentry) as [Hgrow1 Hagain1].
    destruct (IH _ _ _ _ Hrest) as [Hgrow2 Hagain2].
    split; [etrans; eassumption|].
    intros t Ht. rewrite Hagain1 by (etrans; eassumption). simpl. apply Hagain2, Ht.
Qed.

Lemma render_node_settled H fs name (d : dict) prefix children :
  clicked H = ∅ ->
  (forall pre, settled (children pre)) ->
  settled (fun ss => render_node H fs name d prefix ss children).
Proof.
  intros Hnone Hchildren ss v ss' Hrun. unfold render_node in *.
  destruct (is_str _ "string").
  { injection Hrun as <- <-. split; [reflexivity|]. intros t _. reflexivity. }
  destruct (is_str _ "integer").
  { injection Hrun as <- <-. split; [reflexivity|]. intros t _. reflexivity. }
  destruct (is_str _ "float").
  { injection Hrun as <- <-. split; [reflexivity|]. intros t _. reflexivity. }
  destruct (is_str _ "controlled_vocab").
  { apply bind_Ok in Hrun as (vocab & Hvocab & Hok). injection Hok as <- <-.
    split; [reflexivity|]. intros t _. rewrite Hvocab. reflexivity. }
  destruct (is_str _ "reference").
  { apply bind_Ok in Hrun as (known & Hknown & Hok). rewrite Hknown. simpl.
    destruct known as [directory|].
    - apply bind_Ok in Hok as (ids & Hids & Hok). rewrite Hids. simpl.
      injection Hok as <- <-. split; [reflexivity|]. intros t _. reflexivity.
    - injection Hok as <- <-. split; [reflexivity|]. intros t _. reflexivity. }
  destruct (is_str _ "object").
  { apply bind_Ok in Hrun as ([obj ss1] & Hobj & Hok). injection Hok as <- <-.
    destruct (Hchildren _ _ _ _ Hobj) as [Hgrow Hagain].
    split; [exact Hgrow|]. intros t Ht. rewrite (Hagain t Ht). reflexivity. }
  destruct (is_str _ "list_of_objects").
  2:{ injection Hrun as <- <-. split; [reflexivity|]. intros t _. reflexivity. }
  apply bind_Ok in Hrun as ([results ss1] & Hloop & Hok). injection Hok as <- <-.
  unfold tracked_entries in *. rewrite (no_click H _ Hnone) in *.
  destruct (render_entries_settled _ _ _ Hchildren _ _ _ _ Hloop) as [Hgrow Hagain].
  split; [etrans; [apply setdefault_grows | exact Hgrow]|].
  intros t Ht.
  assert (t !! (prefix +:+ "_" +:+ name)
          = Some (default [] (ss !! (prefix +:+ "_" +:+ name)))) as Hkey.
  { eapply lookup_weaken; [|exact Ht]. eapply lookup_weaken; [|exact Hgrow].
    apply lookup_insert_eq. }
  rewrite Hkey. simpl. rewrite (insert_id t _ _ Hkey).
  rewrite (Hagain t Ht). reflexivity.
Qed.

(** With no button pressed, rendering a field only adds to the session, and
    on every session that holds what it left it returns the same value and
    leaves that session as it is. *)
Lemma render_field_settled H fs spec :
  clicked H = ∅ ->
  forall name prefix, settled (render_field H fs name spec prefix).
Proof.
  intros Hnone.
  assert (Hnode : forall name (d : dict) prefix,
            (forall pre, settled (children_of H fs d pre)) ->
            forall spec', normalize_spec spec' = VDict d ->
            settled (render_field H fs name spec' prefix)).
  { intros name d prefix Hchildren spec' Hnorm ss v ss' Hrun.
    rewrite render_field_eq, Hnorm in Hrun.
    destruct (render_node_settled H fs name d prefix _ Hnone Hchildren _ _ _ Hrun)
      as [Hgrow Hagain].
    split; [exact Hgrow|]. intros t Ht. rewrite render_field_eq, Hnorm.
    exact (Hagain t Ht). }
  induction spec as [s|d IH|other Hs Hd] using spec_fields_ind; intros name prefix.
  - apply (Hnode name [("value_type", VStr s)]); [|reflexivity].
    intros pre st entry st' [= <- <-]. split; [reflexivity|]. intros t _. reflexivity.
  - apply (Hnode name d); [|reflexivity].
    intros pre. unfold children_of, get_default.
    destruct (dict_get d "fields") as [fields|] eqn:Hget.
    + destruct fields; try (intros st entry st'; discriminate). simpl.
      apply render_items_settled. exact (IH _ eq_refl).
    + simpl. intros st entry st' [= <- <-]. split; [reflexivity|]. intros t _. reflexivity.
  - intros ss v ss'. rewrite render_field_eq.
    destruct other; try discriminate.
    + destruct (Hs s eq_refl).
    + destruct (Hd d eq_refl).
Qed.

(** X11. While no button is pressed, rendering a field only adds to the
    session, and rendering it again on the session it left gives the same
    value and leaves that session as it is: the lists of entries that a
    first run has set up are found again, at every depth. *)
Theorem rerender_without_click H fs name spec prefix ss v ss' :
  clicked H = ∅ ->
  render_field H fs name spec prefix ss = Ok (v, ss') ->
  ss ⊆ ss' /\ render_field H fs name spec prefix ss' = Ok (v, ss').
Proof.
  intros Hnone Hrun.
  destruct (render_field_settled H fs spec Hnone name prefix _ _ _ Hrun) as [Hgrow Hagain].
  split; [exact Hgrow|]. apply Hagain. reflexivity.
Qed.

Lemma rerender_without_click_witness :
  exists v ss',
    render_field idle_host [] "synonyms" (VDict synonyms_spec) "Taxon" ∅ = Ok (v, ss') /\
    ss' !! "Taxon_synonyms" = Some [] /\
    render_field idle_host [] "synonyms" (VDict synonyms_spec) "Taxon" ss' = Ok (v, ss').
Proof.
  eexists _, _. split; [vm_compute; reflexivity|]. split; [reflexivity|].
  exact (proj2 (rerender_without_click idle_host [] "synonyms" (VDict synonyms_spec)
                  "Taxon" ∅ _ _ eq_refl eq_refl)).
Defined.

(** X12. A run of the entity tab in which no button is pressed writes no
    file and only adds to the session, and the next run with the same
    entries shows the same thing and leaves the session as it is. *)
Theorem entity_tab_rerun H n sp fs ss o fs' ss' :
  clicked H = ∅ ->
  entity_tab H n sp fs ss = Ok (o, fs', ss') ->
  fs' = fs /\ ss ⊆ ss' /\ entity_tab H n sp fs ss' = Ok (o, fs, ss').
Proof.
  unfold entity_tab. intros Hnone Hrun.
  step Hrun as directory Hdir. rewrite Hdir. simpl.
  step Hrun as loaded Hloaded. rewrite Hloaded. simpl.
  step Hrun as schema Hschema. rewrite Hschema. simpl.
  step Hrun as ids Hids. rewrite Hids. simpl.
  destruct (negb (is_str _ new_choice)).
  { step Hrun as doc Hdoc. rewrite Hdoc. simpl. injection Hrun as <- <- <-.
    split; [reflexivity|]. split; reflexivity. }
  step Hrun as fields Hfields. rewrite Hfields. simpl.
  step Hrun as items Hitems. rewrite Hitems. simpl.
  step Hrun as [payload ss1] Hform.
  rewrite (no_click H _ Hnone) in *. injection Hrun as <- <- <-.
  destruct (render_items_settled (render_field H fs) n items) with
    (entry := @nil (string * value)) (ss := ss) (a := payload) (ss' := ss1)
    as [Hgrow Hagain].
  - apply Forall_forall. intros kv _ name pre. apply render_field_settled, Hnone.
  - exact Hform.
  - split; [reflexivity|]. split; [exact Hgrow|].
    rewrite (Hagain ss1) by reflexivity. reflexivity.
Qed.

Lemma entity_tab_rerun_witness :
  exists ss',
    entity_tab synonyms_host "Taxon" taxon_schema_path
      (taxon_schema_file fields_with_synonyms) synonyms_session
    = Ok (Form [("synonyms", VList [VDict [("name", VStr "A")]])],
          taxon_schema_file fields_with_synonyms, ss') /\
    entity_tab synonyms_host "Taxon" taxon_schema_path
      (taxon_schema_file fields_with_synonyms) ss'
    = Ok (Form [("synonyms", VList [VDict [("name", VStr "A")]])],
          taxon_schema_file fields_with_synonyms, ss').
Proof.
  eexists. split; [vm_compute; reflexivity|].
  exact (proj2 (proj2 (entity_tab_rerun synonyms_host "Taxon" taxon_schema_path
                         (taxon_schema_file fields_with_synonyms) synonyms_session
                         _ _ _ eq_refl eq_refl))).
Defined.

(** ** The assertions tab: what the choices refer to *)

Lemma dict_get_set (d : dict) k k' v :
  dict_get (dict_set d k v) k' = if String.eqb k k' then Some v else dict_get d k'.
Proof.
  destruct (String.eqb_spec k k') as [<-|Hne].
  - apply dict_get_set_eq.
  - apply dict_get_set_ne. congruence.
Qed.

Lemma same_key_true a b : same_key a b = true <-> key_of a = key_of b.
Proof. unfold same_key. apply bool_decide_eq_true. Qed.

Lemma same_key_false a b : same_key a b = false <-> key_of a <> key_of b.
Proof. unfold same_key. apply bool_decide_eq_false. Qed.

Lemma index_get_set (d : index) k k' v :
  index_get (index_set d k v) k' = if same_key k k' then Some v else index_get d k'.
Proof.
  induction d as [|[k0 v0] rest IH]; simpl; [reflexivity|].
  destruct (same_key k0 k) eqn:H0k; simpl.
  - apply same_key_true in H0k.
    destruct (same_key k0 k') eqn:H0k', (same_key k k') eqn:Hkk'; try reflexivity.
    + apply same_key_true in H0k'. apply same_key_false in Hkk'. congruence.
    + apply same_key_false in H0k'. apply same_key_true in Hkk'. congruence.
  - rewrite IH. apply same_key_false in H0k.
    destruct (same_key k0 k') eqn:H0k', (same_key k k') eqn:Hkk'; try reflexivity.
    apply same_key_true in H0k', Hkk'. congruence.
Qed.

Lemma index_traits_spec ts :
  forall acc traits,
    index_traits ts acc = Ok traits ->
    forall k t,
      index_get traits k = Some t <->
      (exists pre post, ts = pre ++ t :: post /\ has_trait_id k t /\
                        Forall (fun u => ~ has_trait_id k u) post) \/
      (index_get acc k = Some t /\ Forall (fun u => ~ has_trait_id k u) ts).
Proof.
  induction ts as [|u rest IH]; intros acc traits; simpl.
  - intros [= <-] k t. split.
    + intros Hget. right. split; [exact Hget | constructor].
    + intros [(pre & post & Heq & _)|[Hget _]]; [destruct pre; discriminate | exact Hget].
  - destruct (py_getitem u "trait_id") as [id|e] eqn:Hid; simpl; [|discriminate].
    destruct (hashable id); [|discriminate].
    intros Hrest k t. rewrite (IH _ _ Hrest k t), index_get_set.
    destruct (same_key id k) eqn:Hk.
    + assert (Hu : has_trait_id k u) by (exists id; auto).
      split.
      * intros [(pre & post & -> & Ht & Hpost)|[[= <-] Hnone]].
        -- left. exists (u :: pre), post. auto.
        -- left. exists [], rest. auto.
      * intros [(pre & post & Heq & Ht & Hpost)|[_ Hnone]].
        -- destruct pre as [|u' pre]; simpl in Heq; injection Heq as -> ->.
           ++ right. auto.
           ++ left. eauto.
        -- apply Forall_cons in Hnone as [Hno _]. destruct (Hno Hu).
    + assert (Hu : ~ has_trait_id k u).
      { intros (id' & Hid' & Hk'). rewrite Hid in Hid'. injection Hid' as <-. congruence. }
      split.
      * intros [(pre & post & -> & Ht & Hpost)|[Hget Hnone]].
        -- left. exists (u :: pre), post. auto.
        -- right. split; [exact Hget|]. constructor; assumption.
      * intros [(pre & post & Heq & Ht & Hpost)|[Hget Hnone]].
        -- destruct pre as [|u' pre]; simpl in Heq; injection Heq as -> ->.
           ++ destruct (Hu Ht).
           ++ left. eauto.
        -- right. split; [exact Hget|]. apply Forall_cons in Hnone as [_ Hnone]. exact Hnone.
Qed.

(** The keys of the index are identifiers the traits declare. *)
Lemma index_traits_keys ts :
  forall acc traits,
    index_traits ts acc = Ok traits ->
    forall k, k ∈ map fst traits ->
      k ∈ map fst acc \/ exists t, t ∈ ts /\ py_getitem t "trait_id" = Ok k /\ hashable k = true.
Proof.
  assert (Hset : forall (d : index) k v k', k' ∈ map fst (index_set d k v) ->
                                            k' ∈ map fst d \/ k' = k).
  { induction d as [|[k0 v0] rest IHd]; intros k v k'; simpl.
    - intros Hin. apply list_elem_of_singleton in Hin. auto.
    - destruct (same_key k0 k); simpl; [auto|].
      intros Hin. apply elem_of_cons in Hin as [->|Hin]; [left; left|].
      destruct (IHd _ _ _ Hin) as [Hrest| ->]; [left; right; exact Hrest | auto]. }
  induction ts as [|u rest IH]; intros acc traits; simpl.
  - intros [= <-] k Hin. auto.
  - destruct (py_getitem u "trait_id") as [id|e] eqn:Hid; simpl; [|discriminate].
    destruct (hashable id) eqn:Hhash; [|discriminate].
    intros Hrest k Hin. destruct (IH _ _ Hrest k Hin) as [Hacc|(t & Ht & Hk & Hh)].
    + destruct (Hset _ _ _ _ Hacc) as [Hold| ->]; [auto|].
      right. exists u. split; [left | auto].
    + right. exists t. split; [right; exact Ht | auto].
Qed.

(** X13. In the index the assertions tab builds from the traits of a
    domain, an identifier that several traits declare stands for the last
    of them: the trait found under a key is the one declared under an
    identifier equal to that key (as Python compares keys: [1], [1.0] and
    [True] are equal) that no later trait of the file redeclares. *)
Theorem last_trait_definition_wins ts traits k t :
  index_traits ts [] = Ok traits ->
  index_get traits k = Some t <->
  exists pre post, ts = pre ++ t :: post /\ has_trait_id k t /\
                   Forall (fun u => ~ has_trait_id k u) post.
Proof.
  intros Hrun. rewrite (index_traits_spec ts [] traits Hrun k t). split.
  - intros [Hlast|[[=] _]]. exact Hlast.
  - intros Hlast. left. exact Hlast.
Qed.

Lemma last_trait_definition_wins_witness :
  index_get [(VInt 1, VDict [("trait_id", VFloat (PyFloat 1 0)); ("value_type", VStr "float")])]
            (VBool true)
  = Some (VDict [("trait_id", VFloat (PyFloat 1 0)); ("value_type", VStr "float")]).
Proof.
  apply (last_trait_definition_wins
           [VDict [("trait_id", VInt 1); ("value_type", VStr "integer")];
            VDict [("trait_id", VFloat (PyFloat 1 0)); ("value_type", VStr "float")]]
           _ (VBool true) _ eq_refl).
  exists [VDict [("trait_id", VInt 1); ("value_type", VStr "integer")]], [].
  split; [reflexivity|]. split; [|constructor].
  exists (VFloat (PyFloat 1 0)). split; reflexivity.
Defined.

Lemma id_choice_chosen H fs collection directory label v :
  DIRS !! collection = Some directory ->
  id_choice H fs collection label = Ok v -> chosen_from fs directory v.
Proof.
  unfold id_choice, dirs_at. intros -> Hc. simpl in Hc.
  apply bind_Ok in Hc as (ids & Hids & Hc). injection Hc as <-.
  pose proof (selectbox_elem H (VStr none_choice :: map VStr ids) label) as Hin.
  specialize (Hin ltac:(discriminate)).
  apply elem_of_cons in Hin as [->|Hin]; [left; reflexivity|].
  apply list_elem_of_fmap in Hin as (x & -> & Hx). right. eauto.
Qed.

(** X14. Whatever the tab has collected when it reaches its save button
    refers to what the files hold: the domain is a directory of
    [data/assertions]; taxon, source and material are the sentinel or an
    identifier of a record of their collection; the trait identifier is
    one that a trait of the domain declares, whatever kind of value it is;
    and the feature is one of the features of the domain, or [None] when
    the domain has none. *)
Theorem selection_refers_to_records v H Q fs sel :
  gather v H Q fs = Ok sel ->
  (exists d kids sub,
     sel_domain sel = VStr d /\
     lookup_path fs (DATA // "assertions") = Some (Dir kids) /\
     (d, Dir sub) ∈ kids) /\
  chosen_from fs (DATA // "taxa") (sel_taxon_id sel) /\
  chosen_from fs (DATA // "sources") (sel_source_id sel) /\
  chosen_from fs (DATA // "materials") (sel_material_id sel) /\
  (exists tdoc ts t,
     load_traits fs (sel_domain sel) = Ok tdoc /\ py_iter tdoc = Ok ts /\
     t ∈ ts /\ py_getitem t "trait_id" = Ok (sel_trait_id sel) /\
     hashable (sel_trait_id sel) = true) /\
  (exists features,
     load_features fs (sel_domain sel) = Ok (VList features) /\
     (sel_feature sel ∈ features \/ features = [] /\ sel_feature sel = VNone)).
Proof.
  unfold gather. intros Hg.
  step Hg as directory Hdir.
  assert (directory = DATA // "assertions") as ->
    by (vm_compute in Hdir; injection Hdir as <-; reflexivity).
  step Hg as names Hnames.
  step Hg as _x _.
  step Hg as tdoc Htraits.
  step Hg as ts Hts.
  step Hg as traits Hindex.
  step Hg as features Hfeatures.
  step Hg as taxon_id Htaxon.
  step Hg as source_id Hsource.
  step Hg as material_id Hmaterial.
  step Hg as trait Htrait.
  step Hg as val _.
  injection Hg as <-. simpl.
  split; [|split; [|split; [|split; [|split]]]].
  - unfold load_traits in Htraits. apply bind_Ok in Htraits as (p & Hp & _).
    unfold domain_file in Hp.
    pose proof (selectbox_none_or_elem H (VList (map VStr (sorted names))) "Domain") as Hsel.
    destruct (selectbox H (VList (map VStr (sorted names))) "Domain") as [| | | |d| |];
      try discriminate.
    destruct Hsel as [[=]|Hin]. simpl in Hin.
    apply list_elem_of_fmap in Hin as (d' & [= <-] & Hin).
    unfold sorted in Hin. rewrite merge_sort_Permutation in Hin.
    unfold iterdir_dirs in Hnames.
    apply bind_Ok in Hnames as (found & Hstat & Hnames).
    apply stat_Ok in Hstat as [Hlook _].
    destruct found as [doc|kids]; [discriminate|].
    injection Hnames as <-.
    apply list_elem_of_omap in Hin as ([n x] & Hkid & Hdirn). simpl in Hdirn.
    destruct x as [doc|sub]; [discriminate|]. injection Hdirn as ->.
    exists d, kids, sub. auto.
  - exact (id_choice_chosen H fs "Taxon" (DATA // "taxa") _ _ eq_refl Htaxon).
  - exact (id_choice_chosen H fs "Source" (DATA // "sources") _ _ eq_refl Hsource).
  - exact (id_choice_chosen H fs "Material" (DATA // "materials") _ _ eq_refl Hmaterial).
  - destruct traits as [|[k0 v0] traits'] eqn:Htraits'.
    + simpl in Htrait. rewrite selectbox_empty in Htrait. discriminate Htrait.
    + pose proof (selectbox_elem H (map fst ((k0, v0) :: traits')) "trait *"
                    ltac:(discriminate)) as Hin.
      destruct (index_traits_keys ts [] _ Hindex _ Hin) as [Hno|(t' & Ht' & Hk & Hh)];
        [inversion Hno|].
      exists tdoc, ts, t'. auto.
  - pose proof Hfeatures as Hlist. unfold load_features in Hlist.
    apply bind_Ok in Hlist as (p & _ & Hlist).
    apply bind_Ok in Hlist as (doc & _ & Hlist).
    apply bind_Ok in Hlist as (fl & _ & Hlist).
    apply bind_Ok in Hlist as (ids & _ & Hlist). injection Hlist as <-.
    exists ids. split; [exact Hfeatures|].
    destruct (selectbox_none_or_elem H (VList ids) "feature *") as [Hnone|Hin].
    + destruct ids as [|i ids]; [right; auto|].
      left. rewrite Hnone. pose proof (selectbox_elem H (i :: ids) "feature *") as Hin.
      rewrite Hnone in Hin. apply Hin. discriminate.
    + left. exact Hin.
Qed.

Lemma selection_refers_to_records_witness :
  exists sel,
    gather App8 demo_host_numbered demo_qualifiers demo_files_numbered = Ok sel /\
    sel_trait_id sel = VInt 2024 /\
    chosen_from demo_files_numbered (DATA // "taxa") (sel_taxon_id sel).
Proof.
  eexists. split; [vm_compute; reflexivity|]. split; [reflexivity|].
  exact (proj1 (proj2 (selection_refers_to_records App8 demo_host_numbered demo_qualifiers
                         demo_files_numbered _ eq_refl))).
Defined.

(** ** The qualifiers and the router *)

Lemma dict_has_set (d : dict) k k' v :
  dict_has (dict_set d k v) k' = true <-> k = k' \/ dict_has d k' = true.
Proof.
  unfold dict_has. rewrite dict_get_set.
  destruct (String.eqb_spec k k') as [->|Hne].
  - split; auto.
  - split; [auto|]. intros [Heq|Hhas]; [destruct (Hne Heq) | exact Hhas].
Qed.

Lemma load_each_spec fs qdir names :
  forall acc Q,
    load_each fs qdir names acc = Ok Q ->
    Forall (fun n => exists doc, load_yaml fs (qdir ++ [n]) = Ok doc) names /\
    forall k, dict_has Q k = true <-> dict_has acc k = true \/ k ∈ map stem names.
Proof.
  induction names as [|n rest IH]; intros acc Q; simpl.
  - intros [= <-]. split; [constructor|]. intros k. split; [auto|].
    intros [Hhas|Hin]; [exact Hhas | inversion Hin].
  - destruct (load_yaml fs (qdir ++ [n])) as [doc|e] eqn:Hdoc; simpl; [|discriminate].
    intros Hrest. destruct (IH _ _ Hrest) as [Hloads Hkeys].
    split; [constructor; eauto|].
    intros k. rewrite Hkeys, dict_has_set, elem_of_cons. split.
    + intros [[<-|Hhas]|Hin]; auto.
    + intros [Hhas|[->|Hin]]; auto.
Qed.

(** X16. Every page needs the qualifier vocabularies: a run of the
    application returns only if each entry [*.yaml] of
    [ontology/qualifiers] is a file that loads, also on the entity pages,
    which use no qualifier; and the vocabularies are then known by the
    stems of these entries. *)
Theorem main_needs_every_qualifier_file v H fs ss r :
  main v H fs ss = Ok r ->
  Forall (fun n => exists doc, load_yaml fs (ONTOLOGY // "qualifiers" ++ [n]) = Ok doc)
         (glob_yaml fs (ONTOLOGY // "qualifiers")) /\
  exists Q,
    load_qualifiers fs = Ok Q /\
    forall k, dict_has Q k = true <-> k ∈ map stem (glob_yaml fs (ONTOLOGY // "qualifiers")).
Proof.
  unfold main. intros Hrun. step Hrun as Q HQ.
  destruct (load_each_spec _ _ _ _ _ HQ) as [Hloads Hkeys].
  split; [exact Hloads|]. exists Q. split; [exact HQ|].
  intros k. rewrite Hkeys. split; [|auto].
  intros [Hhas|Hin]; [discriminate Hhas | exact Hin].
Qed.

Lemma main_needs_every_qualifier_file_witness :
  exists doc, load_yaml demo_files (ONTOLOGY // "qualifiers" ++ ["life_stage.yaml"]) = Ok doc.
Proof.
  assert (Hrun : main App8 (Host {[ "Navigate" := WChoice 3 ]} ∅ (fun _ => "") plain_yaml) demo_files ∅
                 = Ok (Idle, demo_files, ∅)) by (vm_compute; reflexivity).
  destruct (main_needs_every_qualifier_file _ _ _ _ _ Hrun) as [Hloads _].
  exact (Forall_inv Hloads).
Defined.

(** X17. A run of the application writes to the files only when it reports
    a success: whatever the page, with any other outcome the files are
    the ones the run was given, and so they are after a run in which no
    button is pressed. *)
Theorem main_keeps_files v H fs ss o fs' ss' :
  main v H fs ss = Ok (o, fs', ss') ->
  ((forall msg, o <> Success msg) -> fs' = fs) /\
  (clicked H = ∅ -> fs' = fs).
Proof.
  assert (Hentity : forall n sp,
            entity_tab H n sp fs ss = Ok (o, fs', ss') ->
            ((forall msg, o <> Success msg) -> fs' = fs) /\ (clicked H = ∅ -> fs' = fs)).
  { unfold entity_tab. intros n sp Hrun.
    step Hrun as directory ?.
    step Hrun as loaded ?.
    step Hrun as schema ?.
    step Hrun as ids ?.
    destruct (negb (is_str _ new_choice)).
    { step Hrun as doc ?. injection Hrun as <- <- <-. auto. }
    step Hrun as fields ?.
    step Hrun as items ?.
    step Hrun as [payload ss1] ?.
    destruct (button H _) eqn:Hclick.
    - assert (Hsome : clicked H = ∅ -> fs' = fs).
      { intros Hnone. rewrite (no_click H _ Hnone) in Hclick. discriminate. }
      split; [|exact Hsome].
      step Hrun as missing ?.
      destruct missing; [|injection Hrun as <- <- <-; reflexivity].
      destruct (negb (truthy _)); [injection Hrun as <- <- <-; reflexivity|].
      step Hrun as fs1 ?. injection Hrun as <- <- <-.
      intros Hno. destruct (Hno _ eq_refl).
    - injection Hrun as <- <- <-. auto. }
  unfold main. intros Hrun. step Hrun as Q ?.
  destruct (is_str _ "Taxa"); [eapply Hentity, Hrun|].
  destruct (is_str _ "Sources"); [eapply Hentity, Hrun|].
  destruct (is_str _ "Materials"); [eapply Hentity, Hrun|].
  step Hrun as [o1 fs1] Htab. injection Hrun as <- <- <-.
  unfold assertions_tab in Htab. step Htab as sel ?.
  destruct (button H _) eqn:Hclick.
  - split.
    + unfold save_assertion in Htab.
      destruct (_ || _); [injection Htab as <- <-; reflexivity|].
      step Htab as p ?. step Htab as fs2 ?. injection Htab as <- <-.
      intros Hno. destruct (Hno _ eq_refl).
    + intros Hnone. rewrite (no_click H _ Hnone) in Hclick. discriminate.
  - injection Htab as <- <-. auto.
Qed.

Lemma main_keeps_files_witness :
  exists o fs' ss',
    main App8 save_host (taxon_schema_file fields_with_mappings) ∅ = Ok (o, fs', ss') /\
    (forall msg, o <> Success msg) /\
    fs' = taxon_schema_file fields_with_mappings.
Proof.
  eexists _, _, _. split; [vm_compute; reflexivity|]. split; [discriminate|].
  apply (proj1 (main_keeps_files App8 save_host (taxon_schema_file fields_with_mappings) ∅
                  (Error "Missing required fields: taxon_id") _ _ eq_refl)).
  discriminate.
Defined.

(** ** The assertions tab without a domain *)

(** X18. When [data/assertions] holds no directory, the assertions tab
    shows nothing: the domain chosen is [None], with which [app8.py] fails
    on the path of the traits ([TypeError]), and [app7.py] returns nothing
    either. *)
Theorem assertions_tab_without_domain H Q fs :
  iterdir_dirs fs (DATA // "assertions") = Ok [] ->
  assertions_tab App8 H Q fs = Raise TypeError /\
  forall r, assertions_tab App7 H Q fs <> Ok r.
Proof.
  intros Hnames.
  assert (Hdir : dirs_at "Assertions" = Ok (DATA // "assertions"))
    by (vm_compute; reflexivity).
  unfold assertions_tab, gather. rewrite Hdir. simpl mbind. rewrite Hnames. simpl mbind.
  rewrite !selectbox_empty. split; [reflexivity|].
  intros r Hrun.
  destruct (load_schema fs _) as [schema|e]; discriminate.
Qed.

Lemma assertions_tab_without_domain_witness :
  assertions_tab App8 idle_host [] [("data", Dir [("assertions", Dir [])])] = Raise TypeError.
Proof.
  exact (proj1 (assertions_tab_without_domain idle_host []
                  [("data", Dir [("assertions", Dir [])])] eq_refl)).
Defined.

(** ** Saving, then viewing *)

(** X19. A record that has been saved under a string identifier is shown
    by a later run whose chooser stands on that identifier, whatever else
    that run has entered: it shows what PyYAML reads back from the text it
    dumped for the record, which is the record itself whenever the record
    reads back as dumped. This needs the identifier not to be the label of
    the new-record choice, and the record not to have taken the place of
    the schema file. *)
Theorem saved_record_can_be_viewed
    H n sp fs ss directory (items payload : dict) ss1 msg fs' x doc H' ss'' :
  DIRS !! n = Some directory ->
  entity_fields fs sp n = Ok items ->
  render_items (render_field H fs) n items [] ss = Ok (payload, ss1) ->
  entity_tab H n sp fs ss = Ok (Success msg, fs', ss1) ->
  dict_get payload (lower n +:+ "_id") = Some (VStr x) ->
  yaml_reads H (VDict payload) = Some doc ->
  directory // (x +:+ ".yaml") <> sp ->
  x <> new_choice ->
  selectbox H' (VList (VStr new_choice :: map VStr (ids_of fs' directory)))
            (n +:+ "_select") = VStr x ->
  entity_tab H' n sp fs' ss'' = Ok (Shown doc, fs', ss'').
Proof.
  intros Hdir Hfields Hform Hrun Hid Hreads Hsp Hnew Hchoice.
  apply entity_save_inv in Hrun
    as (directory' & items' & payload' & Hdir' & Hfields' & Hform' & _ & _ & _ & Hsave & _).
  rewrite Hdir in Hdir'. injection Hdir' as <-.
  rewrite Hfields in Hfields'. injection Hfields' as <-.
  rewrite Hform in Hform'. injection Hform' as <-.
  unfold get_default in Hsave. rewrite Hid in Hsave. simpl in Hsave.
  pose proof (load_after_save _ _ _ _ _ Hsave) as Hload. rewrite Hreads in Hload.
  apply save_yaml_written in Hsave as (_ & Hothers & _).
  unfold entity_fields in Hfields.
  apply bind_Ok in Hfields as (loaded & Hloaded & Hfields).
  apply bind_Ok in Hfields as (schema & Hschema & _).
  unfold load_schema in Hloaded. apply load_yaml_Ok in Hloaded as [Hloaded Hacc].
  apply (Hothers sp (Some loaded)) in Hloaded; [|congruence].
  pose proof (proj2 (load_yaml_Ok fs' sp loaded) (conj Hloaded Hacc)) as Hschema'.
  unfold entity_tab, dirs_at, load_schema. rewrite Hdir. simpl.
  rewrite Hschema'. simpl. rewrite Hschema. simpl.
  rewrite (list_yaml_ids_DIRS fs' _ _ Hdir). simpl. rewrite Hchoice.
  rewrite is_str_false by congruence. simpl.
  rewrite Hload. reflexivity.
Qed.

Lemma saved_record_can_be_viewed_witness :
  entity_tab view_host "Taxon" taxon_schema_path taxon_saved ∅
  = Ok (Shown (VDict [("taxon_id", VStr "Taxon_001")]), taxon_saved, ∅).
Proof.
  apply (saved_record_can_be_viewed taxon_host "Taxon" taxon_schema_path
           (taxon_schema_file taxon_fields) ∅ (DATA // "taxa") taxon_fields
           [("taxon_id", VStr "Taxon_001")] ∅ "Taxon saved" taxon_saved "Taxon_001").
  - reflexivity.
  - reflexivity.
  - reflexivity.
  - vm_compute. reflexivity.
  - reflexivity.
  - reflexivity.
  - discriminate.
  - discriminate.
  - reflexivity.
Defined.

(** ** Fields of a type the renderer does not know *)

Lemma is_str_other v s : v <> VStr s -> is_str v s = false.
Proof.
  intros Hne. destruct (is_str v s) eqn:Hv; [|reflexivity].
  apply is_str_true in Hv. contradiction.
Qed.

Lemma render_unknown_type H fs name (d : dict) prefix ss :
  unknown_type d -> render_field H fs name (VDict d) prefix ss = Ok (VNone, ss).
Proof.
  unfold unknown_type, value_types, value_type_of. intros Hunknown.
  rewrite render_field_eq. simpl normalize_spec. unfold render_node.
  rewrite !is_str_other; [reflexivity| |..];
    apply Hunknown; repeat first [left | right].
Qed.

Lemma dict_get_elem (d : dict) k v : dict_get d k = Some v -> (k, v) ∈ d.
Proof.
  induction d as [|[k' v'] rest IH]; simpl; [discriminate|].
  destruct (String.eqb_spec k' k) as [->|Hne].
  - intros [= ->]. left.
  - intros Hget. right. auto.
Qed.

Lemma unique_spec (items : dict) f s1 s2 :
  NoDup (map fst items) -> (f, s1) ∈ items -> (f, s2) ∈ items -> s1 = s2.
Proof.
  induction items as [|[k v] rest IH]; simpl; intros Hnodup H1 H2; [inversion H1|].
  apply NoDup_cons in Hnodup as [Hk Hrest].
  apply elem_of_cons in H1 as [H1|H1]; apply elem_of_cons in H2 as [H2|H2].
  - congruence.
  - injection H1 as -> ->. destruct Hk. apply (list_elem_of_fmap_2 fst _ _ H2).
  - injection H2 as -> ->. destruct Hk. apply (list_elem_of_fmap_2 fst _ _ H1).
  - auto.
Qed.

(** X20. A field whose value type is none of the seven the renderer knows
    yields [None] whatever is entered, so it never enters a record; when
    the schema marks such a field as required, no record of the entity can
    be saved. *)
Theorem required_field_of_unknown_type_blocks_save
    H n sp fs ss (items : dict) f (d : dict) msg fs' ss' :
  entity_fields fs sp n = Ok items ->
  NoDup (map fst items) ->
  (f, VDict d) ∈ items ->
  truthy (get_default d "required" VNone) = true ->
  unknown_type d ->
  render_field H fs f (VDict d) n ss = Ok (VNone, ss) /\
  entity_tab H n sp fs ss <> Ok (Success msg, fs', ss').
Proof.
  intros Hfields Hnodup Hin Hreq Hunknown.
  split; [apply render_unknown_type, Hunknown|].
  intros Hrun.
  apply entity_save_inv in Hrun
    as (directory & items' & payload & _ & Hfields' & Hform & _ & Hmissing & _).
  rewrite Hfields in Hfields'. injection Hfields' as <-.
  pose proof (required_missing_nil _ _ Hmissing f (VDict d) Hin Hreq) as Hhas.
  unfold dict_has in Hhas.
  destruct (dict_get payload f) as [v|] eqn:Hget; [|discriminate].
  apply dict_get_elem in Hget.
  pose proof (render_items_fields
                (fun spec v => exists name pre s s',
                   render_field H fs name spec pre s = Ok (v, s') /\ omitted v = false)
                (render_field H fs) n items items [] payload ss ss') as Hstored.
  assert (Hall : fields_stored
            (fun spec v => exists name pre s s',
               render_field H fs name spec pre s = Ok (v, s') /\ omitted v = false)
            items payload).
  { apply Hstored.
    - auto.
    - apply Forall_forall. intros kv _ name pre s v0 s' Hrender Hkept. eauto 6.
    - apply Forall_nil_2.
    - exact Hform. }
  unfold fields_stored in Hall. rewrite Forall_forall in Hall.
  destruct (Hall _ Hget) as (fspec & Hspec & name & pre & s & s' & Hrender & Hkept).
  simpl in Hspec. rewrite (unique_spec items f fspec (VDict d) Hnodup Hspec Hin) in Hrender.
  rewrite (render_unknown_type _ _ _ _ _ _ Hunknown) in Hrender.
  injection Hrender as <- _. discriminate Hkept.
Qed.

Lemma required_field_of_unknown_type_blocks_save_witness :
  entity_tab taxon_host "Taxon" taxon_schema_path (taxon_schema_file fields_with_boolean) ∅
  <> Ok (Success "Taxon saved", taxon_saved, ∅).
Proof.
  apply (required_field_of_unknown_type_blocks_save taxon_host "Taxon" taxon_schema_path
           (taxon_schema_file fields_with_boolean) ∅ fields_with_boolean "alive"
           [("value_type", VStr "boolean"); ("required", VBool true)]).
  - reflexivity.
  - apply NoDup_cons. split; [|apply NoDup_singleton].
    intros Hin. apply list_elem_of_singleton in Hin. discriminate.
  - right. left.
  - reflexivity.
  - intros t Hin. unfold value_types in Hin.
    repeat (apply elem_of_cons in Hin as [->|Hin]; [discriminate|]).
    inversion Hin.
Defined.

(** ** Entries are never dropped *)

Lemma grows_refl ss : grows ss ss.
Proof. intros k e Hk. exists []. rewrite app_nil_r. exact Hk. Qed.

Lemma grows_trans ss1 ss2 ss3 : grows ss1 ss2 -> grows ss2 ss3 -> grows ss1 ss3.
Proof.
  intros H12 H23 k e Hk.
  destruct (H12 _ _ Hk) as (m1 & Hk2). destruct (H23 _ _ Hk2) as (m2 & Hk3).
  exists (m1 ++ m2). rewrite app_assoc. exact Hk3.
Qed.

Lemma tracked_grows H ss key : grows ss (<[key := tracked_entries H ss key]> ss).
Proof.
  intros k e Hk. destruct (decide (key = k)) as [->|Hne].
  - rewrite lookup_insert_eq. unfold tracked_entries. rewrite Hk. simpl.
    destruct (button H _); [eauto|]. exists []. rewrite app_nil_r. reflexivity.
  - rewrite lookup_insert_ne by exact Hne. exists []. rewrite app_nil_r. exact Hk.
Qed.

Lemma render_items_grows
    (render : string -> value -> string -> session -> result (value * session))
    prefix (items : dict) :
  Forall (fun kv => forall name pre s v s',
            render name kv.2 pre s = Ok (v, s') -> grows s s') items ->
  forall entry ss entry' ss',
    render_items render prefix items entry ss = Ok (entry', ss') -> grows ss ss'.
Proof.
  induction 1 as [|[fname fspec] rest Hspec _ IH]; intros entry ss entry' ss'; simpl.
  - intros [= _ <-]. apply grows_refl.
  - destruct (render fname fspec prefix ss) as [[val ss1]|e] eqn:Hval; simpl; [|discriminate].
    intros Hrest. eapply grows_trans; [exact (Hspec _ _ _ _ _ Hval) | exact (IH _ _ _ _ Hrest)].
Qed.

Lemma render_entries_grows
    (children : string -> session -> result (dict * session)) key idxs :
  (forall pre s entry s', children pre s = Ok (entry, s') -> grows s s') ->
  forall results ss results' ss',
    render_entries children key idxs results ss = Ok (results', ss') -> grows ss ss'.
Proof.
  intros Hchildren.
  induction idxs as [|i rest IH]; intros results ss results' ss'; simpl.
  - intros [= _ <-]. apply grows_refl.
  - destruct (children _ ss) as [[entry ss1]|e] eqn:Hentry; simpl; [|discriminate].
    intros Hrest. eapply grows_trans; [exact (Hchildren _ _ _ _ Hentry) | exact (IH _ _ _ _ Hrest)].
Qed.

Lemma render_node_grows H fs name (d : dict) prefix ss children v ss' :
  (forall pre s entry s', children pre s = Ok (entry, s') -> grows s s') ->
  render_node H fs name d prefix ss children = Ok (v, ss') -> grows ss ss'.
Proof.
  intros Hchildren Hrun. unfold render_node in Hrun.
  destruct (is_str _ "string"); [injection Hrun as _ <-; apply grows_refl|].
  destruct (is_str _ "integer"); [injection Hrun as _ <-; apply grows_refl|].
  destruct (is_str _ "float"); [injection Hrun as _ <-; apply grows_refl|].
  destruct (is_str _ "controlled_vocab").
  { apply bind_Ok in Hrun as (vocab & _ & Hok). injection Hok as _ <-. apply grows_refl. }
  destruct (is_str _ "reference").
  { apply bind_Ok in Hrun as (known & _ & Hok).
    apply reference_branch in Hok as [-> _]. apply grows_refl. }
  destruct (is_str _ "object").
  { apply bind_Ok in Hrun as ([obj ss1] & Hobj & Hok). injection Hok as _ <-.
    exact (Hchildren _ _ _ _ Hobj). }
  destruct (is_str _ "list_of_objects"); [|injection Hrun as _ <-; apply grows_refl].
  apply bind_Ok in Hrun as ([results ss1] & Hloop & Hok). injection Hok as _ <-.
  eapply grows_trans; [apply tracked_grows|].
  exact (render_entries_grows _ _ _ Hchildren _ _ _ _ Hloop).
Qed.

Lemma render_field_grows H fs spec :
  forall name prefix ss v ss',
    render_field H fs name spec prefix ss = Ok (v, ss') -> grows ss ss'.
Proof.
  induction spec as [s|d IH|other Hs Hd] using spec_fields_ind;
    intros name prefix ss v ss'; rewrite render_field_eq.
  - apply render_node_grows. intros pre st entry st' [= _ <-]. apply grows_refl.
  - apply render_node_grows. intros pre st entry st'.
    unfold children_of, get_default.
    destruct (dict_get d "fields") as [fields|] eqn:Hget.
    + destruct fields; try discriminate. simpl.
      apply render_items_grows. exact (IH _ eq_refl).
    + simpl. intros [= _ <-]. apply grows_refl.
  - destruct other; try discriminate.
    + destruct (Hs s eq_refl).
    + destruct (Hd d eq_refl).
Qed.

(** X21. No run of the application drops an entry of a list field: every
    list of entries the session tracked before the run is tracked after
    it, with the entries it had, in their order, and possibly new ones
    after them. The program has no way to remove an entry once added. *)
Theorem entries_are_never_dropped v H fs ss o fs' ss' :
  main v H fs ss = Ok (o, fs', ss') -> grows ss ss'.
Proof.
  assert (Hentity : forall n sp,
            entity_tab H n sp fs ss = Ok (o, fs', ss') -> grows ss ss').
  { unfold entity_tab. intros n sp Hrun.
    step Hrun as directory ?.
    step Hrun as loaded ?.
    step Hrun as schema ?.
    step Hrun as ids ?.
    destruct (negb (is_str _ new_choice)).
    { step Hrun as doc ?. injection Hrun as _ _ <-. apply grows_refl. }
    step Hrun as fields ?.
    step Hrun as items ?.
    step Hrun as [payload ss1] Hform.
    assert (Hgrows : grows ss ss1).
    { revert Hform. apply render_items_grows.
      apply Forall_forall. intros kv _. apply render_field_grows. }
    destruct (button H _).
    - step Hrun as missing ?.
      destruct missing; [|injection Hrun as _ _ <-; exact Hgrows].
      destruct (negb (truthy _)); [injection Hrun as _ _ <-; exact Hgrows|].
      step Hrun as fs1 ?. injection Hrun as _ _ <-. exact Hgrows.
    - injection Hrun as _ _ <-. exact Hgrows. }
  unfold main. intros Hrun. step Hrun as Q ?.
  destruct (is_str _ "Taxa"); [eapply Hentity, Hrun|].
  destruct (is_str _ "Sources"); [eapply Hentity, Hrun|].
  destruct (is_str _ "Materials"); [eapply Hentity, Hrun|].
  step Hrun as [o1 fs1] ?. injection Hrun as _ _ <-. apply grows_refl.
Qed.

Lemma entries_are_never_dropped_witness :
  exists o ss',
    main App8 (Host ∅ {[ "Taxon_synonyms_add" ]} (fun _ => "") plain_yaml)
         (taxon_schema_file fields_with_synonyms) synonyms_session
    = Ok (o, taxon_schema_file fields_with_synonyms, ss') /\
    exists more, ss' !! "Taxon_synonyms" = Some ([VDict []; VDict []] ++ more).
Proof.
  eexists _, _. split; [vm_compute; reflexivity|].
  exact (entries_are_never_dropped App8 (Host ∅ {[ "Taxon_synonyms_add" ]} (fun _ => "") plain_yaml)
           (taxon_schema_file fields_with_synonyms) synonyms_session _ _ _ eq_refl
           "Taxon_synonyms" [VDict []; VDict []] eq_refl).
Defined.

(** ** Specs that are neither a string nor a mapping *)

Lemma render_items_malformed H fs prefix (items : dict) f spec :
  (f, spec) ∈ items ->
  (forall s, spec <> VStr s) -> (forall d, spec <> VDict d) ->
  forall entry ss r, render_items (render_field H fs) prefix items entry ss <> Ok r.
Proof.
  intros Hin Hstr Hdict.
  induction items as [|[fname fspec] rest IH]; intros entry ss r; [inversion Hin|].
  simpl.
  destruct (render_field H fs fname fspec prefix ss) as [[val ss1]|e] eqn:Hval; simpl;
    [|discriminate].
  apply elem_of_cons in Hin as [[= <- <-]|Hin]; [|apply IH, Hin].
  destruct spec; try discriminate Hval.
  - destruct (Hstr s eq_refl).
  - destruct (Hdict d eq_refl).
Qed.

(** X22. A schema may give a field as a type name or as a mapping, and
    nothing else: when a top-level field of the entity has any other spec
    (an empty one, a number, a sequence), the entry form of the entity
    never appears, whatever is entered; the run ends in an exception. *)
Theorem malformed_spec_breaks_form H n sp fs ss directory (items : dict) f spec r :
  DIRS !! n = Some directory ->
  entity_fields fs sp n = Ok items ->
  (f, spec) ∈ items ->
  (forall s, spec <> VStr s) -> (forall d, spec <> VDict d) ->
  selectbox H (VList (VStr new_choice :: map VStr (ids_of fs directory)))
            (n +:+ "_select") = VStr new_choice ->
  entity_tab H n sp fs ss <> Ok r.
Proof.
  unfold entity_fields, entity_tab, dirs_at.
  intros Hdir Hfields Hin Hstr Hdict Hnew. rewrite Hdir. simpl.
  destruct (load_schema fs sp) as [loaded|e]; [simpl in *|discriminate].
  destruct (py_getitem loaded n) as [schema|e]; [simpl in *|discriminate].
  rewrite (list_yaml_ids_DIRS fs _ _ Hdir). simpl.
  rewrite Hnew. cbn [is_str]. unfold new_choice at 1. rewrite String.eqb_refl.
  cbn [negb].
  destruct (py_getitem schema "fields") as [fields|e]; [simpl in *|discriminate].
  rewrite Hfields. simpl.
  destruct (render_items (render_field H fs) n items [] ss) as [[payload ss1]|e] eqn:Hform;
    [|discriminate].
  destruct (render_items_malformed H fs n items f spec Hin Hstr Hdict _ _ _ Hform).
Qed.

Lemma malformed_spec_breaks_form_witness :
  entity_tab idle_host "Taxon" taxon_schema_path
    (taxon_schema_file [("taxon_id", required_id); ("notes", VNone)]) ∅
  <> Ok (Form [], taxon_schema_file [("taxon_id", required_id); ("notes", VNone)], ∅).
Proof.
  apply (malformed_spec_breaks_form idle_host "Taxon" taxon_schema_path _ ∅ (DATA // "taxa")
           [("taxon_id", required_id); ("notes", VNone)] "notes" VNone).
  - reflexivity.
  - reflexivity.
  - right. left.
  - discriminate.
  - discriminate.
  - reflexivity.
Defined.
